(** * threejs-instances-gpu: the particle-field prototype and its cameras

    A shallow embedding of [src/js/index.ts] (both recorded variants of the
    file) and of the cameras module, followed by the properties the
    specification states about them.

    JavaScript numbers are IEEE-754 binary64 values, so they are modelled by
    Rocq's primitive floats: [0.75 * 600], [Math.sqrt] and the division of
    the window sizes evaluate as they do in the browser.  The functions of
    the three.js library that the program calls ([Vector4.normalize],
    [Float32Array], [PerspectiveCamera], ...) are modelled next to their
    first use; what depends on the platform (the random generator, the
    lights table, the build constants, trigonometry) is gathered in the
    record [Platform]. *)

Set Warnings "-inexact-float".
From Stdlib Require Import Floats ZArith List String Bool Arith Lia.
From stdpp Require Import list.
From Equations Require Import Equations.
Import ListNotations.

Local Open Scope nat_scope.

(** ** JavaScript values *)

Module JS.

(** An array element or an object property read: a number, or [undefined]
    when the index is past the end. *)
Inductive value : Type :=
| Num (f : float)
| Undefined.

(** Thrown values: the program's own failures are all the [TypeError] of
    a property access on [undefined] or [null]. *)
Inductive error : Type :=
| TypeError (what : string)
| Reason (why : string).
    (* the value a loader's promise is rejected with *)

(** [ToNumber]: [undefined] becomes [NaN]. *)
Definition toNumber (v : value) : float :=
  match v with
  | Num f => f
  | Undefined => nan
  end.

(** [v * k] for a number [k]. *)
Definition mul (v : value) (k : float) : float := (toNumber v * k)%float.

(** [a[i]] on an array of numbers (a typed array or a plain array): no
    failure, [undefined] out of range. *)
Definition get (a : list float) (i : nat) : value :=
  match a !! i with
  | Some f => Num f
  | None => Undefined
  end.

(** [x || 1]: the falsy numbers are the zeros and [NaN]. *)
Definition or_one (x : float) : float :=
  if (PrimFloat.eqb x 0 || negb (PrimFloat.eqb x x))%bool then 1%float else x.

(** [Math.fround], the rounding a [Float32Array] applies to every element
    it stores: nearest binary32 value, ties to even. *)
Definition fround (x : float) : float :=
  match Prim2SF x with
  | S754_finite s m e =>
      SF2Prim (binary_normalize 24 128 (cond_Zopp s (Zpos m)) e s)
  | _ => x
  end.

(** [Math.round]: the nearest integer, a tie going up; an integer, a
    zero, an infinity or [NaN] is returned as it is, and a number in
    [-0.5, 0) gives [-0]. *)
Definition round (x : float) : float :=
  match Prim2SF x with
  | S754_finite sgn m e =>
      if (0 <=? e)%Z then x
      else
        (* x = n * 2^e with e < 0: floor (x + 1/2) = (2n + 2^-e) / 2^(1-e) *)
        let n := cond_Zopp sgn (Zpos m) in
        let q := ((2 * n + 2 ^ (- e)) / 2 ^ (1 - e))%Z in
        match q with
        | Z0 => if sgn then (-0)%float else 0%float
        | Zpos k => SF2Prim (binary_normalize 53 1024 (Zpos k) 0 false)
        | Zneg k => SF2Prim (binary_normalize 53 1024 (Zneg k) 0 true)
        end
  | _ => x
  end.

(** [new Float32Array(a)] read back as numbers. *)
Definition Float32Array (a : list float) : list float := map fround a.

(** Membership in the half-open unit interval, the contract of
    [Math.random]. *)
Definition in_unit (x : float) : bool := ((0 <=? x) && (x <? 1))%float.

End JS.

(** ** three.js vectors *)

Record Vector3 : Type := mkVector3 { v3x : float; v3y : float; v3z : float }.

Record Vector4 : Type :=
  mkVector4 { v4x : float; v4y : float; v4z : float; v4w : float }.

Module Vec4.

Definition set (_ : Vector4) (x y z w : float) : Vector4 := mkVector4 x y z w.

Definition length (v : Vector4) : float :=
  sqrt (v4x v * v4x v + v4y v * v4y v + v4z v * v4z v + v4w v * v4w v)%float.

Definition multiplyScalar (v : Vector4) (s : float) : Vector4 :=
  mkVector4 (v4x v * s) (v4y v * s) (v4z v * s) (v4w v * s)%float.

Definition divideScalar (v : Vector4) (s : float) : Vector4 :=
  multiplyScalar v (1 / s)%float.

Definition normalize (v : Vector4) : Vector4 :=
  divideScalar v (JS.or_one (length v)).

(** [new THREE.Vector4()] *)
Definition new : Vector4 := mkVector4 0 0 0 1.

End Vec4.

(** ** The cameras module *)

(** What [lookAt] derives the camera's rotation from: the position the
    camera has when it is called, and the target. *)
Record Orientation : Type := mkOrientation { eye : Vector3; target : Vector3 }.

(** The parameters a projection matrix was last computed from
    ([updateProjectionMatrix] reads exactly these four on a camera whose
    zoom and film offset are never set). *)
Record Projection : Type :=
  mkProjection { p_fov : float; p_aspect : float; p_near : float; p_far : float }.

Record PerspectiveCamera : Type := mkCamera {
  fov : float;
  aspect : float;
  near : float;
  far : float;
  position : Vector3;
  orientation : option Orientation;
  projectionMatrix : Projection
}.

Module Camera.

Definition updateProjectionMatrix (c : PerspectiveCamera) : PerspectiveCamera :=
  mkCamera (fov c) (aspect c) (near c) (far c) (position c) (orientation c)
           (mkProjection (fov c) (aspect c) (near c) (far c)).

(** [new PerspectiveCamera(fov, aspect, near, far)]: at the origin, not
    yet oriented, projection matrix computed. *)
Definition new (fov aspect near far : float) : PerspectiveCamera :=
  updateProjectionMatrix
    (mkCamera fov aspect near far (mkVector3 0 0 0) None
              (mkProjection fov aspect near far)).

Definition set_aspect (c : PerspectiveCamera) (a : float) : PerspectiveCamera :=
  mkCamera (fov c) a (near c) (far c) (position c) (orientation c)
           (projectionMatrix c).

Definition position_set (c : PerspectiveCamera) (x y z : float) : PerspectiveCamera :=
  mkCamera (fov c) (aspect c) (near c) (far c) (mkVector3 x y z)
           (orientation c) (projectionMatrix c).

Definition position_set_z (c : PerspectiveCamera) (z : float) : PerspectiveCamera :=
  mkCamera (fov c) (aspect c) (near c) (far c)
           (mkVector3 (v3x (position c)) (v3y (position c)) z)
           (orientation c) (projectionMatrix c).

Definition lookAt (c : PerspectiveCamera) (t : Vector3) : PerspectiveCamera :=
  mkCamera (fov c) (aspect c) (near c) (far c) (position c)
           (Some (mkOrientation (position c) t)) (projectionMatrix c).

(** The projection matrix is the one of the camera's current parameters. *)
Definition projection_current (c : PerspectiveCamera) : Prop :=
  projectionMatrix c = mkProjection (fov c) (aspect c) (near c) (far c).

End Camera.

Module Cameras.

Definition fov : float := 50.
Definition ratio (innerWidth innerHeight : float) : float :=
  (innerWidth / innerHeight)%float.
Definition near : float := 1.
Definition far : float := 10.

(** [function zoom(camera, value = 1)] *)
Definition zoom (camera : PerspectiveCamera) (value : option float)
  : PerspectiveCamera :=
  let value := default 1%float value in
  let camera := Camera.position_set camera (1 * value) (0.75 * value) (1 * value)%float in
  let camera := Camera.position_set_z camera 2 in
  Camera.lookAt camera (mkVector3 0 0 0).

Definition dev (innerWidth innerHeight : float) : PerspectiveCamera :=
  zoom (Camera.new fov (ratio innerWidth innerHeight) near far) (Some 8%float).

Definition main (innerWidth innerHeight : float) : PerspectiveCamera :=
  zoom (Camera.new fov (ratio innerWidth innerHeight) near far) (Some 3%float).

End Cameras.


(** ** The scene graph *)

(** Uniforms of the particle material: [time.value] and [sineTime.value]. *)
Record Uniforms : Type := mkUniforms { u_time : float; u_sineTime : float }.

Inductive Material : Type :=
| LineBasicMaterial
    (* the helpers' material: it has no [uniforms] *)
| RawShaderMaterial (uniforms : Uniforms) (vertexShader fragmentShader : string)
                    (transparent : bool).

(** The instanced geometry: [maxInstancedCount] and the five attribute
    buffers, each a [Float32Array]. *)
Record InstancedBufferGeometry : Type := mkGeometry {
  maxInstancedCount : nat;
  attr_position : list float;
  attr_offset : list float;
  attr_color : list float;
  attr_orientationStart : list float;
  attr_orientationEnd : list float
}.

Inductive Kind : Type :=
| GridHelper (size divisions : nat)
| AxisHelper
| Light (key : string)
| TargetObject
    (* the loaded reference model.  [scene.add(this.targetObject)] puts
       into the scene the very object the field [this.targetObject] refers
       to, so this child is a reference: the group, with its meshes and
       their materials, is read from the field ([scene_graph] below) *)
| ParticleMesh (geometry : InstancedBufferGeometry).

(** A child of the scene: every [Object3D] has a rotation; [material] is
    [undefined] on lights and groups. *)
Record Object3D : Type := mkObject {
  kind : Kind;
  rotation_y : float;
  material : option Material
}.

Definition new_object (k : Kind) (m : option Material) : Object3D :=
  mkObject k 0 m.

(** A mesh of the loaded reference model:
    [child.geometry.attributes.position.array] and
    [child.material.wireframe]. *)
Record ChildMesh : Type := mkChild {
  position_array : list float;
  wireframe : bool
}.

Record Group : Type := mkGroup {
  children : list ChildMesh;
  scale : Vector3
}.

(** [SphereGeometry]: vertices and faces indexing them. *)
Record Face3 : Type := mkFace { face_a : nat; face_b : nat; face_c : nat }.
Record Geometry : Type := mkSphere { vertices : list Vector3; faces : list Face3 }.

(** An element of [targetOffsets]: [{x, y, z}] as read from a position
    array. *)
Record SamplePoint : Type :=
  mkSample { sx : JS.value; sy : JS.value; sz : JS.value }.

(** ** Platform and build configuration *)

Record Platform : Type := mkPlatform {
  DEV_HELPERS : bool;
  DEV_STATS : bool;
  lights : list string;
    (* [Object.keys(lights)], in order *)
  Math_random_stream : nat -> float;
    (* the result of the k-th call of [Math.random] *)
  Math_sin : float -> float;
  SphereGeometry : float -> nat -> nat -> Geometry;
  OrbitControls_orbit : Vector3 -> Vector3;
    (* where pending pointer input moves a camera on [controls.update()] *)
  vertexShader_text : option string;
  fragmentShader_text : option string
    (* [document.getElementById(id)], [None] when the element is absent *)
}.

(** ** Observable effects *)

Inductive CameraName : Type := Dev | Main.

Inductive Effect : Type :=
| AppendChild (element : string)
| AddResizeListener
| AssetLoad
| ObjLoad (url : string)
| RequestAnimationFrame
| StatsBegin
| StatsEnd
| RenderStatsUpdate
| SetViewport (left bottom width height : float)
| SetScissor (left bottom width height : float)
| SetClearColor (color : Z)
| Render (camera : CameraName)
| SetSize (width height : float)
| SetQuery (key : string) (val : bool)
| ConsoleLog (msg : string)
| ConsoleLogItem (item : string) (loaded total : float)
    (* [console.log(item, loaded, total)] *)
| ConsoleLogDownloaded (percent : float)
    (* [console.log(percent + '% downloaded')] *)
| ConsoleWarn (err : JS.error).

Definition is_render (e : Effect) : bool :=
  match e with Render _ => true | _ => false end.

Definition is_load (e : Effect) : bool :=
  match e with AssetLoad | ObjLoad _ => true | _ => false end.

(** The number of render passes in a trace. *)
Definition render_passes (tr : list Effect) : nat :=
  length (filter (fun e => is_render e = true) tr).

(** ** Application state *)

Inductive Variant : Type :=
| ReferenceModel  (* the variant that samples a loaded OBJ model, 15012 instances *)
| Triangle.       (* the variant with one hard-coded triangle, 5000 instances *)

Inductive PromiseState : Type := Pending | Settled.

Record App : Type := mkApp {
  innerWidth : float;
  innerHeight : float;
  cam_dev : PerspectiveCamera;
  cam_main : PerspectiveCamera;
  scene : list Object3D;            (* [scene.children] *)
  debugCamera : bool;               (* [flags.debugCamera] *)
  targetObject : option Group;      (* [this.targetObject] *)
  randoms : nat;                    (* calls of [Math.random] so far *)
  manifest : option PromiseState;   (* the [AssetLoader] promise, once created *)
  objPending : bool;                (* an OBJ load is in flight *)
  objRequested : bool               (* [loadObj] has created its manager and loader *)
}.

Definition with_window (s : App) (w h : float) : App :=
  mkApp w h (cam_dev s) (cam_main s) (scene s) (debugCamera s)
        (targetObject s) (randoms s) (manifest s) (objPending s)
        (objRequested s).
Definition with_cameras (s : App) (d m : PerspectiveCamera) : App :=
  mkApp (innerWidth s) (innerHeight s) d m (scene s) (debugCamera s)
        (targetObject s) (randoms s) (manifest s) (objPending s)
        (objRequested s).
Definition with_scene (s : App) (l : list Object3D) : App :=
  mkApp (innerWidth s) (innerHeight s) (cam_dev s) (cam_main s) l (debugCamera s)
        (targetObject s) (randoms s) (manifest s) (objPending s)
        (objRequested s).
Definition with_debugCamera (s : App) (b : bool) : App :=
  mkApp (innerWidth s) (innerHeight s) (cam_dev s) (cam_main s) (scene s) b
        (targetObject s) (randoms s) (manifest s) (objPending s)
        (objRequested s).
Definition with_targetObject (s : App) (g : option Group) : App :=
  mkApp (innerWidth s) (innerHeight s) (cam_dev s) (cam_main s) (scene s)
        (debugCamera s) g (randoms s) (manifest s) (objPending s)
        (objRequested s).
Definition with_randoms (s : App) (n : nat) : App :=
  mkApp (innerWidth s) (innerHeight s) (cam_dev s) (cam_main s) (scene s)
        (debugCamera s) (targetObject s) n (manifest s) (objPending s)
        (objRequested s).
Definition with_manifest (s : App) (p : option PromiseState) : App :=
  mkApp (innerWidth s) (innerHeight s) (cam_dev s) (cam_main s) (scene s)
        (debugCamera s) (targetObject s) (randoms s) p (objPending s)
        (objRequested s).
Definition with_objPending (s : App) (b : bool) : App :=
  mkApp (innerWidth s) (innerHeight s) (cam_dev s) (cam_main s) (scene s)
        (debugCamera s) (targetObject s) (randoms s) (manifest s) b
        (objRequested s).
Definition with_objRequested (s : App) (b : bool) : App :=
  mkApp (innerWidth s) (innerHeight s) (cam_dev s) (cam_main s) (scene s)
        (debugCamera s) (targetObject s) (randoms s) (manifest s) (objPending s) b.

(** ** The monad of handlers

    A handler reads and writes the application state, emits effects and may
    throw.  A JavaScript exception does not roll anything back: the state
    reached and the effects emitted before the throw stay. *)

Inductive Outcome (A : Type) : Type :=
| Ok (a : A)
| Throw (e : JS.error).
Arguments Ok {A} a.
Arguments Throw {A} e.

Record Run (A : Type) : Type := mkRun {
  outcome : Outcome A;
  state : App;
  effects : list Effect
}.
Arguments mkRun {A} _ _ _.
Arguments outcome {A} _.
Arguments state {A} _.
Arguments effects {A} _.

Definition M (A : Type) : Type := App -> Run A.

Definition ret {A} (a : A) : M A := fun s => mkRun (Ok a) s [].

(** The effects [tr] happened before the run [r]. *)
Definition prepend {A} (tr : list Effect) (r : Run A) : Run A :=
  match r with
  | mkRun o s t => mkRun o s (tr ++ t)
  end.

Definition bind {A B} (m : M A) (k : A -> M B) : M B :=
  fun s =>
    match m s with
    | mkRun (Ok a) s' tr => prepend tr (k a s')
    | mkRun (Throw e) s' tr => mkRun (Throw e) s' tr
    end.

Definition throw {A} (e : JS.error) : M A := fun s => mkRun (Throw e) s [].
Definition emit (e : Effect) : M unit := fun s => mkRun (Ok tt) s [e].
Definition get : M App := fun s => mkRun (Ok s) s [].
Definition modify (f : App -> App) : M unit := fun s => mkRun (Ok tt) (f s) [].
Definition when (b : bool) (m : M unit) : M unit := if b then m else ret tt.

Declare Scope js_scope.
Delimit Scope js_scope with js.
Notation "'do' x <- m ; k" := (bind m (fun x => k))
  (at level 10, x name, m at level 100, k at level 200) : js_scope.
Notation "'run' m ; k" := (bind m (fun _ => k))
  (at level 10, m at level 100, k at level 200) : js_scope.
Local Open Scope js_scope.

(** [xs.forEach(f)] *)
Fixpoint forEach {A} (xs : list A) (f : A -> M unit) : M unit :=
  match xs with
  | [] => ret tt
  | x :: xs => run f x; forEach xs f
  end.

(** [for (let i = i0; i < i0 + n; i++) st = body(i, st)] *)
Fixpoint for_range {St} (n i : nat) (body : nat -> St -> M St) (st : St) : M St :=
  match n with
  | 0 => ret st
  | S n => do st' <- body i st; for_range n (S i) body st'
  end.

(** [promise.then(m).catch(h)]: a failure of [m] is handed to [h], which
    runs in the state the failure left. *)
Definition catch {A} (m : M A) (h : JS.error -> M A) : M A :=
  fun s =>
    match m s with
    | mkRun (Ok a) s' tr => mkRun (Ok a) s' tr
    | mkRun (Throw e) s' tr => prepend tr (h e s')
    end.

Lemma prepend_nil {A} (r : Run A) : prepend [] r = r.
Proof. destruct r; reflexivity. Qed.

Lemma state_prepend {A} (tr : list Effect) (r : Run A) :
  state (prepend tr r) = state r.
Proof. destruct r; reflexivity. Qed.

Lemma outcome_prepend {A} (tr : list Effect) (r : Run A) :
  outcome (prepend tr r) = outcome r.
Proof. destruct r; reflexivity. Qed.

Lemma effects_prepend {A} (tr : list Effect) (r : Run A) :
  effects (prepend tr r) = tr ++ effects r.
Proof. destruct r; reflexivity. Qed.

(** A bind whose first computation is known. *)
Lemma bind_run {A B} (m : M A) (k : A -> M B) (s s' : App)
      (o : Outcome A) (tr : list Effect) :
  m s = mkRun o s' tr ->
  bind m k s
  = match o with
    | Ok a => prepend tr (k a s')
    | Throw e => mkRun (Throw e) s' tr
    end.
Proof. intros E. unfold bind. rewrite E. reflexivity. Qed.

(** ** Flattening a position array into sample points

    [for (let i = 0; i < array.length; i = i + groupBy)
       targetOffsets.push({x: array[i], y: array[i+1], z: array[i+2]})]
    with [groupBy = 3].  The guard looks at [i] only. *)

Definition groupBy : nat := 3.

Equations? flatten_from (array : list float) (i : nat) (targetOffsets : list SamplePoint)
  : list SamplePoint by wf (length array - i) lt :=
  flatten_from array i targetOffsets with lt_dec i (length array) => {
    | left _ :=
        flatten_from array (i + groupBy)
          (targetOffsets ++
             [mkSample (JS.get array i) (JS.get array (i + 1)) (JS.get array (i + 2))]);
    | right _ := targetOffsets }.
Proof. unfold groupBy. lia. Qed.

(** [this.targetObject.children.forEach(child => { ... })]: the pool
    accumulated over all children, in order. *)
Definition flatten_children (cs : list ChildMesh) : list SamplePoint :=
  fold_left (fun targetOffsets child => flatten_from (position_array child) 0 targetOffsets)
            cs [].

Definition set_wireframe (c : ChildMesh) : ChildMesh :=
  mkChild (position_array c) true.

(** ** Per-instance attribute arrays *)

Record Attrs : Type := mkAttrs {
  offsets : list float;
  colors : list float;
  orientationsStart : list float;
  orientationsEnd : list float
}.

Definition no_attrs : Attrs := mkAttrs [] [] [] [].

Definition components (v : Vector4) : list float := [v4x v; v4y v; v4z v; v4w v].

Definition instances (v : Variant) : nat :=
  match v with
  | ReferenceModel => 15012
  | Triangle => 5000
  end.

(** The hard-coded triangle of the triangle variant. *)
Definition triangle_positions : list float :=
  [0.025; -0.025; 0; -0.025; 0.025; 0; 0; 0; 0.025]%float.

(** The relative path the reference model is loaded from. *)
Definition obj_url : string := "./assets/webgl/obj/male02.obj".

Definition clear_color : Z := 0x121212.

(** ** The application: [class WebGLPrototype] *)

Section Program.

Variable P : Platform.

(** [Math.random()] *)
Definition Math_random : M float :=
  fun s => mkRun (Ok (Math_random_stream P (randoms s)))
                 (with_randoms s (S (randoms s))) [].

(** [scene.add(o)] *)
Definition scene_add (o : Object3D) : M unit :=
  modify (fun s => with_scene s (scene s ++ [o])).

(** [box.vertices[i]] followed by a property read *)
Definition vertex_at (box : Geometry) (i : nat) : M Vector3 :=
  match vertices box !! i with
  | Some p => ret p
  | None => throw (JS.TypeError "Cannot read property 'x' of undefined")
  end.

(** [box.faces.forEach(face => positions.push(...))] *)
Fixpoint sphere_positions (box : Geometry) (fs : list Face3) (positions : list float)
  : M (list float) :=
  match fs with
  | [] => ret positions
  | face :: fs =>
      do a <- vertex_at box (face_a face);
      let positions := positions ++ [v3x a; v3y a; v3z a] in
      do b <- vertex_at box (face_b face);
      let positions := positions ++ [v3x b; v3y b; v3z b] in
      do c <- vertex_at box (face_c face);
      let positions := positions ++ [v3x c; v3y c; v3z c] in
      sphere_positions box fs positions
  end.

(** One iteration of the instance loop of the reference-model variant. *)
Definition instance_reference (targetOffsets : list SamplePoint) (i : nat)
           (st : Vector4 * Attrs) : M (Vector4 * Attrs) :=
  let '(vector, a) := st in
  (* offsets *)
  match targetOffsets !! i with
  | None => throw (JS.TypeError "Cannot read property 'x' of undefined")
  | Some p =>
      let offsets :=
        offsets a ++ [JS.mul (sx p) 0.01; JS.mul (sy p) 0.01; JS.mul (sz p) 0.01] in
      (* colors *)
      do r <- Math_random; do g <- Math_random;
      do b <- Math_random; do alpha <- Math_random;
      let colors := colors a ++ [r; g; b; alpha] in
      (* orientation start *)
      let vector := Vec4.set vector 0.5 0.5 0.5 0.5 in
      let vector := Vec4.normalize vector in
      let orientationsStart := orientationsStart a ++ components vector in
      (* orientation end *)
      let vector := Vec4.set vector 0.5 0.5 0.5 0.5 in
      let vector := Vec4.normalize vector in
      let orientationsEnd := orientationsEnd a ++ components vector in
      ret (vector, mkAttrs offsets colors orientationsStart orientationsEnd)
  end.

(** [Math.random() * 2 - 1] *)
Definition random_signed : M float :=
  do r <- Math_random; ret (r * 2 - 1)%float.

(** One iteration of the instance loop of the triangle variant. *)
Definition instance_triangle (i : nat) (st : Vector4 * Attrs)
  : M (Vector4 * Attrs) :=
  let '(vector, a) := st in
  (* offsets *)
  do ox <- Math_random; do oy <- Math_random; do oz <- Math_random;
  let offsets := offsets a ++ [ox - 0.5; oy - 0.5; oz - 0.5]%float in
  (* colors *)
  do r <- Math_random; do g <- Math_random;
  do b <- Math_random; do alpha <- Math_random;
  let colors := colors a ++ [r; g; b; alpha] in
  (* orientation start *)
  do x <- random_signed; do y <- random_signed;
  do z <- random_signed; do w <- random_signed;
  let vector := Vec4.set vector x y z w in
  let vector := Vec4.normalize vector in
  let orientationsStart := orientationsStart a ++ components vector in
  (* orientation end *)
  do x <- random_signed; do y <- random_signed;
  do z <- random_signed; do w <- random_signed;
  let vector := Vec4.set vector x y z w in
  let vector := Vec4.normalize vector in
  let orientationsEnd := orientationsEnd a ++ components vector in
  ret (vector, mkAttrs offsets colors orientationsStart orientationsEnd).

(** The instanced geometry made of the shared positions and the
    per-instance arrays. *)
Definition make_geometry (n : nat) (positions : list float) (a : Attrs)
  : InstancedBufferGeometry :=
  mkGeometry n
    (JS.Float32Array positions)
    (JS.Float32Array (offsets a))
    (JS.Float32Array (colors a))
    (JS.Float32Array (orientationsStart a))
    (JS.Float32Array (orientationsEnd a)).

(** [document.getElementById(id).textContent] *)
Definition textContent (element : option string) : M string :=
  match element with
  | Some text => ret text
  | None => throw (JS.TypeError "Cannot read property 'textContent' of null")
  end.

(** The end of [objectInit]: geometry, material, mesh, [scene.add(mesh)]. *)
Definition add_particles (n : nat) (positions : list float) (a : Attrs)
           (transparent : bool) : M unit :=
  let geometry := make_geometry n positions a in
  do vs <- textContent (vertexShader_text P);
  do fs <- textContent (fragmentShader_text P);
  let material := RawShaderMaterial (mkUniforms 1 1) vs fs transparent in
  scene_add (new_object (ParticleMesh geometry) (Some material)).

(** The instance loop alone, for [n] instances. *)
Definition instance_loop (v : Variant) (n : nat) (targetOffsets : list SamplePoint)
  : M (Vector4 * Attrs) :=
  match v with
  | ReferenceModel =>
      for_range n 0 (instance_reference targetOffsets) (Vec4.new, no_attrs)
  | Triangle =>
      for_range n 0 instance_triangle (Vec4.new, no_attrs)
  end.

(** [objectInit] with the instance count as a parameter. *)
Definition objectInit_with (v : Variant) (n : nat) : M unit :=
  match v with
  | ReferenceModel =>
      let box := SphereGeometry P 0.01 8 1 in
      do positions <- sphere_positions box (faces box) [];
      do s <- get;
      match targetObject s with
      | None => throw (JS.TypeError "Cannot read property 'children' of undefined")
      | Some object =>
          run modify (fun s =>
                with_targetObject s
                  (Some (mkGroup (map set_wireframe (children object)) (scale object))));
          let targetOffsets := flatten_children (children object) in
          do st <- instance_loop ReferenceModel n targetOffsets;
          add_particles n positions (snd st) false
      end
  | Triangle =>
      let positions := triangle_positions in
      do st <- instance_loop Triangle n [];
      run add_particles n positions (snd st) true;
      emit (ConsoleLog "scene")
  end.

Definition objectInit (v : Variant) : M unit := objectInit_with v (instances v).

(** [loadObj]: the manager and the loader are created and the load is
    started; the four callbacks it registers are the events
    [ManagerProgress], [XhrProgress], [ObjLoaded] and [ObjFailed] below. *)
Definition loadObj : M unit :=
  run modify (fun s => with_objRequested s true);
  run emit (ObjLoad obj_url);
  modify (fun s => with_objPending s true).

(** [manager.onProgress] *)
Definition onManagerProgress (item : string) (loaded total : float) : M unit :=
  emit (ConsoleLogItem item loaded total).

(** The [onProgress] callback of [loader.load]. *)
Definition onProgress (lengthComputable : bool) (loaded total : float) : M unit :=
  when lengthComputable
       (let percentComplete := (loaded / total * 100)%float in
        emit (ConsoleLogDownloaded (JS.round percentComplete))).

(** The [onLoad] callback of [loader.load]. *)
Definition onObjLoaded (n : nat) (object : Group) : M unit :=
  let object := mkGroup (children object) (mkVector3 0.02 0.02 0.02) in
  run modify (fun s => with_targetObject s (Some object));
  run scene_add (new_object TargetObject None);
  objectInit_with ReferenceModel n.

Definition onAssetsLoaded (v : Variant) : M unit :=
  run emit (ConsoleLog "assets loaded");
  match v with
  | ReferenceModel => loadObj
  | Triangle => objectInit Triangle
  end.

Definition onAssetsError (error : JS.error) : M unit :=
  emit (ConsoleWarn error).

Definition onResize : M unit :=
  run modify (fun s =>
        with_cameras s
          (Camera.set_aspect (cam_dev s) (innerWidth s / innerHeight s)%float)
          (cam_main s));
  run modify (fun s =>
        with_cameras s (cam_dev s)
          (Camera.set_aspect (cam_main s) (innerWidth s / innerHeight s)%float));
  run modify (fun s =>
        with_cameras s (Camera.updateProjectionMatrix (cam_dev s)) (cam_main s));
  run modify (fun s =>
        with_cameras s (cam_dev s) (Camera.updateProjectionMatrix (cam_main s)));
  do s <- get;
  emit (SetSize (innerWidth s) (innerHeight s)).

Definition render (camera : CameraName) (left bottom width height : float)
  : M unit :=
  do s <- get;
  let left := (left * innerWidth s)%float in
  let bottom := (bottom * innerHeight s)%float in
  let width := (width * innerWidth s)%float in
  let height := (height * innerHeight s)%float in
  run emit (SetViewport left bottom width height);
  run emit (SetScissor left bottom width height);
  run emit (SetClearColor clear_color);
  emit (Render camera).

(** [controls.update()] of an [OrbitControls]: the camera is moved where
    the pending input puts it and turned to the controls' target. *)
Definition controls_update (c : PerspectiveCamera) : PerspectiveCamera :=
  let p := OrbitControls_orbit P (position c) in
  Camera.lookAt (Camera.position_set c (v3x p) (v3y p) (v3z p)) (mkVector3 0 0 0).

(** The two render paths, chosen by [flags.debugCamera]. *)
Definition render_views : M unit :=
  do s <- get;
  if debugCamera s then
    run render Dev 0 0 1 1;
    render Main 0 0.75 0.25 0.25
  else
    render Main 0 0 1 1.

(** The animation block of the triangle variant:
    [const object = scene.children[3]] and the three assignments. *)
Definition animate (time : float) : M unit :=
  do s <- get;
  match scene s !! 3 with
  | None => throw (JS.TypeError "Cannot read property 'rotation' of undefined")
  | Some object =>
      let object := mkObject (kind object) (time * 0.0005)%float (material object) in
      run modify (fun s => with_scene s (<[3 := object]> (scene s)));
      match material object with
      | None => throw (JS.TypeError "Cannot read property 'uniforms' of undefined")
      | Some LineBasicMaterial =>
          throw (JS.TypeError "Cannot read property 'time' of undefined")
      | Some (RawShaderMaterial u vs fs t) =>
          let u := mkUniforms (time * 0.005)%float (u_sineTime u) in
          let u := mkUniforms (u_time u) (Math_sin P (u_time u * 0.05)%float) in
          let object :=
            mkObject (kind object) (rotation_y object)
                     (Some (RawShaderMaterial u vs fs t)) in
          modify (fun s => with_scene s (<[3 := object]> (scene s)))
      end
  end.

(** [update], one frame; [now] is the value of [performance.now()]. *)
Definition update (v : Variant) (now : float) : M unit :=
  run emit RequestAnimationFrame;
  run when (DEV_STATS P) (emit StatsBegin);
  run modify (fun s => with_cameras s (controls_update (cam_dev s)) (cam_main s));
  run modify (fun s => with_cameras s (cam_dev s) (controls_update (cam_main s)));
  let time := now in
  run match v with
      | ReferenceModel =>
          (* [const object = scene.children[scene.children.length - 1]],
             never used: the block that animated it is commented out *)
          ret tt
      | Triangle => animate time
      end;
  run render_views;
  when (DEV_STATS P) (run emit RenderStatsUpdate; emit StatsEnd).

(** The constructor; [now] is the time of the frame it runs itself.  The
    orbit controls, the clock and the panel entry it creates have no effect
    of their own: the controls act in [update], the panel through the event
    [DebugCamera]. *)
Definition constructor (v : Variant) (now : float) : M unit :=
  run emit (AppendChild "renderer.domElement");
  run when (DEV_HELPERS P)
        (run scene_add (new_object (GridHelper 10 10) (Some LineBasicMaterial));
         scene_add (new_object AxisHelper (Some LineBasicMaterial)));
  run forEach (lights P) (fun light => scene_add (new_object (Light light) None));
  run when (DEV_STATS P)
        (run emit (AppendChild "renderStats.domElement");
         emit (AppendChild "stats.domElement"));
  run emit AddResizeListener;
  run emit AssetLoad;
  run modify (fun s => with_manifest s (Some Pending));
  update v now.

(** The children the constructor puts in the scene. *)
Definition startup_children : list Object3D :=
  (if DEV_HELPERS P
   then [new_object (GridHelper 10 10) (Some LineBasicMaterial);
         new_object AxisHelper (Some LineBasicMaterial)]
   else [])
  ++ map (fun light => new_object (Light light) None) (lights P).

(** *** The event loop *)

(** The state when the module is evaluated: the window has its initial
    size, the cameras module has run, the scene is empty. *)
Definition boot (w h : float) (debug : bool) : App :=
  mkApp w h (Cameras.dev w h) (Cameras.main w h) [] debug None 0 None false false.

Inductive Event : Type :=
| Frame (now : float)               (* the animation-frame callback *)
| Resize (w h : float)
    (* the resize event is dispatched; the window measures w x h *)
| AssetsLoaded                      (* the manifest promise is fulfilled *)
| AssetsRejected (why : string)     (* the manifest promise is rejected *)
| ObjLoaded (object : Group)        (* the OBJ loader calls [onLoad] *)
| ObjFailed                         (* the OBJ loader calls [onError] *)
| DebugCamera (val : bool)          (* the panel sets [flags.debugCamera] *)
| ManagerProgress (item : string) (loaded total : float)
    (* the loading manager reports an item: [manager.onProgress] *)
| XhrProgress (lengthComputable : bool) (loaded total : float)
    (* a progress event of the download: the loader calls [onProgress] *)
| WindowResized (w h : float).
    (* the window takes the size w x h; no handler of the program runs,
       its resize event is dispatched later *)

(** What the event loop runs for an event.  A promise settles once, a
    loader calls back only for a load that was started and reports the
    progress of a download only while it is in flight, and the manager
    reports only once [loadObj] has created it; an event that cannot occur
    in the state is skipped.

    The window changes size on its own, [WindowResized]: from then on
    [window.innerWidth] and [window.innerHeight] read the new size, and
    until the resize event is dispatched the cameras keep the aspect of
    the old one.  [Resize w h] is the dispatch of the resize event to the
    listener when the window measures [w] x [h]: the listener only reads
    the size the window has by then. *)
Definition handle (v : Variant) (ev : Event) : M unit :=
  match ev with
  | Frame now => update v now
  | Resize w h =>
      run modify (fun s => with_window s w h);
      onResize
  | AssetsLoaded =>
      do s <- get;
      match manifest s with
      | Some Pending =>
          run modify (fun s => with_manifest s (Some Settled));
          catch (onAssetsLoaded v) onAssetsError
      | _ => ret tt
      end
  | AssetsRejected why =>
      do s <- get;
      match manifest s with
      | Some Pending =>
          run modify (fun s => with_manifest s (Some Settled));
          onAssetsError (JS.Reason why)
      | _ => ret tt
      end
  | ObjLoaded object =>
      do s <- get;
      if objPending s then
        run modify (fun s => with_objPending s false);
        onObjLoaded (instances ReferenceModel) object
      else ret tt
  | ObjFailed =>
      do s <- get;
      if objPending s then
        run modify (fun s => with_objPending s false);
        emit (ConsoleLog "xhr")
      else ret tt
  | DebugCamera val =>
      run modify (fun s => with_debugCamera s val);
      emit (SetQuery "cameraDebug" val)
  | ManagerProgress item loaded total =>
      do s <- get;
      if objRequested s then onManagerProgress item loaded total else ret tt
  | XhrProgress lengthComputable loaded total =>
      do s <- get;
      if objPending s then onProgress lengthComputable loaded total else ret tt
  | WindowResized w h =>
      modify (fun s => with_window s w h)
  end.

(** A sequence of events; an exception that escapes a handler ends that
    handler only. *)
Fixpoint play (v : Variant) (evs : list Event) (s : App) : App * list Effect :=
  match evs with
  | [] => (s, [])
  | ev :: evs =>
      let r := handle v ev s in
      let '(s', tr) := play v evs (state r) in
      (s', effects r ++ tr)
  end.

(** The state and the effects once the module has been evaluated. *)
Definition started (v : Variant) (w h : float) (debug : bool) (now : float)
  : Run unit :=
  constructor v now (boot w h debug).

End Program.

(** ** A platform to evaluate the program on *)

(** Helpers on, statistics off, one light, a generator that always returns
    [0.25], and a degenerate one-face sphere. *)
Definition sample_platform : Platform :=
  mkPlatform true false ["ambient"%string]
    (fun _ => 0.25%float)
    (fun x => x)
    (fun _ _ _ =>
       mkSphere [mkVector3 0 0.01 0; mkVector3 0.01 0 0; mkVector3 0 0 0.01]
                [mkFace 0 1 2])
    (fun p => p)
    (Some "vertex shader"%string) (Some "fragment shader"%string).

(** A reference model with one mesh of two vertices. *)
Definition sample_model : Group :=
  mkGroup [mkChild [1; 2; 3; 4; 5; 6]%float false] (mkVector3 1 1 1).

(** * Properties *)

(** ** The cameras *)

(** C7.  Both cameras are built with field of view 50, near plane 1, far
    plane 10 and the initial viewport ratio as aspect; [zoom] sets the
    position to the scale factor times (1, 0.75, 1), then overwrites z with
    2, then turns the camera to the origin, which it therefore looks at from
    (8, 6, 2) for the dev camera and from (3, 2.25, 2) for the main one. *)
Theorem C7_cameras_fixed_intrinsics_and_zoom (w h : float) :
  (forall camera value,
      Cameras.zoom camera (Some value)
      = Camera.lookAt
          (Camera.position_set_z
             (Camera.position_set camera (1 * value) (0.75 * value) (1 * value)) 2)
          (mkVector3 0 0 0))%float
  /\ (forall camera, Cameras.zoom camera None = Cameras.zoom camera (Some 1%float))
  /\ Cameras.dev w h = Cameras.zoom (Camera.new 50 (w / h) 1 10) (Some 8)%float
  /\ Cameras.main w h = Cameras.zoom (Camera.new 50 (w / h) 1 10) (Some 3)%float
  /\ (fov (Cameras.dev w h), near (Cameras.dev w h), far (Cameras.dev w h))
     = (50, 1, 10)%float
  /\ (fov (Cameras.main w h), near (Cameras.main w h), far (Cameras.main w h))
     = (50, 1, 10)%float
  /\ aspect (Cameras.dev w h) = (w / h)%float
  /\ aspect (Cameras.main w h) = (w / h)%float
  /\ position (Cameras.dev w h) = mkVector3 8 6 2
  /\ position (Cameras.main w h) = mkVector3 3 2.25 2
  /\ orientation (Cameras.dev w h)
     = Some (mkOrientation (mkVector3 8 6 2) (mkVector3 0 0 0))
  /\ orientation (Cameras.main w h)
     = Some (mkOrientation (mkVector3 3 2.25 2) (mkVector3 0 0 0)).
Proof.
  repeat split; reflexivity.
Qed.

(** ** Render passes *)

Lemma render_run (camera : CameraName) (l b w h : float) (s : App) :
  render camera l b w h s
  = mkRun (Ok tt) s
      [SetViewport (l * innerWidth s) (b * innerHeight s)
                   (w * innerWidth s) (h * innerHeight s);
       SetScissor (l * innerWidth s) (b * innerHeight s)
                  (w * innerWidth s) (h * innerHeight s);
       SetClearColor clear_color;
       Render camera]%float.
Proof. reflexivity. Qed.

(** C6.  A render pass multiplies left and width by the window width and
    bottom and height by the window height, and applies the result as
    viewport and as scissor; the fractional rectangle (0, 0.75, 0.25, 0.25)
    in an 800 x 600 window gives the pixel rectangle (0, 450, 200, 150). *)
Theorem C6_render_scales_fractional_rectangle
        (camera : CameraName) (l b w h : float) (s : App) :
  effects (render camera l b w h s)
  = [SetViewport (l * innerWidth s) (b * innerHeight s)
                 (w * innerWidth s) (h * innerHeight s);
     SetScissor (l * innerWidth s) (b * innerHeight s)
                (w * innerWidth s) (h * innerHeight s);
     SetClearColor 0x121212;
     Render camera]%float
  /\ effects (render camera 0 0.75 0.25 0.25 (with_window s 800 600))
     = [SetViewport 0 450 200 150; SetScissor 0 450 200 150;
        SetClearColor 0x121212; Render camera].
Proof.
  split; reflexivity.
Qed.

(** ** Resizing *)

Definition resizes (sizes : list (float * float)) : list Event :=
  map (fun wh => Resize (fst wh) (snd wh)) sizes.

(** Both cameras have the ratio of the current window as aspect, and
    projection matrices computed from their current parameters. *)
Definition aspect_current (s : App) : Prop :=
  aspect (cam_dev s) = (innerWidth s / innerHeight s)%float
  /\ aspect (cam_main s) = (innerWidth s / innerHeight s)%float
  /\ Camera.projection_current (cam_dev s)
  /\ Camera.projection_current (cam_main s).

Lemma resize_run (P : Platform) (v : Variant) (w h : float) (s : App) :
  handle P v (Resize w h) s
  = mkRun (Ok tt)
      (with_cameras (with_window s w h)
         (Camera.updateProjectionMatrix (Camera.set_aspect (cam_dev s) (w / h)%float))
         (Camera.updateProjectionMatrix (Camera.set_aspect (cam_main s) (w / h)%float)))
      [SetSize w h].
Proof. reflexivity. Qed.

(** The two progress callbacks only log. *)
Lemma manager_progress_run (P : Platform) (v : Variant) (item : string)
      (loaded total : float) (s : App) :
  handle P v (ManagerProgress item loaded total) s
  = mkRun (Ok tt) s
          (if objRequested s then [ConsoleLogItem item loaded total] else []).
Proof.
  cbn [handle].
  rewrite (bind_run _ _ _ _ _ _ (eq_refl : get s = mkRun (Ok s) s [])), prepend_nil.
  destruct (objRequested s); reflexivity.
Qed.

Lemma xhr_progress_run (P : Platform) (v : Variant) (lengthComputable : bool)
      (loaded total : float) (s : App) :
  handle P v (XhrProgress lengthComputable loaded total) s
  = mkRun (Ok tt) s
          (if (objPending s && lengthComputable)%bool
           then [ConsoleLogDownloaded (JS.round (loaded / total * 100))]
           else []).
Proof.
  cbn [handle].
  rewrite (bind_run _ _ _ _ _ _ (eq_refl : get s = mkRun (Ok s) s [])), prepend_nil.
  destruct (objPending s), lengthComputable; reflexivity.
Qed.

Lemma window_resized_run (P : Platform) (v : Variant) (w h : float) (s : App) :
  handle P v (WindowResized w h) s = mkRun (Ok tt) (with_window s w h) [].
Proof. reflexivity. Qed.

Lemma resize_establishes (P : Platform) (v : Variant) (w h : float) (s : App) :
  let s' := state (handle P v (Resize w h) s) in
  innerWidth s' = w /\ innerHeight s' = h /\ aspect_current s'.
Proof.
  rewrite resize_run. cbn. repeat split; reflexivity.
Qed.

Lemma play_app (P : Platform) (v : Variant) (evs1 evs2 : list Event) (s : App) :
  play P v (evs1 ++ evs2) s
  = (fst (play P v evs2 (fst (play P v evs1 s))),
     snd (play P v evs1 s) ++ snd (play P v evs2 (fst (play P v evs1 s)))).
Proof.
  revert s. induction evs1 as [|ev evs1 IH]; intros s; cbn [play app].
  - cbn. destruct (play P v evs2 s); reflexivity.
  - rewrite IH. destruct (play P v evs1 (state (handle P v ev s))) as [s1 t1].
    cbn [fst snd]. rewrite <- app_assoc. reflexivity.
Qed.

(** C5.  Whatever the state before, after a resize to [w] x [h] both
    cameras have aspect [w / h], the new width divided by the new height,
    and projection matrices recomputed from it; this holds after the last
    of any sequence of resize events, hence after each of them. *)
Theorem C5_resize_sets_aspect_of_both_cameras
        (P : Platform) (v : Variant) (sizes : list (float * float))
        (w h : float) (s : App) :
  let s' := fst (play P v (resizes (sizes ++ [(w, h)])) s) in
  innerWidth s' = w
  /\ innerHeight s' = h
  /\ aspect (cam_dev s') = (w / h)%float
  /\ aspect (cam_main s') = (w / h)%float
  /\ p_aspect (projectionMatrix (cam_dev s')) = (w / h)%float
  /\ p_aspect (projectionMatrix (cam_main s')) = (w / h)%float
  /\ aspect_current s'.
Proof.
  unfold resizes. rewrite map_app, play_app. cbn [fst snd map play].
  set (s1 := fst (play P v _ s)).
  pose proof (resize_establishes P v w h s1) as H.
  destruct (handle P v (Resize w h) s1) as [o s2 tr] eqn:E.
  rewrite resize_run in E. injection E as _ <- _.
  cbn in *. destruct H as (Hw & Hh & Ha). repeat split; try reflexivity; apply Ha.
Qed.

(** ** The offset pool *)

(** The point the loop pushes in its k-th iteration. *)
Definition sample_at (array : list float) (k : nat) : SamplePoint :=
  mkSample (JS.get array (3 * k)) (JS.get array (3 * k + 1)) (JS.get array (3 * k + 2)).

(** The number of iterations on an array of length [n]. *)
Definition groups (n : nat) : nat := (n + 2) / 3.

Definition is_num (v : JS.value) : bool :=
  match v with JS.Num _ => true | JS.Undefined => false end.

(** No component of the point was read past the end of its array. *)
Definition sample_defined (p : SamplePoint) : bool :=
  is_num (sx p) && is_num (sy p) && is_num (sz p).

Lemma flatten_from_step (array : list float) (i : nat) (acc : list SamplePoint) :
  flatten_from array i acc
  = if lt_dec i (length array)
    then flatten_from array (i + groupBy)
           (acc ++ [mkSample (JS.get array i) (JS.get array (i + 1)) (JS.get array (i + 2))])
    else acc.
Proof.
  rewrite flatten_from_equation_1 at 1.
  destruct (lt_dec i (length array)); reflexivity.
Qed.

Lemma groups_spec (n j : nat) : 3 * j < n <-> j < groups n.
Proof.
  unfold groups.
  pose proof (Nat.div_mod_eq (n + 2) 3) as E.
  pose proof (Nat.mod_upper_bound (n + 2) 3 ltac:(lia)) as B.
  lia.
Qed.

Lemma groups_mod (n : nat) :
  (n mod 3 = 0 -> n = 3 * groups n)
  /\ (n mod 3 = 1 -> n + 2 = 3 * groups n)
  /\ (n mod 3 = 2 -> n + 1 = 3 * groups n).
Proof.
  unfold groups.
  pose proof (Nat.div_mod_eq (n + 2) 3) as E.
  pose proof (Nat.mod_upper_bound (n + 2) 3 ltac:(lia)) as B.
  pose proof (Nat.div_mod_eq n 3) as E'.
  pose proof (Nat.mod_upper_bound n 3 ltac:(lia)) as B'.
  lia.
Qed.

Lemma flatten_from_samples (array : list float) (k j : nat) (acc : list SamplePoint) :
  groups (length array) - j = k ->
  flatten_from array (3 * j) acc = acc ++ map (sample_at array) (seq j k).
Proof.
  revert j acc. induction k as [|k IH]; intros j acc Hk; rewrite flatten_from_step.
  - destruct (lt_dec (3 * j) (length array)) as [Hlt|_].
    + apply groups_spec in Hlt. lia.
    + cbn. now rewrite app_nil_r.
  - destruct (lt_dec (3 * j) (length array)) as [_|Hge].
    + replace (3 * j + groupBy) with (3 * S j) by (unfold groupBy; lia).
      rewrite IH by lia. cbn [seq map]. rewrite <- app_assoc. reflexivity.
    + exfalso. apply Hge. apply groups_spec. lia.
Qed.

Lemma flatten_from_0 (array : list float) (acc : list SamplePoint) :
  flatten_from array 0 acc
  = acc ++ map (sample_at array) (seq 0 (groups (length array))).
Proof.
  apply (flatten_from_samples array _ 0). lia.
Qed.

Lemma get_num (array : list float) (i : nat) :
  is_num (JS.get array i) = true <-> i < length array.
Proof.
  unfold JS.get. destruct (array !! i) as [x|] eqn:E; cbn.
  - apply lookup_lt_Some in E. tauto.
  - apply lookup_ge_None in E. split; [discriminate | lia].
Qed.

Lemma get_undefined (array : list float) (i : nat) :
  JS.get array i = JS.Undefined <-> length array <= i.
Proof.
  unfold JS.get. destruct (array !! i) as [x|] eqn:E.
  - apply lookup_lt_Some in E. split; [discriminate | lia].
  - apply lookup_ge_None in E. tauto.
Qed.

Lemma sample_at_defined (array : list float) (k : nat) :
  sample_defined (sample_at array k) = true <-> 3 * k + 2 < length array.
Proof.
  unfold sample_defined, sample_at. cbn.
  rewrite !andb_true_iff, !get_num. lia.
Qed.

(** One array: every read is in range exactly when the length is a
    multiple of 3. *)
Lemma flatten_defined_iff (array : list float) :
  Forall (fun p => sample_defined p = true) (flatten_from array 0 [])
  <-> length array mod 3 = 0.
Proof.
  rewrite flatten_from_0. cbn [app].
  pose proof (groups_mod (length array)) as (M0 & M1 & M2).
  pose proof (Nat.mod_upper_bound (length array) 3 ltac:(lia)) as B.
  rewrite List.Forall_forall. split.
  - intros H.
    destruct (Nat.eq_dec (groups (length array)) 0) as [G0|G0].
    + assert (~ 3 * 0 < length array) by (rewrite groups_spec; lia).
      destruct (length array); [reflexivity | lia].
    + assert (In (sample_at array (groups (length array) - 1))
                 (map (sample_at array) (seq 0 (groups (length array))))) as Hin.
      { apply in_map, in_seq. lia. }
      apply H, sample_at_defined in Hin. lia.
  - intros Hm p Hin. apply in_map_iff in Hin as (k & <- & Hk).
    apply in_seq in Hk. apply sample_at_defined. specialize (M0 Hm). lia.
Qed.

Lemma flatten_children_flat_map (cs : list ChildMesh) :
  flatten_children cs
  = flat_map (fun c => flatten_from (position_array c) 0 []) cs.
Proof.
  unfold flatten_children.
  enough (forall acc,
             fold_left (fun t c => flatten_from (position_array c) 0 t) cs acc
             = acc ++ flat_map (fun c => flatten_from (position_array c) 0 []) cs)
    as H by apply (H []).
  induction cs as [|c cs IH]; intros acc; cbn [fold_left flat_map].
  - now rewrite app_nil_r.
  - rewrite IH, (flatten_from_0 _ acc), (flatten_from_0 _ []), app_assoc.
    reflexivity.
Qed.

(** C10.  The flattening loop has stride 3 and a guard on the first index
    only: iteration k reads the positions 3k, 3k+1 and 3k+2, for every k
    with 3k below the length.  A read is past the end exactly at an index
    not below the length, where it yields [undefined].  When the length
    leaves remainder 1 the last iteration reads two elements past the end,
    with remainder 2 one element; no read is past the end, for every child,
    exactly when every child's position array has a length divisible by 3. *)
Theorem C10_flatten_in_range_iff_length_multiple_of_3 :
  (forall array : list float,
      flatten_from array 0 []
      = map (fun k => mkSample (JS.get array (3 * k)) (JS.get array (3 * k + 1))
                               (JS.get array (3 * k + 2)))
            (seq 0 ((length array + 2) / 3)))
  /\ (forall (array : list float) (i : nat),
         JS.get array i = JS.Undefined <-> length array <= i)
  /\ (forall array : list float,
         length array mod 3 = 1 ->
         exists front x,
           flatten_from array 0 []
           = front ++ [mkSample (JS.Num x) JS.Undefined JS.Undefined])
  /\ (forall array : list float,
         length array mod 3 = 2 ->
         exists front x y,
           flatten_from array 0 []
           = front ++ [mkSample (JS.Num x) (JS.Num y) JS.Undefined])
  /\ (forall cs : list ChildMesh,
         Forall (fun p => sample_defined p = true) (flatten_children cs)
         <-> Forall (fun c => length (position_array c) mod 3 = 0) cs).
Proof.
  split; [|split; [|split; [|split]]].
  - intros array. apply (flatten_from_0 array []).
  - apply get_undefined.
  - intros array Hm. rewrite flatten_from_0. cbn [app].
    pose proof (groups_mod (length array)) as (_ & M1 & _). specialize (M1 Hm).
    destruct (groups (length array)) as [|g] eqn:G; [lia|].
    rewrite seq_S, map_app. cbn [map Nat.add].
    destruct (array !! (3 * g)) as [x|] eqn:E;
      [|apply lookup_ge_None in E; lia].
    exists (map (sample_at array) (seq 0 g)), x. f_equal.
    unfold sample_at. f_equal. f_equal.
    + unfold JS.get. now rewrite E.
    + apply get_undefined. lia.
    + apply get_undefined. lia.
  - intros array Hm. rewrite flatten_from_0. cbn [app].
    pose proof (groups_mod (length array)) as (_ & _ & M2). specialize (M2 Hm).
    destruct (groups (length array)) as [|g] eqn:G; [lia|].
    rewrite seq_S, map_app. cbn [map Nat.add].
    destruct (array !! (3 * g)) as [x|] eqn:E;
      [|apply lookup_ge_None in E; lia].
    destruct (array !! (3 * g + 1)) as [y|] eqn:E';
      [|apply lookup_ge_None in E'; lia].
    exists (map (sample_at array) (seq 0 g)), x, y. f_equal.
    unfold sample_at. f_equal. f_equal.
    + unfold JS.get. now rewrite E.
    + unfold JS.get. now rewrite E'.
    + apply get_undefined. lia.
  - intros cs. rewrite flatten_children_flat_map.
    induction cs as [|c cs IH]; cbn [flat_map].
    + split; constructor.
    + rewrite Forall_app, Forall_cons, IH, flatten_defined_iff. reflexivity.
Qed.

(** ** The instance loop *)

(** The numbers of instance [i] in a buffer with [k] numbers per instance. *)
Definition slice (k i : nat) (buffer : list float) : list float :=
  take k (drop (k * i) buffer).

(** A sample point scaled by 0.01, as pushed onto [offsets]. *)
Definition scaled (p : SamplePoint) : list float :=
  [JS.mul (sx p) 0.01; JS.mul (sy p) 0.01; JS.mul (sz p) 0.01].

Definition half : Vector4 := mkVector4 0.5 0.5 0.5 0.5.

Lemma normalize_half (vector : Vector4) :
  Vec4.normalize (Vec4.set vector 0.5 0.5 0.5 0.5) = half.
Proof. reflexivity. Qed.

Lemma half_is_unit : Vec4.length half = 1%float.
Proof. reflexivity. Qed.

Lemma length_flat_map_fixed {A} (f : A -> list float) (k : nat) (xs : list A) :
  (forall x, In x xs -> length (f x) = k) ->
  length (flat_map f xs) = k * length xs.
Proof.
  induction xs as [|x xs IH]; intros H; cbn [flat_map length].
  - lia.
  - rewrite length_app, (H x), IH; [lia | | cbn; auto].
    intros y Hy. apply H. cbn. auto.
Qed.

Lemma slice_flat_map_seq (f : nat -> list float) (k n i : nat) :
  (forall j, j < n -> length (f j) = k) ->
  i < n ->
  slice k i (flat_map f (seq 0 n)) = f i.
Proof.
  intros Hf Hi. unfold slice.
  replace n with (i + S (n - S i)) by lia.
  rewrite seq_app, flat_map_app. cbn [seq flat_map Nat.add].
  rewrite drop_app_length', take_app_length'; auto.
  - symmetry. apply Hf. lia.
  - rewrite (length_flat_map_fixed f k), length_seq; [reflexivity|].
    intros j Hj. apply in_seq in Hj. apply Hf. lia.
Qed.

Section Loops.

Variable P : Platform.

Local Abbreviation rnd := (Math_random_stream P).

(** *** Reference-model variant *)

Definition reference_offsets (pool : list SamplePoint) (i : nat) : list float :=
  match pool !! i with
  | Some p => scaled p
  | None => []
  end.

(** The four colour channels of instance [i] when the loop starts after
    [r] calls of the generator. *)
Definition reference_colors (r i : nat) : list float :=
  [rnd (4 * i + r); rnd (4 * i + r + 1); rnd (4 * i + r + 2); rnd (4 * i + r + 3)].

(** A call of the generator followed by the rest of the computation. *)
Lemma Math_random_bind {B} (k : float -> M B) (s : App) :
  bind (Math_random P) k s
  = k (rnd (randoms s)) (with_randoms s (S (randoms s))).
Proof. unfold bind, Math_random. apply prepend_nil. Qed.

Lemma random_signed_bind {B} (k : float -> M B) (s : App) :
  bind (random_signed P) k s
  = k (rnd (randoms s) * 2 - 1)%float (with_randoms s (S (randoms s))).
Proof.
  unfold random_signed. unfold bind at 1. rewrite Math_random_bind.
  unfold ret. apply prepend_nil.
Qed.

Lemma with_randoms_twice (s : App) (a b : nat) :
  with_randoms (with_randoms s a) b = with_randoms s b.
Proof. reflexivity. Qed.

(** Run the calls of the generator at the head of the goal. *)
Ltac draw :=
  repeat (rewrite ?Math_random_bind, ?random_signed_bind, ?with_randoms_twice;
          cbn beta; cbn [randoms with_randoms]).

Lemma instance_reference_run pool i vector a s p r :
  pool !! i = Some p ->
  randoms s = 4 * i + r ->
  instance_reference P pool i (vector, a) s
  = mkRun (Ok (half,
               mkAttrs (offsets a ++ reference_offsets pool i)
                       (colors a ++ reference_colors r i)
                       (orientationsStart a ++ components half)
                       (orientationsEnd a ++ components half)))
          (with_randoms s (4 * S i + r)) [].
Proof.
  intros Hp Hr. unfold instance_reference, reference_offsets, reference_colors.
  rewrite Hp. draw. rewrite Hr, !normalize_half. unfold ret, with_randoms.
  repeat f_equal; lia.
Qed.

Lemma instance_reference_throws pool i st s :
  pool !! i = None ->
  instance_reference P pool i st s
  = mkRun (Throw (JS.TypeError "Cannot read property 'x' of undefined")) s [].
Proof.
  intros Hp. destruct st as [vector a]. unfold instance_reference.
  now rewrite Hp.
Qed.

(** The loop over the instances [i, i + n), all inside the pool. *)
Lemma reference_loop_ok pool n : forall i vector a s r,
  i + n <= length pool ->
  randoms s = 4 * i + r ->
  exists vector',
    for_range n i (instance_reference P pool) (vector, a) s
    = mkRun (Ok (vector',
                 mkAttrs
                   (offsets a ++ flat_map (reference_offsets pool) (seq i n))
                   (colors a ++ flat_map (reference_colors r) (seq i n))
                   (orientationsStart a ++ flat_map (fun _ => components half) (seq i n))
                   (orientationsEnd a ++ flat_map (fun _ => components half) (seq i n))))
            (with_randoms s (4 * (i + n) + r)) [].
Proof.
  induction n as [|n IH]; intros i vector a s r Hn Hr.
  - exists vector. cbn [for_range seq flat_map]. rewrite !app_nil_r.
    unfold ret. f_equal.
    + destruct a; reflexivity.
    + destruct s; cbn in *. unfold with_randoms; cbn. f_equal. lia.
  - destruct (lookup_lt_is_Some_2 pool i ltac:(lia)) as [p Hp].
    cbn [for_range].
    rewrite (bind_run _ _ _ _ _ _ (instance_reference_run pool i vector a s p r Hp Hr)),
      prepend_nil.
    destruct (IH (S i) half
                 (mkAttrs (offsets a ++ reference_offsets pool i)
                          (colors a ++ reference_colors r i)
                          (orientationsStart a ++ components half)
                          (orientationsEnd a ++ components half))
                 (with_randoms s (4 * S i + r)) r ltac:(lia) eq_refl)
      as [vector' E].
    exists vector'. rewrite E.
    cbn [seq flat_map offsets colors orientationsStart orientationsEnd].
    rewrite <- !app_assoc, with_randoms_twice. do 2 f_equal. lia.
Qed.

(** The loop fails at the first index past the pool. *)
Lemma reference_loop_throws pool n : forall i vector a s r,
  i <= length pool ->
  length pool < i + n ->
  randoms s = 4 * i + r ->
  for_range n i (instance_reference P pool) (vector, a) s
  = mkRun (Throw (JS.TypeError "Cannot read property 'x' of undefined"))
          (with_randoms s (4 * length pool + r)) [].
Proof.
  induction n as [|n IH]; intros i vector a s r Hi Hn Hr; [lia|].
  cbn [for_range].
  destruct (pool !! i) as [p|] eqn:Hp.
  - rewrite (bind_run _ _ _ _ _ _ (instance_reference_run pool i vector a s p r Hp Hr)),
      prepend_nil.
    apply lookup_lt_Some in Hp.
    rewrite (IH (S i) _ _ _ r) by (cbn [randoms with_randoms]; lia).
    now rewrite with_randoms_twice.
  - rewrite (bind_run _ _ _ _ _ _ (instance_reference_throws pool i (vector, a) s Hp)).
    apply lookup_ge_None in Hp. f_equal.
    destruct s; cbn in *. unfold with_randoms; cbn. f_equal. lia.
Qed.

(** *** Triangle variant *)

(** [Math.random() * 2 - 1] at the k-th call. *)
Definition signed (k : nat) : float := (rnd k * 2 - 1)%float.

Definition triangle_offsets (r i : nat) : list float :=
  [rnd (15 * i + r) - 0.5; rnd (15 * i + r + 1) - 0.5; rnd (15 * i + r + 2) - 0.5]%float.

Definition triangle_colors (r i : nat) : list float :=
  [rnd (15 * i + r + 3); rnd (15 * i + r + 4); rnd (15 * i + r + 5);
   rnd (15 * i + r + 6)].

Definition triangle_start (r i : nat) : Vector4 :=
  Vec4.normalize
    (mkVector4 (signed (15 * i + r + 7)) (signed (15 * i + r + 8))
               (signed (15 * i + r + 9)) (signed (15 * i + r + 10))).

Definition triangle_end (r i : nat) : Vector4 :=
  Vec4.normalize
    (mkVector4 (signed (15 * i + r + 11)) (signed (15 * i + r + 12))
               (signed (15 * i + r + 13)) (signed (15 * i + r + 14))).

Lemma instance_triangle_run i vector a s r :
  randoms s = 15 * i + r ->
  instance_triangle P i (vector, a) s
  = mkRun (Ok (triangle_end r i,
               mkAttrs (offsets a ++ triangle_offsets r i)
                       (colors a ++ triangle_colors r i)
                       (orientationsStart a ++ components (triangle_start r i))
                       (orientationsEnd a ++ components (triangle_end r i))))
          (with_randoms s (15 * S i + r)) [].
Proof.
  intros Hr. unfold instance_triangle. draw. rewrite Hr.
  unfold ret, triangle_offsets, triangle_colors, triangle_start, triangle_end,
    signed, Vec4.set, with_randoms.
  repeat f_equal; lia.
Qed.

Lemma triangle_loop_ok n : forall i vector a s r,
  randoms s = 15 * i + r ->
  exists vector',
    for_range n i (instance_triangle P) (vector, a) s
    = mkRun (Ok (vector',
                 mkAttrs
                   (offsets a ++ flat_map (triangle_offsets r) (seq i n))
                   (colors a ++ flat_map (triangle_colors r) (seq i n))
                   (orientationsStart a
                      ++ flat_map (fun j => components (triangle_start r j)) (seq i n))
                   (orientationsEnd a
                      ++ flat_map (fun j => components (triangle_end r j)) (seq i n))))
            (with_randoms s (15 * (i + n) + r)) [].
Proof.
  induction n as [|n IH]; intros i vector a s r Hr.
  - exists vector. cbn [for_range seq flat_map]. rewrite !app_nil_r.
    unfold ret. f_equal.
    + destruct a; reflexivity.
    + destruct s; cbn in *. unfold with_randoms; cbn. f_equal. lia.
  - cbn [for_range].
    rewrite (bind_run _ _ _ _ _ _ (instance_triangle_run i vector a s r Hr)),
      prepend_nil.
    destruct (IH (S i) (triangle_end r i)
                 (mkAttrs (offsets a ++ triangle_offsets r i)
                          (colors a ++ triangle_colors r i)
                          (orientationsStart a ++ components (triangle_start r i))
                          (orientationsEnd a ++ components (triangle_end r i)))
                 (with_randoms s (15 * S i + r)) r eq_refl)
      as [vector' E].
    exists vector'. rewrite E.
    cbn [seq flat_map offsets colors orientationsStart orientationsEnd].
    rewrite <- !app_assoc, with_randoms_twice. do 2 f_equal. lia.
Qed.

(** *** Both variants: what the loop returns *)

(** The arrays after [n] instances, the generator having been called
    [r] times before. *)
Definition loop_attrs (v : Variant) (pool : list SamplePoint) (r n : nat) : Attrs :=
  match v with
  | ReferenceModel =>
      mkAttrs (flat_map (reference_offsets pool) (seq 0 n))
              (flat_map (reference_colors r) (seq 0 n))
              (flat_map (fun _ => components half) (seq 0 n))
              (flat_map (fun _ => components half) (seq 0 n))
  | Triangle =>
      mkAttrs (flat_map (triangle_offsets r) (seq 0 n))
              (flat_map (triangle_colors r) (seq 0 n))
              (flat_map (fun j => components (triangle_start r j)) (seq 0 n))
              (flat_map (fun j => components (triangle_end r j)) (seq 0 n))
  end.

Definition calls_per_instance (v : Variant) : nat :=
  match v with ReferenceModel => 4 | Triangle => 15 end.

(** The loop completes when the pool is large enough (reference-model
    variant) and always (triangle variant). *)
Lemma instance_loop_ok v n pool s :
  (v = ReferenceModel -> n <= length pool) ->
  exists vector,
    instance_loop P v n pool s
    = mkRun (Ok (vector, loop_attrs v pool (randoms s) n))
            (with_randoms s (calls_per_instance v * n + randoms s)) [].
Proof.
  intros Hn. destruct v; unfold instance_loop, loop_attrs, calls_per_instance.
  - destruct (reference_loop_ok pool n 0 Vec4.new no_attrs s (randoms s)
                ltac:(specialize (Hn eq_refl); lia) ltac:(lia)) as [vec E].
    exists vec. rewrite E. reflexivity.
  - destruct (triangle_loop_ok n 0 Vec4.new no_attrs s (randoms s) ltac:(lia))
      as [vec E].
    exists vec. rewrite E. reflexivity.
Qed.

(** With too small a pool the loop of the reference-model variant throws,
    at the first instance past the pool. *)
Lemma instance_loop_throws n pool s :
  length pool < n ->
  instance_loop P ReferenceModel n pool s
  = mkRun (Throw (JS.TypeError "Cannot read property 'x' of undefined"))
          (with_randoms s (4 * length pool + randoms s)) [].
Proof.
  intros Hn. unfold instance_loop.
  apply reference_loop_throws; lia.
Qed.

End Loops.

(** ** Framing: what a handler leaves alone

    For a reflexive and transitive relation [R] between the state before
    and the state after, a computation [respects R] when every run of it,
    completed or thrown, ends in a state related to the one it started in. *)

Definition respects (R : App -> App -> Prop) {A} (m : M A) : Prop :=
  forall s, R s (state (m s)).

Section Framing.

Variable R : App -> App -> Prop.
Hypothesis R_refl : forall s, R s s.
Hypothesis R_trans : forall s1 s2 s3, R s1 s2 -> R s2 s3 -> R s1 s3.

Lemma respects_ret {A} (a : A) : respects R (ret a).
Proof. intros s. apply R_refl. Qed.

Lemma respects_throw {A} (e : JS.error) : respects R (@throw A e).
Proof. intros s. apply R_refl. Qed.

Lemma respects_emit (e : Effect) : respects R (emit e).
Proof. intros s. apply R_refl. Qed.

Lemma respects_get : respects R get.
Proof. intros s. apply R_refl. Qed.

Lemma respects_modify (f : App -> App) :
  (forall s, R s (f s)) -> respects R (modify f).
Proof. intros H s. apply H. Qed.

Lemma respects_bind {A B} (m : M A) (k : A -> M B) :
  respects R m -> (forall a, respects R (k a)) -> respects R (bind m k).
Proof.
  intros Hm Hk s. unfold bind. specialize (Hm s).
  destruct (m s) as [[a|e] s' tr]; cbn [state] in *.
  - rewrite state_prepend. eapply R_trans; [exact Hm | apply Hk].
  - exact Hm.
Qed.

Lemma respects_catch {A} (m : M A) (h : JS.error -> M A) :
  respects R m -> (forall e, respects R (h e)) -> respects R (catch m h).
Proof.
  intros Hm Hh s. unfold catch. specialize (Hm s).
  destruct (m s) as [[a|e] s' tr]; cbn [state] in *.
  - exact Hm.
  - rewrite state_prepend. eapply R_trans; [exact Hm | apply Hh].
Qed.

Lemma respects_when (b : bool) (m : M unit) :
  respects R m -> respects R (when b m).
Proof. intros Hm. destruct b; [exact Hm | apply respects_ret]. Qed.

Lemma respects_forEach {A} (xs : list A) (f : A -> M unit) :
  (forall x, respects R (f x)) -> respects R (forEach xs f).
Proof.
  intros Hf. induction xs as [|x xs IH]; cbn [forEach].
  - apply respects_ret.
  - apply respects_bind; auto.
Qed.

Lemma respects_for_range {St} (n : nat) (body : nat -> St -> M St) :
  (forall i st, respects R (body i st)) ->
  forall i st, respects R (for_range n i body st).
Proof.
  intros Hb. induction n as [|n IH]; intros i st; cbn [for_range].
  - apply respects_ret.
  - apply respects_bind; auto.
Qed.

End Framing.

(** The children present keep their kind, geometry included, and their
    place; children may be added after them. *)
Definition keeps_children (s s' : App) : Prop :=
  map kind (scene s) `prefix_of` map kind (scene s').

Lemma keeps_children_refl (s : App) : keeps_children s s.
Proof. unfold keeps_children. reflexivity. Qed.

Lemma keeps_children_trans (s1 s2 s3 : App) :
  keeps_children s1 s2 -> keeps_children s2 s3 -> keeps_children s1 s3.
Proof. unfold keeps_children. intros H1 H2. etransitivity; eassumption. Qed.

Lemma keeps_children_same_scene (s s' : App) :
  scene s' = scene s -> keeps_children s s'.
Proof. unfold keeps_children. intros ->. reflexivity. Qed.

Lemma keeps_children_add (s : App) (o : Object3D) :
  keeps_children s (with_scene s (scene s ++ [o])).
Proof.
  unfold keeps_children. cbn. rewrite map_app. apply prefix_app_r. reflexivity.
Qed.

Lemma keeps_children_insert (s : App) (i : nat) (o o' : Object3D) :
  scene s !! i = Some o ->
  kind o' = kind o ->
  keeps_children s (with_scene s (<[i := o']> (scene s))).
Proof.
  unfold keeps_children. intros Hi Hk. cbn.
  change (map kind ?l) with (kind <$> l).
  rewrite list_fmap_insert, Hk, list_insert_id; [reflexivity|].
  rewrite list_lookup_fmap, Hi. reflexivity.
Qed.

(** One step of a framing proof for [keeps_children]: split the
    computation along its combinators and case distinctions. *)
Ltac frame_step :=
  match goal with
  | |- respects _ (bind _ _) =>
      apply (respects_bind _ keeps_children_trans); [|intros ?]
  | |- respects _ (catch _ _) =>
      apply (respects_catch _ keeps_children_trans); [|intros ?]
  | |- respects _ (ret _) => apply (respects_ret _ keeps_children_refl)
  | |- respects _ (throw _) => apply (respects_throw _ keeps_children_refl)
  | |- respects _ (emit _) => apply (respects_emit _ keeps_children_refl)
  | |- respects _ get => apply (respects_get _ keeps_children_refl)
  | |- respects _ (when _ _) => apply (respects_when _ keeps_children_refl)
  | |- respects _ (forEach _ _) =>
      apply (respects_forEach _ keeps_children_refl keeps_children_trans); intros ?
  | |- respects _ (for_range _ _ _ _) =>
      apply (respects_for_range _ keeps_children_refl keeps_children_trans);
      intros ? ?
  | |- respects _ (modify _) =>
      apply respects_modify; intros ?;
      first [ apply keeps_children_same_scene; reflexivity
            | apply keeps_children_add ]
  | |- respects _ (match ?x with _ => _ end) => destruct x
  | |- respects _ (if ?b then _ else _) => destruct b
  | |- respects _ (let '(_, _) := ?x in _) => destruct x
  end.

Ltac frame := repeat frame_step; eauto.

Section KeepsChildren.

Variable P : Platform.

Lemma Math_random_keeps : respects keeps_children (Math_random P).
Proof. intros s. apply keeps_children_same_scene. reflexivity. Qed.

Lemma scene_add_keeps (o : Object3D) : respects keeps_children (scene_add o).
Proof. unfold scene_add. frame. Qed.

Lemma sphere_positions_keeps box fs : forall positions,
  respects keeps_children (sphere_positions box fs positions).
Proof.
  induction fs as [|face fs IH]; intros positions; cbn [sphere_positions].
  - frame.
  - unfold vertex_at. frame.
Qed.

Hint Resolve Math_random_keeps scene_add_keeps sphere_positions_keeps : core.

Lemma instance_loop_keeps v n pool :
  respects keeps_children (instance_loop P v n pool).
Proof.
  unfold instance_loop, instance_reference, instance_triangle, random_signed.
  frame.
Qed.

Hint Resolve instance_loop_keeps : core.

Lemma objectInit_with_keeps v n :
  respects keeps_children (objectInit_with P v n).
Proof.
  unfold objectInit_with, add_particles, textContent. frame.
Qed.

Hint Resolve objectInit_with_keeps : core.

Lemma animate_keeps time : respects keeps_children (animate P time).
Proof.
  intros s. unfold animate, bind, get, throw, modify.
  cbn [outcome state effects].
  destruct (scene s !! 3) as [o|] eqn:E; cbn [outcome state effects].
  - assert (keeps_children s
              (with_scene s
                 (<[3 := mkObject (kind o) (time * 0.0005)%float (material o)]>
                    (scene s)))) as K1
      by (eapply keeps_children_insert; [exact E | reflexivity]).
    destruct (material o) as [[|u vs fs t]|]; cbn [outcome state effects material];
      try exact K1.
    eapply keeps_children_trans; [exact K1|].
    apply (keeps_children_insert _ 3
             (mkObject (kind o) (time * 0.0005)%float
                       (Some (RawShaderMaterial u vs fs t))));
      [|reflexivity].
    cbn [scene with_scene]. apply list_lookup_insert_eq.
    apply lookup_lt_Some in E. exact E.
  - apply keeps_children_refl.
Qed.

Hint Resolve animate_keeps : core.

Lemma update_keeps v now : respects keeps_children (update P v now).
Proof.
  unfold update, render_views, render. frame.
Qed.

Lemma handle_keeps v ev : respects keeps_children (handle P v ev).
Proof.
  destruct ev; cbn [handle]; try apply update_keeps;
    unfold onResize, onAssetsLoaded, onAssetsError, onObjLoaded, loadObj, objectInit,
      onManagerProgress, onProgress;
    frame.
Qed.

Lemma play_keeps v evs : forall s, keeps_children s (fst (play P v evs s)).
Proof.
  induction evs as [|ev evs IH]; intros s; cbn [play].
  - apply keeps_children_refl.
  - specialize (IH (state (handle P v ev s))).
    destruct (play P v evs (state (handle P v ev s))) as [s' tr]. cbn [fst] in *.
    eapply keeps_children_trans; [apply handle_keeps | exact IH].
Qed.

End KeepsChildren.

(** ** The particle-field builder *)

Section Builder.

Variable P : Platform.

Local Abbreviation rnd := (Math_random_stream P).

Local Ltac fails_at_vertex :=
  exists (Throw (JS.TypeError "Cannot read property 'x' of undefined"));
  split; [intros ?; reflexivity | left; reflexivity].

(** Building the shared positions neither reads nor writes the state; it
    fails only on a face that names a missing vertex. *)
Lemma sphere_positions_pure box fs : forall positions,
  exists o,
    (forall s, sphere_positions box fs positions s = mkRun o s [])
    /\ (o = Throw (JS.TypeError "Cannot read property 'x' of undefined")
        \/ exists result, o = Ok result).
Proof.
  induction fs as [|face fs IH]; intros positions; cbn [sphere_positions].
  - exists (Ok positions). split; [reflexivity | right; eauto].
  - unfold vertex_at.
    destruct (vertices box !! face_a face) as [a|]; [|now fails_at_vertex].
    destruct (vertices box !! face_b face) as [b|]; [|now fails_at_vertex].
    destruct (vertices box !! face_c face) as [c|]; [|now fails_at_vertex].
    destruct (IH (((positions ++ [v3x a; v3y a; v3z a])
                     ++ [v3x b; v3y b; v3z b]) ++ [v3x c; v3y c; v3z c]))
      as (o & Ho & Hcase).
    exists o. split; [|exact Hcase].
    intros s. unfold bind, ret. cbn [prepend app].
    rewrite Ho. destruct o; reflexivity.
Qed.

(** The pool the builder of the reference-model variant samples. *)
Definition pool_of (s : App) : list SamplePoint :=
  match targetObject s with
  | Some object => flatten_children (children object)
  | None => []
  end.

(** The particle mesh [objectInit] adds. *)
Definition particles (v : Variant) (n : nat) (positions : list float) (a : Attrs)
           (vs fs : string) : Object3D :=
  new_object
    (ParticleMesh (make_geometry n positions a))
    (Some (RawShaderMaterial (mkUniforms 1 1) vs fs
             match v with ReferenceModel => false | Triangle => true end)).

Definition shared_positions (v : Variant) : Outcome (list float) :=
  match v with
  | ReferenceModel =>
      let box := SphereGeometry P 0.01 8 1 in
      outcome (sphere_positions box (faces box) []
                 (boot 0 0 false))
  | Triangle => Ok triangle_positions
  end.

(** A completed build: the mesh is appended to the scene, its attribute
    buffers are the [Float32Array]s of the arrays the loop returns. *)
Lemma objectInit_with_run v n s positions vs fs :
  shared_positions v = Ok positions ->
  vertexShader_text P = Some vs ->
  fragmentShader_text P = Some fs ->
  (v = ReferenceModel -> targetObject s <> None /\ n <= length (pool_of s)) ->
  exists s',
    objectInit_with P v n s
    = mkRun (Ok tt) s'
            match v with ReferenceModel => [] | Triangle => [ConsoleLog "scene"] end
    /\ scene s'
       = scene s
           ++ [particles v n positions (loop_attrs P v (pool_of s) (randoms s) n) vs fs].
Proof.
  intros Hpos Hvs Hfs Hv. destruct v; unfold objectInit_with.
  - destruct (Hv eq_refl) as [Ht Hn]. unfold pool_of in *.
    destruct (targetObject s) as [object|] eqn:Et; [|congruence].
    unfold shared_positions in Hpos.
    destruct (sphere_positions_pure
                (SphereGeometry P 0.01 8 1)
                (faces (SphereGeometry P 0.01 8 1)) []) as (o & Ho & _).
    rewrite Ho in Hpos. cbn [outcome] in Hpos. subst o.
    rewrite (bind_run _ _ _ _ _ _ (Ho s)), prepend_nil.
    rewrite (bind_run _ _ _ _ _ _ (eq_refl : get s = mkRun (Ok s) s [])), prepend_nil.
    rewrite Et.
    rewrite (bind_run _ _ _ _ _ _ (eq_refl : modify _ s = mkRun (Ok tt) _ [])),
      prepend_nil.
    destruct (instance_loop_ok P ReferenceModel n
                (flatten_children (children object))
                (with_targetObject s
                   (Some (mkGroup (map set_wireframe (children object)) (scale object))))
                (fun _ => Hn)) as [vec E].
    rewrite (bind_run _ _ _ _ _ _ E), prepend_nil. cbn [snd].
    unfold add_particles, textContent. rewrite Hvs, Hfs.
    eexists. split; reflexivity.
  - unfold shared_positions in Hpos. injection Hpos as <-.
    destruct (instance_loop_ok P Triangle n [] s ltac:(discriminate)) as [vec E].
    rewrite (bind_run _ _ _ _ _ _ E), prepend_nil. cbn [snd].
    unfold add_particles, textContent. rewrite Hvs, Hfs.
    eexists. split; reflexivity.
Qed.

(** With too small a pool the build of the reference-model variant
    throws and leaves the scene as it was. *)
Lemma objectInit_with_throws n s object :
  targetObject s = Some object ->
  length (pool_of s) < n ->
  exists s',
    objectInit_with P ReferenceModel n s
    = mkRun (Throw (JS.TypeError "Cannot read property 'x' of undefined")) s' []
    /\ scene s' = scene s.
Proof.
  intros Et Hn. unfold pool_of in Hn. rewrite Et in Hn. unfold objectInit_with.
  destruct (sphere_positions_pure
              (SphereGeometry P 0.01 8 1)
              (faces (SphereGeometry P 0.01 8 1)) []) as (o & Ho & Hcase).
  rewrite (bind_run _ _ _ _ _ _ (Ho s)).
  destruct Hcase as [-> | [positions ->]]; [eexists; split; reflexivity|].
  rewrite prepend_nil.
  rewrite (bind_run _ _ _ _ _ _ (eq_refl : get s = mkRun (Ok s) s [])), prepend_nil.
  rewrite Et.
  rewrite (bind_run _ _ _ _ _ _ (eq_refl : modify _ s = mkRun (Ok tt) _ [])),
    prepend_nil.
  rewrite (bind_run _ _ _ _ _ _
             (instance_loop_throws P n (flatten_children (children object)) _ Hn)).
  eexists. split; reflexivity.
Qed.

End Builder.

(** A state of the reference-model variant in which the model has been
    loaded: window 800 x 600, the sample model as [this.targetObject]. *)
Definition loaded_state : App :=
  with_targetObject (boot 800 600 false) (Some sample_model).

Example sample_pool :
  pool_of loaded_state
  = [mkSample (JS.Num 1) (JS.Num 2) (JS.Num 3);
     mkSample (JS.Num 4) (JS.Num 5) (JS.Num 6)].
Proof. reflexivity. Qed.

(** C2.  When the builder of the reference-model variant is invoked with
    more instances than the pool has sample points, reading the pool at its
    size yields [undefined], the property access on it throws a
    [TypeError] in the iteration i = pool size, the build stops there, and
    no mesh is added to the scene. *)
Theorem C2_builder_throws_past_the_pool
        (P : Platform) (n : nat) (s : App) (object : Group) :
  targetObject s = Some object ->
  length (pool_of s) < n ->
  pool_of s !! length (pool_of s) = None
  /\ instance_loop P ReferenceModel n (pool_of s) s
     = mkRun (Throw (JS.TypeError "Cannot read property 'x' of undefined"))
             (with_randoms s (4 * length (pool_of s) + randoms s)) []
  /\ outcome (objectInit_with P ReferenceModel n s)
     = Throw (JS.TypeError "Cannot read property 'x' of undefined")
  /\ scene (state (objectInit_with P ReferenceModel n s)) = scene s
  /\ effects (objectInit_with P ReferenceModel n s) = [].
Proof.
  intros Et Hn. split; [apply lookup_ge_None_2; lia|].
  split; [apply instance_loop_throws; exact Hn|].
  destruct (objectInit_with_throws P n s object Et Hn) as (s' & -> & Hscene).
  cbn [outcome state effects]. repeat split; [exact Hscene].
Qed.

Lemma C2_builder_throws_past_the_pool_witness :
  targetObject loaded_state = Some sample_model
  /\ length (pool_of loaded_state) < 3
  /\ outcome (objectInit_with sample_platform ReferenceModel 3 loaded_state)
     = Throw (JS.TypeError "Cannot read property 'x' of undefined").
Proof.
  split; [reflexivity|]. split; [vm_compute; lia|].
  apply (C2_builder_throws_past_the_pool sample_platform 3 loaded_state sample_model).
  - reflexivity.
  - vm_compute. lia.
Defined.

(** ** Colours and offsets of the instances *)

Lemma slice_Float32Array (k i : nat) (buffer : list float) :
  slice k i (JS.Float32Array buffer) = map JS.fround (slice k i buffer).
Proof.
  unfold slice, JS.Float32Array.
  change (map JS.fround ?l) with (JS.fround <$> l).
  now rewrite fmap_take, fmap_drop.
Qed.

(** Storing into a [Float32Array] rounds: a number just below 1 is stored
    as 1, and 0.01 as its nearest binary32 neighbour.  The buffers of the
    mesh therefore hold the numbers the loop pushed after [Math.fround]. *)
Example fround_rounds :
  JS.in_unit 0.99999999999 = true
  /\ JS.fround 0.99999999999 = 1%float
  /\ PrimFloat.eqb (JS.fround 0.01) 0.01 = false
  /\ JS.fround 0.5 = 0.5%float.
Proof. repeat split; reflexivity. Qed.

(** The statement under examination, for a run of the instance loop: every
    colour channel is in [0, 1) and the offset is the i-th point of the
    pool times 0.01. *)
Definition offsets_sampled_from_pool
           (P : Platform) (v : Variant) (n : nat) (pool : list SamplePoint) (s : App)
  : Prop :=
  forall vector a,
    outcome (instance_loop P v n pool s) = Ok (vector, a) ->
    forall i, i < n ->
      Forall (fun c => JS.in_unit c = true) (slice 4 i (colors a))
      /\ exists p, pool !! i = Some p /\ slice 3 i (offsets a) = scaled p.

(** Two lists of numbers differ when their heads are on different sides
    of zero. *)
Lemma heads_differ (x y : float) (l l' : list float) :
  PrimFloat.ltb x 0 = true -> PrimFloat.ltb y 0 = false -> x :: l <> y :: l'.
Proof.
  intros Hx Hy E. injection E as -> _. congruence.
Qed.

(** C1, as stated, fails on the triangle variant, which never samples a
    model: with a generator that returns 0.25 its first instance has the
    offset (-0.25, -0.25, -0.25), whatever the pool; shown for the pool of
    the sample model, whose first point scaled is (0.01, 0.02, 0.03), and
    for the empty pool the variant actually has. *)
Lemma C1_counterexample_triangle_offsets_are_random :
  ~ offsets_sampled_from_pool sample_platform Triangle 1
      (pool_of loaded_state) loaded_state
  /\ ~ offsets_sampled_from_pool sample_platform Triangle 1
         [] (boot 800 600 false).
Proof.
  split; intros H.
  - destruct (H _ _ eq_refl 0 ltac:(lia)) as [_ (p & Hp & Hs)].
    vm_compute in Hp. injection Hp as <-.
    vm_compute in Hs. revert Hs. apply heads_differ; reflexivity.
  - destruct (H _ _ eq_refl 0 ltac:(lia)) as [_ (p & Hp & _)].
    discriminate Hp.
Qed.


(** ** Orientations of the instances *)

(** The statement under examination, for a run of the instance loop: both
    orientations of every instance are (0.5, 0.5, 0.5, 0.5). *)
Definition orientations_constant
           (P : Platform) (v : Variant) (n : nat) (pool : list SamplePoint) (s : App)
  : Prop :=
  forall vector a,
    outcome (instance_loop P v n pool s) = Ok (vector, a) ->
    forall i, i < n ->
      slice 4 i (orientationsStart a) = components half
      /\ slice 4 i (orientationsEnd a) = components half.

(** C8, as stated, fails on the triangle variant, whose orientations are
    normalised random vectors: with a generator that returns 0.25 every
    component before normalisation is 0.25 * 2 - 1 = -0.5, and the start
    orientation of the first instance is (-0.5, -0.5, -0.5, -0.5). *)
Lemma C8_counterexample_triangle_orientations_are_random :
  ~ orientations_constant sample_platform Triangle 1 [] (boot 800 600 false).
Proof.
  intros H.
  destruct (H _ _ eq_refl 0 ltac:(lia)) as [Hs _].
  vm_compute in Hs. symmetry in Hs. revert Hs.
  apply not_eq_sym, heads_differ; reflexivity.
Qed.

(** A child that is in the scene stays at its index with its kind, which
    for the particle mesh includes the geometry and its buffers. *)
Lemma play_keeps_kind (P : Platform) (v : Variant) (evs : list Event) (s : App)
      (j : nat) (o : Object3D) :
  scene s !! j = Some o ->
  exists o', scene (fst (play P v evs s)) !! j = Some o' /\ kind o' = kind o.
Proof.
  intros Hj. pose proof (play_keeps P v evs s) as K. unfold keeps_children in K.
  assert (map kind (scene s) !! j = Some (kind o)) as Hk.
  { change (map kind ?l) with (kind <$> l). now rewrite list_lookup_fmap, Hj. }
  eapply prefix_lookup_Some in Hk; [|exact K].
  change (map kind ?l) with (kind <$> l) in Hk.
  apply list_lookup_fmap_Some in Hk as (o' & Ho' & Hk').
  exists o'. split; [exact Hk' | now symmetry].
Qed.


(** ** Frames *)

Section Frames.

Variable P : Platform.

(** The four renderer commands of one pass. *)
Definition pass (camera : CameraName) (l b w h : float) (s : App) : list Effect :=
  [SetViewport (l * innerWidth s) (b * innerHeight s)
               (w * innerWidth s) (h * innerHeight s);
   SetScissor (l * innerWidth s) (b * innerHeight s)
              (w * innerWidth s) (h * innerHeight s);
   SetClearColor clear_color;
   Render camera]%float.

(** The passes of a frame that reaches the render stage. *)
Definition frame_passes (s : App) : list Effect :=
  if debugCamera s
  then pass Dev 0 0 1 1 s ++ pass Main 0 0.75 0.25 0.25 s
  else pass Main 0 0 1 1 s.

Definition stats_begin : list Effect :=
  if DEV_STATS P then [StatsBegin] else [].

Definition stats_end : list Effect :=
  if DEV_STATS P then [RenderStatsUpdate; StatsEnd] else [].

Definition orbited (s : App) : App :=
  with_cameras s (controls_update P (cam_dev s)) (controls_update P (cam_main s)).

Lemma render_passes_app (t1 t2 : list Effect) :
  render_passes (t1 ++ t2) = render_passes t1 + render_passes t2.
Proof. unfold render_passes. now rewrite filter_app, length_app. Qed.

Lemma render_passes_stats : render_passes stats_begin = 0 /\ render_passes stats_end = 0.
Proof. unfold stats_begin, stats_end. destruct (DEV_STATS P); split; reflexivity. Qed.

Lemma render_passes_frame (s : App) :
  render_passes (frame_passes s) = if debugCamera s then 2 else 1.
Proof. unfold frame_passes. destruct (debugCamera s); reflexivity. Qed.

Lemma render_views_run (s : App) :
  render_views s = mkRun (Ok tt) s (frame_passes s).
Proof.
  unfold render_views, frame_passes.
  rewrite (bind_run _ _ _ _ _ _ (eq_refl : get s = mkRun (Ok s) s [])), prepend_nil.
  destruct (debugCamera s); [|apply render_run].
  rewrite (bind_run _ _ _ _ _ _ (render_run Dev 0 0 1 1 s)), render_run.
  reflexivity.
Qed.

Lemma stats_end_run (s : App) :
  when (DEV_STATS P) (bind (emit RenderStatsUpdate) (fun _ => emit StatsEnd)) s
  = mkRun (Ok tt) s stats_end.
Proof. unfold when, stats_end. destruct (DEV_STATS P); reflexivity. Qed.

(** The render stage of a frame: the passes, then the statistics. *)
Lemma render_stage_run (s : App) :
  bind render_views
       (fun _ => when (DEV_STATS P)
                   (bind (emit RenderStatsUpdate) (fun _ => emit StatsEnd))) s
  = mkRun (Ok tt) s (frame_passes s ++ stats_end).
Proof.
  rewrite (bind_run _ _ _ _ _ _ (render_views_run s)), stats_end_run. reflexivity.
Qed.

(** The start of a frame, up to the animation block. *)
Lemma update_run (v : Variant) (now : float) (s : App) :
  update P v now s
  = prepend ([RequestAnimationFrame] ++ stats_begin)
      (bind match v with
            | ReferenceModel => ret tt
            | Triangle => animate P now
            end
            (fun _ =>
               bind render_views
                    (fun _ => when (DEV_STATS P)
                                (bind (emit RenderStatsUpdate) (fun _ => emit StatsEnd))))
            (orbited s)).
Proof.
  unfold update, stats_begin, orbited.
  rewrite (bind_run _ _ _ _ _ _
             (eq_refl : emit RequestAnimationFrame s
                        = mkRun (Ok tt) s [RequestAnimationFrame])).
  assert (when (DEV_STATS P) (emit StatsBegin) s
          = mkRun (Ok tt) s (if DEV_STATS P then [StatsBegin] else [])) as E
      by (unfold when; destruct (DEV_STATS P); reflexivity).
  rewrite (bind_run _ _ _ _ _ _ E).
  rewrite (bind_run _ _ _ _ _ _ (eq_refl : modify _ s = mkRun (Ok tt) _ [])),
    prepend_nil.
  rewrite (bind_run _ _ _ _ _ _ (eq_refl : modify _ _ = mkRun (Ok tt) _ [])),
    prepend_nil.
  cbn [cam_dev cam_main with_cameras].
  match goal with
  | |- prepend _ (prepend _ ?r) = prepend _ ?r' =>
      change r' with r; destruct r as [o s' tr]
  end.
  cbn [prepend]. now rewrite app_assoc.
Qed.

(** A frame of the reference-model variant always completes. *)
Lemma update_reference_run (now : float) (s : App) :
  update P ReferenceModel now s
  = mkRun (Ok tt) (orbited s)
          ([RequestAnimationFrame] ++ stats_begin ++ frame_passes s ++ stats_end).
Proof.
  rewrite update_run.
  rewrite (bind_run _ _ _ _ _ _ (eq_refl : ret tt (orbited s) = mkRun (Ok tt) _ [])),
    prepend_nil, render_stage_run.
  cbn [prepend]. now rewrite <- app_assoc.
Qed.

(** The animation block fails on a scene without a fourth child, and on a
    fourth child without shader uniforms. *)
Definition animated (time : float) (o : Object3D) : Outcome Object3D :=
  match material o with
  | Some (RawShaderMaterial u vs fs t) =>
      Ok (mkObject (kind o) (time * 0.0005)%float
            (Some (RawShaderMaterial
                     (mkUniforms (time * 0.005)
                                 (Math_sin P (time * 0.005 * 0.05)))%float
                     vs fs t)))
  | Some LineBasicMaterial =>
      Throw (JS.TypeError "Cannot read property 'time' of undefined")
  | None => Throw (JS.TypeError "Cannot read property 'uniforms' of undefined")
  end.

Lemma animate_run (time : float) (s : App) :
  animate P time s
  = match scene s !! 3 with
    | None =>
        mkRun (Throw (JS.TypeError "Cannot read property 'rotation' of undefined"))
              s []
    | Some o =>
        match animated time o with
        | Ok o' => mkRun (Ok tt) (with_scene s (<[3 := o']> (scene s))) []
        | Throw e =>
            mkRun (Throw e)
                  (with_scene s
                     (<[3 := mkObject (kind o) (time * 0.0005)%float (material o)]>
                        (scene s))) []
        end
    end.
Proof.
  unfold animate, animated.
  rewrite (bind_run _ _ _ _ _ _ (eq_refl : get s = mkRun (Ok s) s [])), prepend_nil.
  destruct (scene s !! 3) as [o|]; [|reflexivity].
  rewrite (bind_run _ _ _ _ _ _ (eq_refl : modify _ s = mkRun (Ok tt) _ [])),
    prepend_nil.
  cbn [material].
  destruct (material o) as [[|u vs fs t]|]; try reflexivity.
  unfold modify, with_scene. cbn. now rewrite list_insert_insert_eq.
Qed.

(** A frame of the triangle variant: it reaches the render stage exactly
    when the animation block completes. *)
Lemma update_triangle_run (now : float) (s : App) :
  update P Triangle now s
  = let r := animate P now (orbited s) in
    match outcome r with
    | Ok _ =>
        mkRun (Ok tt) (state r)
              ([RequestAnimationFrame] ++ stats_begin ++ frame_passes s ++ stats_end)
    | Throw e => mkRun (Throw e) (state r) ([RequestAnimationFrame] ++ stats_begin)
    end.
Proof.
  rewrite update_run. cbn zeta.
  destruct (animate P now (orbited s)) as [o s' tr] eqn:E.
  assert (tr = [] /\ innerWidth s' = innerWidth s /\ innerHeight s' = innerHeight s
          /\ debugCamera s' = debugCamera s) as (-> & Hw & Hh & Hd).
  { rewrite animate_run in E.
    destruct (scene (orbited s) !! 3) as [o3|];
      [destruct (animated now o3)|]; injection E as <- <- <-;
      repeat split; reflexivity. }
  rewrite (bind_run _ _ _ _ _ _ E). cbn [outcome state].
  destruct o as [[]|e].
  - rewrite prepend_nil, render_stage_run. cbn [prepend].
    unfold frame_passes, pass. rewrite Hw, Hh, Hd, <- app_assoc. reflexivity.
  - cbn [prepend]. now rewrite app_nil_r.
Qed.

End Frames.

(** ** Startup *)

Section Startup.

Variable P : Platform.

Lemma forEach_scene_add {A} (f : A -> Object3D) (xs : list A) : forall s,
  forEach xs (fun x => scene_add (f x)) s
  = mkRun (Ok tt) (with_scene s (scene s ++ map f xs)) [].
Proof.
  induction xs as [|x xs IH]; intros s; cbn [forEach map].
  - rewrite app_nil_r. destruct s; reflexivity.
  - rewrite (bind_run _ _ _ _ _ _
               (eq_refl : scene_add (f x) s = mkRun (Ok tt) _ [])), prepend_nil.
    rewrite IH. unfold with_scene. cbn. now rewrite <- app_assoc.
Qed.

Definition setup_effects : list Effect :=
  [AppendChild "renderer.domElement"]
  ++ (if DEV_STATS P
      then [AppendChild "renderStats.domElement"; AppendChild "stats.domElement"]
      else [])
  ++ [AddResizeListener; AssetLoad].

(** The state in which the constructor runs its frame. *)
Definition set_up (s : App) : App :=
  with_manifest (with_scene s (scene s ++ startup_children P)) (Some Pending).

Lemma helpers_run (s : App) :
  when (DEV_HELPERS P)
       (bind (scene_add (new_object (GridHelper 10 10) (Some LineBasicMaterial)))
             (fun _ => scene_add (new_object AxisHelper (Some LineBasicMaterial)))) s
  = mkRun (Ok tt)
          (with_scene s
             (scene s
                ++ (if DEV_HELPERS P
                    then [new_object (GridHelper 10 10) (Some LineBasicMaterial);
                          new_object AxisHelper (Some LineBasicMaterial)]
                    else []))) [].
Proof.
  unfold when. destruct (DEV_HELPERS P).
  - unfold bind, scene_add, modify, with_scene. cbn. now rewrite <- app_assoc.
  - unfold ret. rewrite app_nil_r. destruct s; reflexivity.
Qed.

Lemma stats_overlay_run (s : App) :
  when (DEV_STATS P)
       (bind (emit (AppendChild "renderStats.domElement"))
             (fun _ => emit (AppendChild "stats.domElement"))) s
  = mkRun (Ok tt) s
          (if DEV_STATS P
           then [AppendChild "renderStats.domElement"; AppendChild "stats.domElement"]
           else []).
Proof. unfold when. destruct (DEV_STATS P); reflexivity. Qed.

Lemma constructor_run (v : Variant) (now : float) (s : App) :
  constructor P v now s = prepend setup_effects (update P v now (set_up s)).
Proof.
  unfold constructor, set_up, setup_effects, startup_children.
  rewrite (bind_run _ _ _ _ _ _
             (eq_refl : emit (AppendChild "renderer.domElement") s
                        = mkRun (Ok tt) s [AppendChild "renderer.domElement"])).
  rewrite (bind_run _ _ _ _ _ _ (helpers_run s)), prepend_nil.
  rewrite (bind_run _ _ _ _ _ _ (forEach_scene_add _ _ _)), prepend_nil.
  rewrite (bind_run _ _ _ _ _ _ (stats_overlay_run _)).
  rewrite (bind_run _ _ _ _ _ _
             (eq_refl : emit AddResizeListener _ = mkRun (Ok tt) _ [AddResizeListener])).
  rewrite (bind_run _ _ _ _ _ _
             (eq_refl : emit AssetLoad _ = mkRun (Ok tt) _ [AssetLoad])).
  rewrite (bind_run _ _ _ _ _ _ (eq_refl : modify _ _ = mkRun (Ok tt) _ [])),
    prepend_nil.
  cbn [scene with_scene]. rewrite <- app_assoc.
  match goal with
  | |- prepend _ (prepend _ (prepend _ (prepend _ ?r))) = prepend _ ?r' =>
      change r' with r; destruct r as [o s' tr]
  end.
  cbn [prepend app]. f_equal. now rewrite <- !app_assoc.
Qed.

(** No child the constructor adds has shader uniforms. *)
Lemma startup_children_not_animated (time : float) (i : nat) (o : Object3D) :
  startup_children P !! i = Some o ->
  exists e, animated P time o = Throw e.
Proof.
  unfold startup_children. intros H.
  apply list_elem_of_lookup_2, elem_of_app in H as [H|H].
  - destruct (DEV_HELPERS P); [|inversion H].
    apply elem_of_cons in H as [->|H]; [eexists; reflexivity|].
    apply elem_of_cons in H as [->|H]; [eexists; reflexivity|]. inversion H.
  - change (map ?f ?l) with (f <$> l) in H.
    apply list_elem_of_fmap in H as (l & -> & _). eexists; reflexivity.
Qed.

Lemma insert_keeps_kinds (l : list Object3D) (i : nat) (o o' : Object3D) :
  l !! i = Some o -> kind o' = kind o ->
  map kind (<[i := o']> l) = map kind l.
Proof.
  intros Hi Hk. change (map kind ?l) with (kind <$> l).
  rewrite list_fmap_insert, Hk. apply list_insert_id.
  now rewrite list_lookup_fmap, Hi.
Qed.

End Startup.

(** ** The triangle variant before its mesh exists *)

Definition frames (nows : list float) : list Event := map Frame nows.

Section TriangleFrames.

Variable P : Platform.

Lemma triangle_frame_short_scene (now : float) (s : App) :
  length (scene s) < 4 ->
  update P Triangle now s
  = mkRun (Throw (JS.TypeError "Cannot read property 'rotation' of undefined"))
          (orbited P s) ([RequestAnimationFrame] ++ stats_begin P).
Proof.
  intros Hlen. rewrite update_triangle_run, animate_run.
  assert (scene (orbited P s) !! 3 = None) as ->
      by (apply lookup_ge_None_2; cbn; lia).
  reflexivity.
Qed.

Lemma no_pass_before_render :
  render_passes ([RequestAnimationFrame] ++ stats_begin P) = 0.
Proof. unfold stats_begin. destruct (DEV_STATS P); reflexivity. Qed.

Lemma triangle_frames_short_scene (nows : list float) : forall s,
  length (scene s) < 4 ->
  scene (fst (play P Triangle (frames nows) s)) = scene s
  /\ render_passes (snd (play P Triangle (frames nows) s)) = 0.
Proof.
  induction nows as [|now nows IH]; intros s Hlen; cbn [frames map play].
  - split; reflexivity.
  - cbn [handle]. rewrite (triangle_frame_short_scene now s Hlen).
    cbn [state effects].
    destruct (IH (orbited P s) Hlen) as [IH1 IH2]. fold (frames nows).
    destruct (play P Triangle (frames nows) (orbited P s)) as [s' tr].
    cbn [fst snd] in *. split; [exact IH1|].
    rewrite render_passes_app, no_pass_before_render, IH2. reflexivity.
Qed.

(** The frame the constructor runs never reaches the render stage: the
    scene then holds helpers and lights only, and none of them has shader
    uniforms. *)
Lemma triangle_first_frame_throws (w h now : float) (debug : bool) :
  (exists e, outcome (started P Triangle w h debug now) = Throw e)
  /\ render_passes (effects (started P Triangle w h debug now)) = 0.
Proof.
  unfold started. rewrite constructor_run, outcome_prepend, effects_prepend.
  rewrite update_triangle_run, animate_run. cbn zeta.
  assert (render_passes (setup_effects P) = 0) as Hsetup
      by (unfold setup_effects; destruct (DEV_STATS P); reflexivity).
  change (scene (orbited P (set_up P (boot w h debug))))
    with (startup_children P).
  destruct (startup_children P !! 3) as [o|] eqn:E.
  - destruct (startup_children_not_animated P now 3 o E) as [e He].
    rewrite He. cbn [outcome state effects]. split; [eauto|].
    now rewrite render_passes_app, Hsetup, no_pass_before_render.
  - cbn [outcome state effects]. split; [eauto|].
    now rewrite render_passes_app, Hsetup, no_pass_before_render.
Qed.

End TriangleFrames.


(** ** Render passes per frame *)

(** Every frame of the reference-model variant issues one pass with the
    flag off (main camera, full viewport) and two with the flag on (debug
    camera full viewport, then main camera in (0, 0.75, 0.25, 0.25)). *)
Lemma reference_frame_passes (P : Platform) (now : float) (s : App) :
  outcome (update P ReferenceModel now s) = Ok tt
  /\ render_passes (effects (update P ReferenceModel now s))
     = (if debugCamera s then 2 else 1)
  /\ filter (fun e => is_render e = true) (effects (update P ReferenceModel now s))
     = (if debugCamera s then [Render Dev; Render Main] else [Render Main])
  /\ exists before after,
       effects (update P ReferenceModel now s) = before ++ frame_passes s ++ after
       /\ render_passes before = 0 /\ render_passes after = 0.
Proof.
  rewrite update_reference_run. cbn [outcome effects].
  destruct (render_passes_stats P) as [Hb He].
  split; [reflexivity|]. split; [|split].
  - rewrite !render_passes_app, Hb, He, render_passes_frame.
    destruct (debugCamera s); reflexivity.
  - unfold stats_begin, stats_end, frame_passes.
    destruct (DEV_STATS P), (debugCamera s); reflexivity.
  - exists ([RequestAnimationFrame] ++ stats_begin P), (stats_end P).
    rewrite <- !app_assoc. split; [reflexivity|].
    split; [apply no_pass_before_render | exact He].
Qed.

(** So does a frame of the triangle variant whose fourth child has shader
    uniforms. *)
Lemma triangle_frame_passes (P : Platform) (now : float) (s : App) (o o' : Object3D) :
  scene s !! 3 = Some o ->
  animated P now o = Ok o' ->
  outcome (update P Triangle now s) = Ok tt
  /\ render_passes (effects (update P Triangle now s))
     = (if debugCamera s then 2 else 1).
Proof.
  intros Ho Ha. rewrite update_triangle_run, animate_run. cbn zeta.
  change (scene (orbited P s)) with (scene s). rewrite Ho, Ha.
  cbn [outcome state effects]. split; [reflexivity|].
  destruct (render_passes_stats P) as [Hb He].
  rewrite !render_passes_app, Hb, He, render_passes_frame.
  destruct (debugCamera s); reflexivity.
Qed.

(** Toggling the flag between two frames of the reference-model variant
    changes the passes per frame from 1 to 2 and back. *)
Lemma reference_toggle_passes (P : Platform) (t1 t2 t3 : float) (s : App) :
  debugCamera s = false ->
  let r1 := update P ReferenceModel t1 s in
  let s2 := state (handle P ReferenceModel (DebugCamera true) (state r1)) in
  let r2 := update P ReferenceModel t2 s2 in
  let s3 := state (handle P ReferenceModel (DebugCamera false) (state r2)) in
  let r3 := update P ReferenceModel t3 s3 in
  (render_passes (effects r1), render_passes (effects r2), render_passes (effects r3))
  = (1, 2, 1).
Proof.
  intros Hd. cbn zeta.
  rewrite !(proj1 (proj2 (reference_frame_passes P _ _))).
  rewrite Hd. reflexivity.
Qed.

(** C3.  A frame is to issue exactly one render pass with [debugCamera]
    off and exactly two with it on.  Every frame of the reference-model
    variant does; the triangle variant does not: the frame its constructor
    runs, with the flag off or on, throws in the animation block and issues
    no render pass at all, on the sample platform and on every other. *)
Theorem C3_triangle_first_frame_issues_no_render_pass :
  (debugCamera (boot 800 600 false) = false
   /\ outcome (started sample_platform Triangle 800 600 false 0)
      = Throw (JS.TypeError "Cannot read property 'rotation' of undefined")
   /\ render_passes (effects (started sample_platform Triangle 800 600 false 0)) = 0
   /\ render_passes (effects (started sample_platform Triangle 800 600 true 0)) = 0)
  /\ (forall (P : Platform) (w h now : float) (debug : bool),
         (exists e, outcome (started P Triangle w h debug now) = Throw e)
         /\ render_passes (effects (started P Triangle w h debug now)) = 0)
  /\ (forall (P : Platform) (now : float) (s : App),
         outcome (update P ReferenceModel now s) = Ok tt
         /\ render_passes (effects (update P ReferenceModel now s))
            = if debugCamera s then 2 else 1).
Proof.
  split; [|split].
  - repeat split; reflexivity.
  - intros P w h now debug. apply triangle_first_frame_throws.
  - intros P now s. destruct (reference_frame_passes P now s) as (H1 & H2 & _).
    split; assumption.
Qed.

(** ** Rejection of the asset manifest *)

Definition load_requests (tr : list Effect) : list Effect :=
  filter (fun e => is_load e = true) tr.

Section Rejection.

Variable P : Platform.
Variable v : Variant.

(** Nothing has been loaded: no model, no OBJ load in flight, the
    manifest promise created, and in the scene the startup children
    only. *)
Definition unloaded (s : App) : Prop :=
  objPending s = false
  /\ targetObject s = None
  /\ (manifest s = Some Pending \/ manifest s = Some Settled)
  /\ map kind (scene s) = map kind (startup_children P)
  /\ (v = ReferenceModel -> scene s = startup_children P).

Lemma load_requests_app (t1 t2 : list Effect) :
  load_requests (t1 ++ t2) = load_requests t1 ++ load_requests t2.
Proof. unfold load_requests. apply filter_app. Qed.

(** What a frame leaves alone, whether it completes or throws. *)
Lemma update_frame (now : float) (s : App) :
  let r := update P v now s in
  objPending (state r) = objPending s
  /\ targetObject (state r) = targetObject s
  /\ manifest (state r) = manifest s
  /\ map kind (scene (state r)) = map kind (scene s)
  /\ (v = ReferenceModel -> scene (state r) = scene s)
  /\ load_requests (effects r) = [].
Proof.
  cbn zeta. destruct v.
  - rewrite update_reference_run. cbn [state effects].
    repeat split; try reflexivity.
    unfold stats_begin, stats_end, frame_passes.
    destruct (DEV_STATS P), (debugCamera s); reflexivity.
  - rewrite update_triangle_run, animate_run. cbn zeta.
    change (scene (orbited P s)) with (scene s).
    assert (load_requests ([RequestAnimationFrame] ++ stats_begin P) = []) as L1
        by (unfold stats_begin; destruct (DEV_STATS P); reflexivity).
    assert (load_requests ([RequestAnimationFrame] ++ stats_begin P
                             ++ frame_passes s ++ stats_end P) = []) as L2
        by (unfold stats_begin, stats_end, frame_passes;
            destruct (DEV_STATS P), (debugCamera s); reflexivity).
    destruct (scene s !! 3) as [o|] eqn:E.
    + destruct (animated P now o) as [o'|e] eqn:A; cbn [outcome state effects].
      * repeat split; try reflexivity; try discriminate; try exact L2.
        cbn [scene with_scene]. eapply insert_keeps_kinds; [exact E|].
        unfold animated in A. destruct (material o) as [[|u vs fs t]|];
          try discriminate. injection A as <-. reflexivity.
      * repeat split; try reflexivity; try discriminate; try exact L1.
        cbn [scene with_scene]. eapply insert_keeps_kinds; [exact E|]. reflexivity.
    + cbn [outcome state effects].
      repeat split; try reflexivity; try discriminate; exact L1.
Qed.

Lemma started_unloaded (w h now : float) (debug : bool) :
  unloaded (state (started P v w h debug now))
  /\ load_requests (effects (started P v w h debug now)) = [AssetLoad].
Proof.
  unfold started. rewrite constructor_run, state_prepend, effects_prepend.
  destruct (update_frame now (set_up P (boot w h debug)))
    as (H1 & H2 & H3 & H4 & H5 & H6).
  split.
  - unfold unloaded. rewrite H1, H2, H3, H4.
    repeat split; try reflexivity; [left; reflexivity|].
    intros Hv. now rewrite (H5 Hv).
  - rewrite load_requests_app, H6, app_nil_r. unfold setup_effects.
    destruct (DEV_STATS P); reflexivity.
Qed.

Lemma settle_skipped (ev : Event) (s : App) :
  manifest s = Some Settled ->
  ev = AssetsLoaded \/ (exists why, ev = AssetsRejected why) ->
  handle P v ev s = mkRun (Ok tt) s [].
Proof.
  intros Hs [->|[why ->]]; cbn [handle];
    rewrite (bind_run _ _ _ _ _ _ (eq_refl : get s = mkRun (Ok s) s [])),
      prepend_nil, Hs; reflexivity.
Qed.

Lemma rejection_run (why : string) (s : App) :
  manifest s = Some Pending ->
  handle P v (AssetsRejected why) s
  = mkRun (Ok tt) (with_manifest s (Some Settled)) [ConsoleWarn (JS.Reason why)].
Proof.
  intros Hs. cbn [handle].
  rewrite (bind_run _ _ _ _ _ _ (eq_refl : get s = mkRun (Ok s) s [])),
    prepend_nil, Hs.
  reflexivity.
Qed.

Lemma loader_skipped (ev : Event) (s : App) :
  objPending s = false ->
  (exists object, ev = ObjLoaded object) \/ ev = ObjFailed ->
  handle P v ev s = mkRun (Ok tt) s [].
Proof.
  intros Hs [[object ->]| ->]; cbn [handle];
    rewrite (bind_run _ _ _ _ _ _ (eq_refl : get s = mkRun (Ok s) s [])),
      prepend_nil, Hs; reflexivity.
Qed.

(** An event other than the fulfilment of a pending manifest keeps the
    state unloaded and requests no load. *)
Lemma handle_unloaded (ev : Event) (s : App) :
  unloaded s ->
  ev <> AssetsLoaded \/ manifest s = Some Settled ->
  let r := handle P v ev s in
  unloaded (state r)
  /\ load_requests (effects r) = []
  /\ (manifest s = Some Settled -> manifest (state r) = Some Settled)
  /\ (forall why, ev = AssetsRejected why -> manifest (state r) = Some Settled).
Proof.
  intros Hun Hev. pose proof Hun as (Hobj & Htgt & Hman & Hkinds & Hscene).
  cbn zeta. destruct ev as [now|w h| |why|object| |val|item l t|lc l t|w' h'].
  10: { rewrite window_resized_run. cbn [state effects].
        split; [exact Hun | split; [reflexivity | split; [auto | discriminate]]]. }
  8: { rewrite manager_progress_run. cbn [state effects].
       split; [exact Hun|]. split; [destruct (objRequested s); reflexivity|].
       split; [auto | discriminate]. }
  8: { rewrite xhr_progress_run. cbn [state effects].
       split; [exact Hun|].
       split; [destruct (objPending s && lc)%bool; reflexivity|].
       split; [auto | discriminate]. }
  - cbn [handle].
    destruct (update_frame now s) as (H1 & H2 & H3 & H4 & H5 & H6).
    split; [|split; [exact H6 | split; [intros Hs; now rewrite H3 | discriminate]]].
    unfold unloaded. rewrite H1, H2, H3, H4.
    repeat split; try assumption. intros Hv. rewrite (H5 Hv). auto.
  - rewrite resize_run. cbn [state effects].
    split; [|split; [reflexivity | split; [intros Hs; exact Hs | discriminate]]].
    exact Hun.
  - destruct Hev as [Hev|Hset]; [congruence|].
    rewrite (settle_skipped AssetsLoaded s Hset) by (left; reflexivity).
    cbn [state effects].
    split; [exact Hun | split; [reflexivity | split; [auto | discriminate]]].
  - destruct Hman as [Hpen|Hset].
    + rewrite (rejection_run why s Hpen). cbn [state effects].
      split; [|split; [reflexivity | split; [reflexivity | reflexivity]]].
      unfold unloaded. cbn [objPending targetObject manifest scene with_manifest].
      repeat split; auto.
    + rewrite (settle_skipped (AssetsRejected why) s Hset) by (right; eauto).
      cbn [state effects].
      split; [exact Hun | split; [reflexivity | split; [auto | auto]]].
  - rewrite (loader_skipped (ObjLoaded object) s Hobj) by (left; eauto).
    cbn [state effects].
    split; [exact Hun | split; [reflexivity | split; [auto | discriminate]]].
  - rewrite (loader_skipped ObjFailed s Hobj) by (right; reflexivity).
    cbn [state effects].
    split; [exact Hun | split; [reflexivity | split; [auto | discriminate]]].
  - change (handle P v (DebugCamera val) s)
      with (mkRun (Ok tt) (with_debugCamera s val) [SetQuery "cameraDebug" val]).
    cbn [state effects].
    split; [exact Hun | split; [reflexivity | split; [auto | discriminate]]].
Qed.

Lemma play_unloaded (evs : list Event) : forall s,
  unloaded s ->
  Forall (fun ev => ev <> AssetsLoaded) evs \/ manifest s = Some Settled ->
  unloaded (fst (play P v evs s))
  /\ load_requests (snd (play P v evs s)) = []
  /\ (manifest s = Some Settled -> manifest (fst (play P v evs s)) = Some Settled).
Proof.
  induction evs as [|ev evs IH]; intros s Hs Hevs; cbn [play].
  - cbn [fst snd]. split; [exact Hs | split; [reflexivity | auto]].
  - assert (ev <> AssetsLoaded \/ manifest s = Some Settled) as Hev.
    { destruct Hevs as [Hall|Hset]; [left | right; exact Hset].
      now apply Forall_cons in Hall as [Hall _]. }
    destruct (handle_unloaded ev s Hs Hev) as (H1 & H2 & H3 & _).
    assert (Forall (fun ev => ev <> AssetsLoaded) evs
            \/ manifest (state (handle P v ev s)) = Some Settled) as Hevs'.
    { destruct Hevs as [Hall|Hset]; [left | right; auto].
      now apply Forall_cons in Hall as [_ Hall]. }
    destruct (IH (state (handle P v ev s)) H1 Hevs') as (I1 & I2 & I3).
    destruct (play P v evs (state (handle P v ev s))) as [s' tr].
    cbn [fst snd] in *. rewrite load_requests_app, H2, I2.
    split; [exact I1 | split; [reflexivity | auto]].
Qed.

End Rejection.

(** C4.  The error handler only logs a warning.  When the manifest load
    rejects without having been fulfilled before, then whatever events
    precede and follow the rejection, the scene afterwards holds exactly
    the helpers and lights added at startup, no reference model has been
    set, and no load is requested after the one the constructor made. *)
Theorem C4_manifest_rejection_only_warns
        (P : Platform) (v : Variant) (w h now : float) (debug : bool)
        (evs1 evs2 : list Event) (why : string) :
  Forall (fun ev => ev <> AssetsLoaded) evs1 ->
  let s0 := state (started P v w h debug now) in
  let final := play P v (evs1 ++ AssetsRejected why :: evs2) s0 in
  (forall e s, onAssetsError e s = mkRun (Ok tt) s [ConsoleWarn e])
  /\ (forall s, manifest s = Some Pending ->
                handle P v (AssetsRejected why) s
                = mkRun (Ok tt) (with_manifest s (Some Settled))
                        [ConsoleWarn (JS.Reason why)])
  /\ map kind (scene (fst final))
     = (if DEV_HELPERS P then [GridHelper 10 10; AxisHelper] else [])
         ++ map Light (lights P)
  /\ (v = ReferenceModel -> scene (fst final) = startup_children P)
  /\ targetObject (fst final) = None
  /\ manifest (fst final) = Some Settled
  /\ load_requests (effects (started P v w h debug now)) = [AssetLoad]
  /\ load_requests (snd final) = [].
Proof.
  intros Hevs1. cbn zeta.
  split; [reflexivity|].
  split; [intros s Hs; apply rejection_run; exact Hs|].
  destruct (started_unloaded P v w h now debug) as [Hun Hload].
  rewrite play_app. cbn [fst snd].
  destruct (play_unloaded P v evs1 _ Hun (or_introl Hevs1)) as (U1 & L1 & _).
  set (s1 := fst (play P v evs1 (state (started P v w h debug now)))) in *.
  cbn [play].
  destruct (handle_unloaded P v (AssetsRejected why) s1 U1 ltac:(left; discriminate))
    as (U2 & L2 & _ & S2).
  specialize (S2 why eq_refl).
  set (s2 := state (handle P v (AssetsRejected why) s1)) in *.
  destruct (play_unloaded P v evs2 s2 U2 (or_intror S2)) as (U3 & L3 & S3).
  destruct (play P v evs2 s2) as [s3 tr3]. cbn [fst snd] in *.
  destruct U3 as (_ & Htgt & _ & Hkinds & Hscene).
  split.
  { rewrite Hkinds. unfold startup_children. rewrite map_app, map_map.
    destruct (DEV_HELPERS P); reflexivity. }
  repeat split; auto.
  rewrite !load_requests_app, L1, L2, L3. reflexivity.
Qed.

Lemma C4_manifest_rejection_only_warns_witness :
  Forall (fun ev => ev <> AssetsLoaded) [Frame 16; Resize 1024 768]
  /\ map kind
       (scene
          (fst (play sample_platform ReferenceModel
                     ([Frame 16; Resize 1024 768]
                        ++ AssetsRejected "not found"
                        :: [Frame 32; AssetsLoaded; ObjLoaded sample_model])
                     (state (started sample_platform ReferenceModel 800 600 false 0)))))
     = [GridHelper 10 10; AxisHelper; Light "ambient"].
Proof.
  assert (Forall (fun ev => ev <> AssetsLoaded) [Frame 16; Resize 1024 768]) as H
    by (repeat constructor; discriminate).
  split; [exact H|].
  apply (C4_manifest_rejection_only_warns sample_platform ReferenceModel 800 600 0 false
           [Frame 16; Resize 1024 768] [Frame 32; AssetsLoaded; ObjLoaded sample_model]
           "not found" H).
Defined.


(** * Further properties of the builder, the loaders and the frame loop *)

(** ** The offset pool, continued *)

(** The position array of a list of vertices, as a loader lays it out. *)
Definition position_array_of (vertices : list Vector3) : list float :=
  flat_map (fun p => [v3x p; v3y p; v3z p]) vertices.

Definition sample_of (p : Vector3) : SamplePoint :=
  mkSample (JS.Num (v3x p)) (JS.Num (v3y p)) (JS.Num (v3z p)).

Lemma sample_at_cons3 (a b c : float) (rest : list float) (k : nat) :
  sample_at (a :: b :: c :: rest) (S k) = sample_at rest k.
Proof.
  unfold sample_at, JS.get.
  replace (3 * S k) with (S (S (S (3 * k)))) by lia.
  reflexivity.
Qed.

Lemma groups_add3 (n : nat) : groups (S (S (S n))) = S (groups n).
Proof.
  unfold groups. replace (S (S (S n)) + 2) with (1 * 3 + (n + 2)) by lia.
  rewrite Nat.div_add_l by lia. reflexivity.
Qed.

Lemma flatten_cons3 (a b c : float) (rest : list float) :
  flatten_from (a :: b :: c :: rest) 0 []
  = mkSample (JS.Num a) (JS.Num b) (JS.Num c) :: flatten_from rest 0 [].
Proof.
  rewrite !flatten_from_0. cbn [app length]. rewrite groups_add3.
  cbn [seq map]. f_equal. rewrite <- seq_shift, map_map.
  apply map_ext. intros k. apply sample_at_cons3.
Qed.

(** Flattening undoes the layout: the pool of a position array made of
    whole vertices is the list of these vertices, in order, every
    component a number. *)
Theorem flatten_position_array_round_trip (vertices : list Vector3) :
  flatten_from (position_array_of vertices) 0 [] = map sample_of vertices.
Proof.
  induction vertices as [|p ps IH]; [reflexivity|].
  cbn [position_array_of flat_map app map]. rewrite flatten_cons3.
  fold (position_array_of ps). rewrite IH. reflexivity.
Qed.

(** The pool of a model is the concatenation of the pools of its meshes;
    a mesh with a position array of length n contributes ceil(n / 3)
    points. *)
Theorem flatten_children_concatenates (cs1 cs2 : list ChildMesh) :
  flatten_children (cs1 ++ cs2) = flatten_children cs1 ++ flatten_children cs2
  /\ length (flatten_children cs1)
     = list_sum (map (fun c => (length (position_array c) + 2) / 3) cs1)
  /\ (forall c, flatten_children [c] = flatten_from (position_array c) 0 [])
  /\ flatten_children [] = [].
Proof.
  rewrite !flatten_children_flat_map, flat_map_app.
  split; [reflexivity|]. split; [|split; [|reflexivity]].
  - induction cs1 as [|c cs IH]; [reflexivity|].
    cbn [flat_map map list_sum]. rewrite length_app, IH, flatten_from_0.
    cbn [app]. now rewrite length_map, length_seq.
  - intros c. rewrite flatten_children_flat_map. cbn. now rewrite app_nil_r.
Qed.

(** ** The shared triangle list *)

(** The three corners of a face are vertices of the geometry. *)
Definition face_valid (box : Geometry) (face : Face3) : Prop :=
  face_a face < length (vertices box)
  /\ face_b face < length (vertices box)
  /\ face_c face < length (vertices box).

Definition coordinates (box : Geometry) (i : nat) : list float :=
  match vertices box !! i with
  | Some p => [v3x p; v3y p; v3z p]
  | None => []
  end.

(** The nine numbers a face contributes. *)
Definition face_positions (box : Geometry) (face : Face3) : list float :=
  coordinates box (face_a face) ++ coordinates box (face_b face)
    ++ coordinates box (face_c face).

Lemma vertex_at_run (box : Geometry) (i : nat) (s : App) :
  vertex_at box i s
  = mkRun match vertices box !! i with
          | Some p => Ok p
          | None => Throw (JS.TypeError "Cannot read property 'x' of undefined")
          end s [].
Proof. unfold vertex_at. destruct (vertices box !! i); reflexivity. Qed.

Lemma sphere_positions_step (box : Geometry) (face : Face3) (fs : list Face3)
      (positions : list float) (s : App) :
  sphere_positions box (face :: fs) positions s
  = match vertices box !! face_a face, vertices box !! face_b face,
          vertices box !! face_c face with
    | Some _, Some _, Some _ =>
        sphere_positions box fs (positions ++ face_positions box face) s
    | _, _, _ =>
        mkRun (Throw (JS.TypeError "Cannot read property 'x' of undefined")) s []
    end.
Proof.
  cbn [sphere_positions]. unfold face_positions, coordinates.
  rewrite (bind_run _ _ _ _ _ _ (vertex_at_run box (face_a face) s)).
  destruct (vertices box !! face_a face) as [a|]; [|reflexivity].
  rewrite prepend_nil, (bind_run _ _ _ _ _ _ (vertex_at_run box (face_b face) s)).
  destruct (vertices box !! face_b face) as [b|]; [|reflexivity].
  rewrite prepend_nil, (bind_run _ _ _ _ _ _ (vertex_at_run box (face_c face) s)).
  destruct (vertices box !! face_c face) as [c|]; [|reflexivity].
  rewrite prepend_nil, <- !app_assoc. reflexivity.
Qed.

Lemma sphere_positions_run
        (box : Geometry) (fs : list Face3) (positions : list float) (s : App) :
  (Forall (face_valid box) fs ->
   sphere_positions box fs positions s
   = mkRun (Ok (positions ++ flat_map (face_positions box) fs)) s []
   /\ length (flat_map (face_positions box) fs) = 9 * length fs)
  /\ (~ Forall (face_valid box) fs ->
      sphere_positions box fs positions s
      = mkRun (Throw (JS.TypeError "Cannot read property 'x' of undefined")) s []).
Proof.
  revert positions. induction fs as [|face fs IH]; intros positions.
  - split.
    + intros _. cbn. now rewrite app_nil_r.
    + intros H. exfalso. apply H. constructor.
  - rewrite sphere_positions_step.
    destruct (vertices box !! face_a face) as [a|] eqn:Ea;
      [destruct (vertices box !! face_b face) as [b|] eqn:Eb;
       [destruct (vertices box !! face_c face) as [c|] eqn:Ec|]|].
    + assert (face_valid box face) as Hv
          by (repeat split; eapply lookup_lt_Some; eassumption).
      assert (length (face_positions box face) = 9) as Hl
          by (unfold face_positions, coordinates; now rewrite Ea, Eb, Ec).
      destruct (IH (positions ++ face_positions box face)) as [IH1 IH2]. split.
      * intros Hall. apply Forall_cons in Hall as [_ Hall].
        destruct (IH1 Hall) as [-> Hlen]. cbn [flat_map].
        rewrite <- app_assoc, length_app, Hl, Hlen. split; [reflexivity|].
        cbn [length]. lia.
      * intros Hnot. apply IH2. intros Hall. apply Hnot. now constructor.
    + split; [|reflexivity].
      intros Hall. apply Forall_cons in Hall as [(_ & _ & Hc) _].
      apply lookup_ge_None in Ec. lia.
    + split; [|reflexivity].
      intros Hall. apply Forall_cons in Hall as [(_ & Hb & _) _].
      apply lookup_ge_None in Eb. lia.
    + split; [|reflexivity].
      intros Hall. apply Forall_cons in Hall as [(Ha & _ & _) _].
      apply lookup_ge_None in Ea. lia.
Qed.

(** Building the shared positions completes exactly when every face names
    vertices that exist; it then appends nine numbers per face, in face
    order, and otherwise throws at the first face with a missing vertex,
    without touching the state. *)
Theorem sphere_positions_complete_iff_faces_valid
        (box : Geometry) (fs : list Face3) (positions : list float) (s : App) :
  (Forall (face_valid box) fs ->
   sphere_positions box fs positions s
   = mkRun (Ok (positions ++ flat_map (face_positions box) fs)) s []
   /\ length (flat_map (face_positions box) fs) = 9 * length fs)
  /\ (~ Forall (face_valid box) fs ->
      sphere_positions box fs positions s
      = mkRun (Throw (JS.TypeError "Cannot read property 'x' of undefined")) s []).
Proof. apply sphere_positions_run. Qed.

(** ** Footprints: the parts of the state a handler never writes

    [unchanged f] relates two states that agree on the observation [f].  A
    handler leaves [f] unchanged as soon as [f] does not look at the fields
    the handler assigns; this is proved once for each handler, for every
    such [f], and then used with the window, the flag, the loader state
    and the cameras' parameters. *)

Definition unchanged {A} (f : App -> A) (s s' : App) : Prop := f s' = f s.

Lemma unchanged_refl {A} (f : App -> A) (s : App) : unchanged f s s.
Proof. reflexivity. Qed.

Lemma unchanged_trans {A} (f : App -> A) (s1 s2 s3 : App) :
  unchanged f s1 s2 -> unchanged f s2 s3 -> unchanged f s1 s3.
Proof. unfold unchanged. congruence. Qed.

(** One step of a footprint proof; assignments are discharged from the
    assumptions on [f] in the context. *)
Ltac footprint_step :=
  match goal with
  | |- respects _ (bind _ _) =>
      apply (respects_bind _ (unchanged_trans _)); [|intros ?]
  | |- respects _ (catch _ _) =>
      apply (respects_catch _ (unchanged_trans _)); [|intros ?]
  | |- respects _ (ret _) => apply (respects_ret _ (unchanged_refl _))
  | |- respects _ (throw _) => apply (respects_throw _ (unchanged_refl _))
  | |- respects _ (emit _) => apply (respects_emit _ (unchanged_refl _))
  | |- respects _ get => apply (respects_get _ (unchanged_refl _))
  | |- respects _ (when _ _) => apply (respects_when _ (unchanged_refl _))
  | |- respects _ (forEach _ _) =>
      apply (respects_forEach _ (unchanged_refl _) (unchanged_trans _)); intros ?
  | |- respects _ (for_range _ _ _ _) =>
      apply (respects_for_range _ (unchanged_refl _) (unchanged_trans _));
      intros ? ?
  | |- respects _ (modify _) =>
      apply respects_modify; intros ?; unfold unchanged;
      solve [auto | reflexivity]
  | |- respects _ (match ?x with _ => _ end) => destruct x
  | |- respects _ (if ?b then _ else _) => destruct b
  | |- respects _ (let '(_, _) := ?x in _) => destruct x
  end.

Section Footprint.

Variable P : Platform.
Context {A : Type} (f : App -> A).

Hypothesis f_scene : forall s l, f (with_scene s l) = f s.
Hypothesis f_randoms : forall s n, f (with_randoms s n) = f s.
Hypothesis f_target : forall s g, f (with_targetObject s g) = f s.
Hypothesis f_manifest : forall s p, f (with_manifest s p) = f s.
Hypothesis f_objPending : forall s b, f (with_objPending s b) = f s.
Hypothesis f_objRequested : forall s b, f (with_objRequested s b) = f s.
Hypothesis f_orbit_dev :
  forall s, f (with_cameras s (controls_update P (cam_dev s)) (cam_main s)) = f s.
Hypothesis f_orbit_main :
  forall s, f (with_cameras s (cam_dev s) (controls_update P (cam_main s))) = f s.

Lemma Math_random_unchanged : respects (unchanged f) (Math_random P).
Proof. intros s. apply f_randoms. Qed.

Ltac draws :=
  match goal with
  | |- respects _ (Math_random _) => apply Math_random_unchanged
  end.

Lemma sphere_positions_unchanged box fs : forall positions,
  respects (unchanged f) (sphere_positions box fs positions).
Proof.
  induction fs as [|face fs IH]; intros positions; cbn [sphere_positions].
  - repeat footprint_step.
  - unfold vertex_at. repeat footprint_step. apply IH.
Qed.

Lemma instance_loop_unchanged v n pool :
  respects (unchanged f) (instance_loop P v n pool).
Proof.
  unfold instance_loop, instance_reference, instance_triangle, random_signed.
  repeat first [footprint_step | draws].
Qed.

(** The builder writes the scene, the generator's count and the model
    (its wireframe flags), and nothing else, whether it completes or
    throws. *)
Lemma objectInit_with_unchanged v n :
  respects (unchanged f) (objectInit_with P v n).
Proof.
  unfold objectInit_with, add_particles, textContent, scene_add.
  repeat first
    [ footprint_step
    | match goal with
      | |- respects _ (sphere_positions _ _ _) => apply sphere_positions_unchanged
      | |- respects _ (instance_loop _ _ _ _) => apply instance_loop_unchanged
      end ].
Qed.

(** A frame writes the scene's fourth child and the cameras' placement. *)
Lemma update_unchanged v now : respects (unchanged f) (update P v now).
Proof.
  unfold update, animate, render_views, render. repeat footprint_step.
Qed.

(** The callbacks of the two loaders. *)
Lemma callback_unchanged v ev :
  (forall now, ev <> Frame now) ->
  (forall w h, ev <> Resize w h) ->
  (forall val, ev <> DebugCamera val) ->
  (forall w h, ev <> WindowResized w h) ->
  respects (unchanged f) (handle P v ev).
Proof.
  intros Hf Hr Hd Hw.
  destruct ev as [now|w h| |why|object| |val|item l t|lc l t|w' h']; cbn [handle].
  10: { exfalso. eapply Hw. reflexivity. }
  8: { unfold onManagerProgress. repeat footprint_step. }
  8: { unfold onProgress. repeat footprint_step. }
  - exfalso. eapply Hf. reflexivity.
  - exfalso. eapply Hr. reflexivity.
  - unfold onAssetsLoaded, onAssetsError, loadObj, objectInit.
    repeat first
      [ footprint_step
      | match goal with
        | |- respects _ (objectInit_with _ _ _) => apply objectInit_with_unchanged
        end ].
  - unfold onAssetsError. repeat footprint_step.
  - unfold onObjLoaded, scene_add.
    repeat first
      [ footprint_step
      | match goal with
        | |- respects _ (objectInit_with _ _ _) => apply objectInit_with_unchanged
        end ].
  - repeat footprint_step.
  - exfalso. eapply Hd. reflexivity.
Qed.

(** Every event but a change of the window, a resize and a toggle of the
    flag. *)
Lemma handle_unchanged v ev :
  (forall w h, ev <> Resize w h) ->
  (forall val, ev <> DebugCamera val) ->
  (forall w h, ev <> WindowResized w h) ->
  respects (unchanged f) (handle P v ev).
Proof.
  intros Hr Hd Hw.
  destruct ev as [now|w h| |why|object| |val|item l t|lc l t|w' h']; cbn [handle].
  10: { exfalso. eapply Hw. reflexivity. }
  8: { unfold onManagerProgress. repeat footprint_step. }
  8: { unfold onProgress. repeat footprint_step. }
  - apply update_unchanged.
  - exfalso. eapply Hr. reflexivity.
  - unfold onAssetsLoaded, onAssetsError, loadObj, objectInit.
    repeat first
      [ footprint_step
      | match goal with
        | |- respects _ (objectInit_with _ _ _) => apply objectInit_with_unchanged
        end ].
  - unfold onAssetsError. repeat footprint_step.
  - unfold onObjLoaded, scene_add.
    repeat first
      [ footprint_step
      | match goal with
        | |- respects _ (objectInit_with _ _ _) => apply objectInit_with_unchanged
        end ].
  - repeat footprint_step.
  - exfalso. eapply Hd. reflexivity.
Qed.

End Footprint.

(** ** Alphabets: the effects a handler can have

    [emits Q m]: every effect of every run of [m], completed or thrown,
    satisfies [Q]. *)

Definition emits (Q : Effect -> Prop) {A} (m : M A) : Prop :=
  forall s, Forall Q (effects (m s)).

Section Emits.

Variable Q : Effect -> Prop.

Lemma emits_ret {A} (a : A) : emits Q (ret a).
Proof. intros s. constructor. Qed.

Lemma emits_throw {A} (e : JS.error) : emits Q (@throw A e).
Proof. intros s. constructor. Qed.

Lemma emits_get : emits Q get.
Proof. intros s. constructor. Qed.

Lemma emits_modify (g : App -> App) : emits Q (modify g).
Proof. intros s. constructor. Qed.

Lemma emits_emit (e : Effect) : Q e -> emits Q (emit e).
Proof. intros H s. repeat constructor. exact H. Qed.

Lemma emits_bind {A B} (m : M A) (k : A -> M B) :
  emits Q m -> (forall a, emits Q (k a)) -> emits Q (bind m k).
Proof.
  intros Hm Hk s. unfold bind. specialize (Hm s).
  destruct (m s) as [[a|e] s' tr]; cbn [effects] in *; [|exact Hm].
  rewrite effects_prepend. apply Forall_app. split; [exact Hm | apply Hk].
Qed.

Lemma emits_catch {A} (m : M A) (h : JS.error -> M A) :
  emits Q m -> (forall e, emits Q (h e)) -> emits Q (catch m h).
Proof.
  intros Hm Hh s. unfold catch. specialize (Hm s).
  destruct (m s) as [[a|e] s' tr]; cbn [effects] in *; [exact Hm|].
  rewrite effects_prepend. apply Forall_app. split; [exact Hm | apply Hh].
Qed.

Lemma emits_when (b : bool) (m : M unit) : emits Q m -> emits Q (when b m).
Proof. intros Hm. destruct b; [exact Hm | apply emits_ret]. Qed.

Lemma emits_forEach {A} (xs : list A) (g : A -> M unit) :
  (forall x, emits Q (g x)) -> emits Q (forEach xs g).
Proof.
  intros Hg. induction xs as [|x xs IH]; cbn [forEach].
  - apply emits_ret.
  - apply emits_bind; auto.
Qed.

Lemma emits_for_range {St} (n : nat) (body : nat -> St -> M St) :
  (forall i st, emits Q (body i st)) ->
  forall i st, emits Q (for_range n i body st).
Proof.
  intros Hb. induction n as [|n IH]; intros i st; cbn [for_range].
  - apply emits_ret.
  - apply emits_bind; auto.
Qed.

End Emits.

Ltac emits_step :=
  match goal with
  | |- emits _ (bind _ _) => apply emits_bind; [|intros ?]
  | |- emits _ (catch _ _) => apply emits_catch; [|intros ?]
  | |- emits _ (ret _) => apply emits_ret
  | |- emits _ (throw _) => apply emits_throw
  | |- emits _ get => apply emits_get
  | |- emits _ (modify _) => apply emits_modify
  | |- emits _ (emit _) => apply emits_emit; solve [reflexivity | auto]
  | |- emits _ (when _ _) => apply emits_when
  | |- emits _ (forEach _ _) => apply emits_forEach; intros ?
  | |- emits _ (for_range _ _ _ _) => apply emits_for_range; intros ? ?
  | |- emits _ (match ?x with _ => _ end) => destruct x
  | |- emits _ (if ?b then _ else _) => destruct b
  | |- emits _ (let '(_, _) := ?x in _) => destruct x
  end.

(** What an event's handler may emit. *)
Definition in_alphabet (v : Variant) (ev : Event) (e : Effect) : bool :=
  match ev, e with
  | Frame _, (RequestAnimationFrame | StatsBegin | StatsEnd | RenderStatsUpdate
              | SetViewport _ _ _ _ | SetScissor _ _ _ _ | SetClearColor _
              | Render _) => true
  | Resize w h, SetSize _ _ => true
  | AssetsLoaded, ConsoleLog _ => true
  | AssetsLoaded, ObjLoad _ =>
      match v with ReferenceModel => true | Triangle => false end
  | AssetsLoaded, ConsoleWarn _ =>
      match v with ReferenceModel => false | Triangle => true end
  | AssetsRejected _, ConsoleWarn _ => true
  | ObjFailed, ConsoleLog _ => true
  | DebugCamera _, SetQuery _ _ => true
  | ManagerProgress _ _ _, ConsoleLogItem _ _ _ => true
  | XhrProgress _ _ _, ConsoleLogDownloaded _ => true
  | _, _ => false
  end.

Section Alphabet.

Variable P : Platform.

Lemma Math_random_emits Q : emits Q (Math_random P).
Proof. intros s. constructor. Qed.

Lemma sphere_positions_emits Q box fs : forall positions,
  emits Q (sphere_positions box fs positions).
Proof.
  induction fs as [|face fs IH]; intros positions; cbn [sphere_positions].
  - repeat emits_step.
  - unfold vertex_at. repeat emits_step. apply IH.
Qed.

Lemma instance_loop_emits Q v n pool : emits Q (instance_loop P v n pool).
Proof.
  unfold instance_loop, instance_reference, instance_triangle, random_signed.
  repeat first
    [ emits_step
    | match goal with |- emits _ (Math_random _) => apply Math_random_emits end ].
Qed.

(** The builder's only effect is the [console.log(scene)] of the triangle
    variant. *)
Lemma objectInit_with_emits v n :
  emits (fun e => v = Triangle /\ e = ConsoleLog "scene") (objectInit_with P v n).
Proof.
  unfold objectInit_with, add_particles, textContent, scene_add.
  repeat first
    [ emits_step
    | match goal with
      | |- emits _ (sphere_positions _ _ _) => apply sphere_positions_emits
      | |- emits _ (instance_loop _ _ _ _) => apply instance_loop_emits
      end ].
Qed.

Lemma emits_weaken (Q Q' : Effect -> Prop) {A} (m : M A) :
  (forall e, Q e -> Q' e) -> emits Q m -> emits Q' m.
Proof. intros H Hm s. eapply Forall_impl; [apply Hm | exact H]. Qed.

Lemma handle_emits_alphabet (v : Variant) (ev : Event) (s : App) :
  Forall (fun e => in_alphabet v ev e = true) (effects (handle P v ev s)).
Proof.
  revert s. change (emits (fun e => in_alphabet v ev e = true) (handle P v ev)).
  destruct ev as [now|w h| |why|object| |val|item l t|lc l t|w' h']; cbn [handle].
  10: { repeat emits_step. }
  8: { unfold onManagerProgress. repeat emits_step. }
  8: { unfold onProgress. repeat emits_step. }
  - unfold update, animate, render_views, render. repeat emits_step.
  - unfold onResize. repeat emits_step.
  - destruct v.
    + intros s.
      rewrite (bind_run _ _ _ _ _ _ (eq_refl : get s = mkRun (Ok s) s [])), prepend_nil.
      destruct (manifest s) as [[|]|]; repeat constructor.
    + unfold onAssetsLoaded, onAssetsError, objectInit.
      repeat first
        [ emits_step
        | match goal with
          | |- emits _ (objectInit_with _ _ _) =>
              apply (emits_weaken
                       (fun e => Triangle = Triangle /\ e = ConsoleLog "scene"));
              [intros ? [_ ->]; reflexivity | apply objectInit_with_emits]
          end ].
  - unfold onAssetsError. repeat emits_step.
  - unfold onObjLoaded, scene_add.
    repeat first
      [ emits_step
      | match goal with
        | |- emits _ (objectInit_with _ _ _) =>
            apply (emits_weaken
                     (fun e => ReferenceModel = Triangle /\ e = ConsoleLog "scene"));
            [intros ? [[=] _] | apply objectInit_with_emits]
        end ].
  - repeat emits_step.
  - repeat emits_step.
Qed.

(** Every effect of a handler is in the alphabet of its event, for each
    of the nine handlers: only a frame issues renderer commands and
    reschedules itself, only a resize sets the renderer's size, only the
    fulfilment of the manifest starts a load (and only in the
    reference-model variant), only a toggle of the flag writes the query
    string; the manager's progress callback logs the item and its counts
    and nothing else, the download's progress callback logs the rounded
    percentage and nothing else, and the loader's load callback, with the
    build it runs, emits nothing. *)
Theorem handle_effects_in_alphabet (v : Variant) (ev : Event) (s : App) :
  Forall (fun e => in_alphabet v ev e = true) (effects (handle P v ev s))
  /\ (forall (item : string) (loaded total : float),
         effects (handle P v (ManagerProgress item loaded total) s)
         = if objRequested s then [ConsoleLogItem item loaded total] else [])
  /\ (forall (lengthComputable : bool) (loaded total : float),
         effects (handle P v (XhrProgress lengthComputable loaded total) s)
         = if (objPending s && lengthComputable)%bool
           then [ConsoleLogDownloaded (JS.round (loaded / total * 100))]
           else [])
  /\ (forall object : Group, effects (handle P v (ObjLoaded object) s) = []).
Proof.
  split; [apply handle_emits_alphabet|]. split; [|split].
  - intros item loaded total. now rewrite manager_progress_run.
  - intros lengthComputable loaded total. now rewrite xhr_progress_run.
  - intros object.
    pose proof (handle_emits_alphabet v (ObjLoaded object) s) as H.
    destruct (effects (handle P v (ObjLoaded object) s)) as [|e tr]; [reflexivity|].
    apply Forall_cons in H as [H _]. destruct e; discriminate H.
Qed.

End Alphabet.

(** ** The cameras follow the resize listener, the flag follows the panel *)

(** What the projection of a camera depends on. *)
Definition intrinsics (c : PerspectiveCamera) : float * float * float * float * Projection :=
  (fov c, aspect c, near c, far c, projectionMatrix c).


Lemma handle_toggle_run (P : Platform) (v : Variant) (val : bool) (s : App) :
  handle P v (DebugCamera val) s
  = mkRun (Ok tt) (with_debugCamera s val) [SetQuery "cameraDebug" val].
Proof. reflexivity. Qed.

(** The cameras as the resize listener leaves them for a window of the
    given size, with the constants of the cameras module as the other
    parameters. *)
Definition view_at (size : float * float) (s : App) : Prop :=
  let ratio := (fst size / snd size)%float in
  intrinsics (cam_dev s) = (50, ratio, 1, 10, mkProjection 50 ratio 1 10)%float
  /\ intrinsics (cam_main s) = (50, ratio, 1, 10, mkProjection 50 ratio 1 10)%float.

Definition cameras_view (s : App) :=
  (intrinsics (cam_dev s), intrinsics (cam_main s)).

Lemma view_at_view (size : float * float) (s s' : App) :
  cameras_view s' = cameras_view s -> view_at size s -> view_at size s'.
Proof.
  intros E H. unfold view_at.
  rewrite (f_equal fst E : intrinsics (cam_dev s') = intrinsics (cam_dev s)),
    (f_equal snd E : intrinsics (cam_main s') = intrinsics (cam_main s)).
  exact H.
Qed.

(** The size the window had when its resize event was last dispatched,
    [initial] when there was none. *)
Definition last_size (evs : list Event) (initial : float * float) : float * float :=
  fold_left (fun size ev => match ev with Resize w h => (w, h) | _ => size end)
            evs initial.

(** The size the window has. *)
Definition current_size (evs : list Event) (initial : float * float) : float * float :=
  fold_left (fun size ev =>
               match ev with
               | Resize w h | WindowResized w h => (w, h)
               | _ => size
               end)
            evs initial.

Lemma handle_view (P : Platform) (v : Variant) (ev : Event)
      (size : float * float) (s : App) :
  view_at size s ->
  view_at (match ev with Resize w h => (w, h) | _ => size end)
          (state (handle P v ev s)).
Proof.
  intros H.
  destruct ev as [now|w h| |why|object| |val|item l t|lc l t|w' h'] eqn:E;
    [| | | | | | rewrite handle_toggle_run; exact H | |
     | rewrite window_resized_run; exact H];
    try ((eapply view_at_view; [|exact H]);
         (apply (handle_unchanged P cameras_view); [reflexivity .. | | |];
          intros; discriminate)).
  rewrite resize_run. destruct H as [[= Hf _ Hn Hr _] [= Hf' _ Hn' Hr' _]].
  unfold view_at, intrinsics.
  cbn [state cam_dev cam_main with_cameras with_window fst snd
       Camera.updateProjectionMatrix Camera.set_aspect
       fov aspect near far projectionMatrix].
  rewrite Hf, Hn, Hr, Hf', Hn', Hr'. split; reflexivity.
Qed.

Lemma started_view (P : Platform) (v : Variant) (w h now : float) (debug : bool) :
  view_at (w, h) (state (started P v w h debug now)).
Proof.
  unfold started. rewrite constructor_run, state_prepend.
  apply (view_at_view _ (set_up P (boot w h debug))).
  - apply (update_unchanged P cameras_view); reflexivity.
  - split; reflexivity.
Qed.

Lemma handle_window (P : Platform) (v : Variant) (ev : Event) (s : App) :
  (innerWidth (state (handle P v ev s)), innerHeight (state (handle P v ev s)))
  = match ev with
    | Resize w h | WindowResized w h => (w, h)
    | _ => (innerWidth s, innerHeight s)
    end.
Proof.
  destruct ev as [now|w h| |why|object| |val|item l t|lc l t|w' h'] eqn:E;
    [| rewrite resize_run; reflexivity | | | | | rewrite handle_toggle_run; reflexivity
     | | | reflexivity];
    (apply (handle_unchanged P (fun s => (innerWidth s, innerHeight s)));
     [reflexivity .. | | |]; intros; discriminate).
Qed.

Lemma play_view (P : Platform) (v : Variant) (evs : list Event) :
  forall (size : float * float) (s : App),
    view_at size s ->
    view_at (last_size evs size) (fst (play P v evs s))
    /\ (innerWidth (fst (play P v evs s)), innerHeight (fst (play P v evs s)))
       = current_size evs (innerWidth s, innerHeight s).
Proof.
  induction evs as [|ev evs' IH]; intros size s Hs; cbn [play];
    [split; [exact Hs | reflexivity]|].
  destruct (IH _ _ (handle_view P v ev size s Hs)) as [IH1 IH2].
  rewrite handle_window in IH2.
  destruct (play P v evs' (state (handle P v ev s))) as [s' tr].
  cbn [fst] in *. unfold last_size, current_size. cbn [fold_left]. split.
  - exact IH1.
  - rewrite IH2. destruct ev; reflexivity.
Qed.

(** After the module has been evaluated and any events have been handled,
    both cameras have as aspect the ratio of the size the window had when
    its resize event was last dispatched (the size the cameras module read
    when there has been none), and a projection matrix computed from that
    ratio and the constants 50, 1 and 10: frames, loads, builds, progress
    reports, toggles and changes of the window leave the cameras'
    parameters alone, and each run of the resize listener sets them from
    the size it reads.  The window itself has the size it took last, by a
    change or at a dispatch: after a change whose resize event has not
    been dispatched yet, the aspect is still the old ratio, and a frame
    renders into the new size with it. *)
Theorem aspect_is_ratio_at_last_resize
        (P : Platform) (v : Variant) (w h now : float) (debug : bool)
        (evs : list Event) :
  let s := fst (play P v evs (state (started P v w h debug now))) in
  let size := last_size evs (w, h) in
  let ratio := (fst size / snd size)%float in
  aspect (cam_dev s) = ratio
  /\ aspect (cam_main s) = ratio
  /\ projectionMatrix (cam_dev s) = mkProjection 50 ratio 1 10
  /\ projectionMatrix (cam_main s) = mkProjection 50 ratio 1 10
  /\ (innerWidth s, innerHeight s) = current_size evs (w, h)
  /\ (forall w' h' : float,
         let s' := state (handle P v (WindowResized w' h') s) in
         (innerWidth s', innerHeight s') = (w', h')
         /\ aspect (cam_dev s') = ratio /\ aspect (cam_main s') = ratio)
  /\ (forall w' h' : float,
         let s' := state (handle P v (Resize w' h') s) in
         (innerWidth s', innerHeight s') = (w', h')
         /\ aspect (cam_dev s') = (w' / h')%float
         /\ aspect (cam_main s') = (w' / h')%float).
Proof.
  cbn zeta.
  destruct (play_view P v evs (w, h) _ (started_view P v w h now debug))
    as [[[= _ Ha _ _ Hp] [= _ Ha' _ _ Hp']] Hw].
  assert ((innerWidth (state (started P v w h debug now)),
           innerHeight (state (started P v w h debug now))) = (w, h)) as Hw0.
  { unfold started. rewrite constructor_run, state_prepend.
    apply (update_unchanged P (fun s => (innerWidth s, innerHeight s)));
      reflexivity. }
  rewrite Hw0 in Hw.
  split; [exact Ha|]. split; [exact Ha'|]. split; [exact Hp|]. split; [exact Hp'|].
  split; [exact Hw|]. split.
  - intros w' h'. rewrite window_resized_run. cbn [state].
    split; [reflexivity|]. split; [exact Ha | exact Ha'].
  - intros w' h'. rewrite resize_run. cbn [state]. repeat split.
Qed.

(** The value the panel set last, or the initial one. *)
Definition last_toggle (evs : list Event) (initial : bool) : bool :=
  fold_left (fun d ev => match ev with DebugCamera val => val | _ => d end)
            evs initial.

Definition toggles (evs : list Event) : list bool :=
  flat_map (fun ev => match ev with DebugCamera val => [val] | _ => [] end) evs.

(** The writes of the query string in a trace. *)
Definition query_writes (tr : list Effect) : list (string * bool) :=
  flat_map (fun e => match e with SetQuery key val => [(key, val)] | _ => [] end) tr.

Lemma query_writes_app (t1 t2 : list Effect) :
  query_writes (t1 ++ t2) = query_writes t1 ++ query_writes t2.
Proof. apply flat_map_app. Qed.

Lemma no_query_write_outside_toggle (v : Variant) (ev : Event) (tr : list Effect) :
  Forall (fun e => in_alphabet v ev e = true) tr ->
  (forall val, ev <> DebugCamera val) ->
  query_writes tr = [].
Proof.
  intros H Hev. induction H as [|e tr He _ IH]; [reflexivity|].
  cbn [query_writes flat_map]. fold (query_writes tr). rewrite IH.
  destruct e; try reflexivity.
  destruct ev; try discriminate He. exfalso. eapply Hev. reflexivity.
Qed.

Lemma handle_keeps_flag (P : Platform) (v : Variant) (ev : Event) (s : App) :
  (forall val, ev <> DebugCamera val) ->
  debugCamera (state (handle P v ev s)) = debugCamera s.
Proof.
  intros Hev.
  destruct ev as [now|w h| |why|object| |val|item l t|lc l t|w' h'] eqn:E;
    [| rewrite resize_run; reflexivity | | | | | exfalso; eapply Hev; reflexivity
     | | | reflexivity];
    (apply (handle_unchanged P debugCamera); [reflexivity .. | | |];
     intros; discriminate).
Qed.

Lemma play_flag (P : Platform) (v : Variant) (evs : list Event) : forall s,
  debugCamera (fst (play P v evs s)) = last_toggle evs (debugCamera s)
  /\ query_writes (snd (play P v evs s))
     = map (fun val => ("cameraDebug"%string, val)) (toggles evs).
Proof.
  induction evs as [|ev evs' IH]; intros s; cbn [play]; [split; reflexivity|].
  destruct (IH (state (handle P v ev s))) as [IH1 IH2].
  destruct (play P v evs' (state (handle P v ev s))) as [s' tr].
  cbn [fst snd] in *. rewrite query_writes_app, IH1, IH2.
  unfold last_toggle, toggles. cbn [fold_left flat_map]. fold (toggles evs').
  destruct (match ev with DebugCamera val => Some val | _ => None end) as [val|] eqn:E.
  - destruct ev; try discriminate E. injection E as ->.
    rewrite handle_toggle_run. split; reflexivity.
  - assert (forall val, ev <> DebugCamera val) as Hev
        by (intros val ->; discriminate E).
    rewrite (handle_keeps_flag P v ev s Hev).
    rewrite (no_query_write_outside_toggle v ev _
               (handle_emits_alphabet P v ev s) Hev).
    destruct ev; try (split; reflexivity). discriminate E.
Qed.

(** The flag is written by the panel only: after any sequence of events it
    holds the value of the last toggle (the initial value when there was
    none); the query string is written once per toggle, with the key
    [cameraDebug] and the toggled value, and by nothing else; and the next
    frame of the reference-model variant issues two passes or one
    accordingly. *)
Theorem flag_follows_panel
        (P : Platform) (v : Variant) (evs : list Event) (s : App) :
  debugCamera (fst (play P v evs s)) = last_toggle evs (debugCamera s)
  /\ query_writes (snd (play P v evs s))
     = map (fun val => ("cameraDebug"%string, val)) (toggles evs)
  /\ forall now,
       render_passes
         (effects (handle P ReferenceModel (Frame now)
                          (fst (play P ReferenceModel evs s))))
       = if last_toggle evs (debugCamera s) then 2 else 1.
Proof.
  destruct (play_flag P v evs s) as [H1 H2].
  split; [exact H1|]. split; [exact H2|].
  intros now. cbn [handle].
  rewrite (proj1 (proj2 (reference_frame_passes P now _))),
    (proj1 (play_flag P ReferenceModel evs s)).
  reflexivity.
Qed.

(** ** The frame loop keeps going *)

Definition completes {A} (r : Run A) : bool :=
  match outcome r with Ok _ => true | Throw _ => false end.

Definition is_raf (e : Effect) : bool :=
  match e with RequestAnimationFrame => true | _ => false end.

(** The number of animation-frame callbacks registered in a trace. *)
Definition raf_requests (tr : list Effect) : nat :=
  length (filter (fun e => is_raf e = true) tr).

Definition is_frame (ev : Event) : bool :=
  match ev with Frame _ => true | _ => false end.

Definition frame_count (evs : list Event) : nat :=
  length (filter (fun ev => is_frame ev = true) evs).

Lemma raf_requests_app (t1 t2 : list Effect) :
  raf_requests (t1 ++ t2) = raf_requests t1 + raf_requests t2.
Proof. unfold raf_requests. now rewrite filter_app, length_app. Qed.

Lemma update_trace (P : Platform) (v : Variant) (now : float) (s : App) :
  effects (update P v now s)
  = [RequestAnimationFrame] ++ stats_begin P
      ++ (if completes (update P v now s)
          then frame_passes s ++ stats_end P
          else []).
Proof.
  unfold completes. destruct v.
  - rewrite update_reference_run. reflexivity.
  - rewrite update_triangle_run. cbn zeta.
    destruct (outcome (animate P now (orbited P s))); cbn [outcome effects];
      [reflexivity | now rewrite app_nil_r].
Qed.

Lemma raf_requests_update (P : Platform) (v : Variant) (now : float) (s : App) :
  raf_requests (effects (update P v now s)) = 1.
Proof.
  rewrite update_trace. unfold stats_begin, stats_end, frame_passes.
  destruct (DEV_STATS P), (completes (update P v now s)), (debugCamera s);
    reflexivity.
Qed.

Lemma raf_requests_outside_frame (v : Variant) (ev : Event) (tr : list Effect) :
  Forall (fun e => in_alphabet v ev e = true) tr ->
  (forall now, ev <> Frame now) ->
  raf_requests tr = 0.
Proof.
  intros H Hev. induction H as [|e tr He _ IH]; [reflexivity|].
  change (e :: tr) with ([e] ++ tr). rewrite raf_requests_app, IH.
  destruct e; try reflexivity.
  destruct ev; try discriminate He. exfalso. eapply Hev. reflexivity.
Qed.

(** A frame registers the next one before anything else, exactly once, and
    also when it throws; a frame that throws has issued no renderer command
    and, with the statistics on, has begun a measurement that it does not
    end.  No other handler registers a frame: over any run, the module's
    evaluation included, the callbacks registered are one more than the
    frames run, so exactly one is pending at any time. *)
Theorem frame_loop_reschedules_once
        (P : Platform) (v : Variant) (w h now : float) (debug : bool)
        (evs : list Event) :
  (forall t s,
      effects (update P v t s)
      = [RequestAnimationFrame]
          ++ (if DEV_STATS P then [StatsBegin] else [])
          ++ (if completes (update P v t s)
              then frame_passes s
                     ++ (if DEV_STATS P then [RenderStatsUpdate; StatsEnd] else [])
              else []))
  /\ raf_requests (effects (started P v w h debug now)
                     ++ snd (play P v evs (state (started P v w h debug now))))
     = 1 + frame_count evs.
Proof.
  split; [intros t s; apply update_trace|].
  rewrite raf_requests_app. f_equal.
  - unfold started. rewrite constructor_run, effects_prepend, raf_requests_app,
      raf_requests_update.
    unfold setup_effects. destruct (DEV_STATS P); reflexivity.
  - generalize (state (started P v w h debug now)).
    induction evs as [|ev evs' IH]; intros s; cbn [play]; [reflexivity|].
    specialize (IH (state (handle P v ev s))).
    destruct (play P v evs' (state (handle P v ev s))) as [s' tr].
    cbn [snd] in *. rewrite raf_requests_app, IH. unfold frame_count.
    destruct ev as [t|? ?| |?|?| |?|? ? ?|? ? ?|? ?];
      [ cbn [handle]; rewrite raf_requests_update;
        rewrite filter_cons_True by reflexivity; reflexivity
      | rewrite (raf_requests_outside_frame v _ _ (handle_emits_alphabet P v _ s))
          by discriminate;
        rewrite filter_cons_False by discriminate; reflexivity .. ].
Qed.

(** ** The builder, case by case *)

Definition null_textContent : JS.error :=
  JS.TypeError "Cannot read property 'textContent' of null".

Section BuilderCases.

Variable P : Platform.

Definition shaders : option (string * string) :=
  match vertexShader_text P, fragmentShader_text P with
  | Some vs, Some fs => Some (vs, fs)
  | _, _ => None
  end.

(** The mesh of [n] instances made from the arrays [a]. *)
Definition mesh_of (n : nat) (positions : list float) (a : Attrs)
           (vs fs : string) (transparent : bool) : Object3D :=
  new_object (ParticleMesh (make_geometry n positions a))
             (Some (RawShaderMaterial (mkUniforms 1 1) vs fs transparent)).

Lemma add_particles_run n positions a transparent s :
  add_particles P n positions a transparent s
  = match shaders with
    | Some (vs, fs) =>
        mkRun (Ok tt)
              (with_scene s (scene s ++ [mesh_of n positions a vs fs transparent])) []
    | None => mkRun (Throw null_textContent) s []
    end.
Proof.
  unfold add_particles, shaders, textContent.
  destruct (vertexShader_text P) as [vs|]; [|reflexivity].
  destruct (fragmentShader_text P) as [fs|]; reflexivity.
Qed.

Definition sphere : Geometry := SphereGeometry P 0.01 8 1.

Definition wired (object : Group) : Group :=
  mkGroup (map set_wireframe (children object)) (scale object).

Lemma face_valid_dec box face : {face_valid box face} + {~ face_valid box face}.
Proof.
  unfold face_valid.
  destruct (lt_dec (face_a face) (length (vertices box)));
    destruct (lt_dec (face_b face) (length (vertices box)));
    destruct (lt_dec (face_c face) (length (vertices box)));
    (left; tauto) || (right; tauto).
Defined.

(** The build of the reference-model variant, every case. *)
Lemma objectInit_reference_run n s :
  objectInit_with P ReferenceModel n s
  = if List.Forall_dec (face_valid sphere) (face_valid_dec sphere) (faces sphere) then
      match targetObject s with
      | None =>
          mkRun (Throw (JS.TypeError "Cannot read property 'children' of undefined"))
                s []
      | Some object =>
          let s1 := with_targetObject s (Some (wired object)) in
          let pool := flatten_children (children object) in
          if le_lt_dec n (length pool) then
            let s2 := with_randoms s1 (4 * n + randoms s) in
            match shaders with
            | Some (vs, fs) =>
                mkRun (Ok tt)
                  (with_scene s2
                     (scene s
                        ++ [mesh_of n (flat_map (face_positions sphere) (faces sphere))
                              (loop_attrs P ReferenceModel pool (randoms s) n)
                              vs fs false])) []
            | None => mkRun (Throw null_textContent) s2 []
            end
          else
            mkRun (Throw (JS.TypeError "Cannot read property 'x' of undefined"))
                  (with_randoms s1 (4 * length pool + randoms s)) []
      end
    else mkRun (Throw (JS.TypeError "Cannot read property 'x' of undefined")) s [].
Proof.
  unfold objectInit_with. fold sphere.
  destruct (sphere_positions_run sphere (faces sphere) [] s)
    as [Hok Hbad].
  destruct (List.Forall_dec (face_valid sphere) (face_valid_dec sphere) (faces sphere)) as [Hv|Hv].
  - destruct (Hok Hv) as [E _]. rewrite (bind_run _ _ _ _ _ _ E), prepend_nil.
    rewrite (bind_run _ _ _ _ _ _ (eq_refl : get s = mkRun (Ok s) s [])), prepend_nil.
    destruct (targetObject s) as [object|]; [|reflexivity].
    rewrite (bind_run _ _ _ _ _ _ (eq_refl : modify _ s = mkRun (Ok tt) _ [])),
      prepend_nil.
    cbn zeta. fold (wired object).
    destruct (le_lt_dec n (length (flatten_children (children object)))) as [Hn|Hn].
    + destruct (instance_loop_ok P ReferenceModel n
                  (flatten_children (children object))
                  (with_targetObject s (Some (wired object))) (fun _ => Hn))
        as [vec E'].
      rewrite (bind_run _ _ _ _ _ _ E'), prepend_nil, add_particles_run.
      cbn [snd app]. destruct shaders as [[vs fs]|]; reflexivity.
    + rewrite (bind_run _ _ _ _ _ _
                 (instance_loop_throws P n (flatten_children (children object)) _ Hn)).
      reflexivity.
  - rewrite (bind_run _ _ _ _ _ _ (Hbad Hv)). reflexivity.
Qed.

(** The build of the triangle variant, both cases. *)
Lemma objectInit_triangle_run n s :
  objectInit_with P Triangle n s
  = let s2 := with_randoms s (15 * n + randoms s) in
    match shaders with
    | Some (vs, fs) =>
        mkRun (Ok tt)
          (with_scene s2
             (scene s
                ++ [mesh_of n triangle_positions
                      (loop_attrs P Triangle [] (randoms s) n) vs fs true]))
          [ConsoleLog "scene"]
    | None => mkRun (Throw null_textContent) s2 []
    end.
Proof.
  unfold objectInit_with.
  destruct (instance_loop_ok P Triangle n [] s ltac:(discriminate)) as [vec E].
  rewrite (bind_run _ _ _ _ _ _ E), prepend_nil. cbn [snd].
  pose proof (add_particles_run n triangle_positions
                (loop_attrs P Triangle [] (randoms s) n) true
                (with_randoms s (calls_per_instance Triangle * n + randoms s))) as Ea.
  cbn zeta. destruct shaders as [[vs fs]|];
    rewrite (bind_run _ _ _ _ _ _ Ea); reflexivity.
Qed.

End BuilderCases.

(** The faces of the sphere all name existing vertices, so that the
    [forEach] over them completes. *)
Definition sphere_ok (P : Platform) : bool :=
  if List.Forall_dec (face_valid (sphere P)) (face_valid_dec (sphere P))
                     (faces (sphere P))
  then true else false.

Lemma sphere_ok_iff (P : Platform) :
  sphere_ok P = true <-> Forall (face_valid (sphere P)) (faces (sphere P)).
Proof.
  unfold sphere_ok. destruct (List.Forall_dec _ _ _); split; auto; discriminate.
Qed.

(** The build reaches the loop that sets [wireframe] on the model's
    meshes. *)
Definition wires (P : Platform) (v : Variant) : bool :=
  match v with
  | ReferenceModel => sphere_ok P
  | Triangle => false
  end.

(** The scene graph as it is walked from [scene.children]: the child of
    kind [TargetObject] is the object [this.targetObject] refers to, so a
    write through that field is a write to a child of the scene. *)
Definition scene_graph (s : App) : list (Object3D * option Group) :=
  map (fun o => (o, match kind o with
                    | TargetObject => targetObject s
                    | _ => None
                    end))
      (scene s).

(** What the build does to the model. *)
Lemma build_model (P : Platform) (v : Variant) (n : nat) (s : App) :
  targetObject (state (objectInit_with P v n s))
  = if wires P v then option_map wired (targetObject s) else targetObject s.
Proof.
  unfold wires, sphere_ok. destruct v.
  - rewrite objectInit_reference_run.
    destruct (List.Forall_dec _ _ _) as [_|_]; [|reflexivity].
    destruct (targetObject s) as [object|] eqn:Ht;
      [|cbn [state]; rewrite Ht; reflexivity].
    cbv beta iota zeta. destruct (le_lt_dec _ _) as [_|_]; [|reflexivity].
    destruct (shaders P) as [[vs fs]|]; reflexivity.
  - rewrite objectInit_triangle_run. cbv beta iota zeta.
    destruct (shaders P) as [[vs fs]|]; reflexivity.
Qed.

(** What the build needs in order to complete. *)
Definition build_ready (P : Platform) (v : Variant) (n : nat) (s : App) : Prop :=
  shaders P <> None
  /\ match v with
     | Triangle => True
     | ReferenceModel =>
         Forall (face_valid (sphere P)) (faces (sphere P))
         /\ exists object,
              targetObject s = Some object
              /\ n <= length (flatten_children (children object))
     end.

(** The build completes exactly when both shader elements exist and, in
    the reference-model variant, the faces of the sphere name existing
    vertices, a model has been set and its pool has at least [n] points. *)
Theorem build_completes_iff_ready (P : Platform) (v : Variant) (n : nat) (s : App) :
  completes (objectInit_with P v n s) = true <-> build_ready P v n s.
Proof.
  unfold completes, build_ready. destruct v.
  - rewrite objectInit_reference_run.
    destruct (List.Forall_dec _ _ _) as [Hv|Hv]; [|split; [discriminate | tauto]].
    destruct (targetObject s) as [object|];
      [|split; [discriminate | intros (_ & _ & o & [=] & _)]].
    cbn zeta. destruct (le_lt_dec n _) as [Hn|Hn].
    + destruct (shaders P) as [[vs fs]|]; cbn [outcome].
      * split; [|reflexivity]. intros _. split; [discriminate|]. eauto.
      * split; [discriminate | tauto].
    + split; [discriminate|]. intros (_ & _ & o & [= <-] & Hle). lia.
  - rewrite objectInit_triangle_run. cbn zeta.
    destruct (shaders P) as [[vs fs]|]; cbn [outcome].
    + split; [|reflexivity]. intros _. split; [discriminate | exact I].
    + split; [discriminate | tauto].
Qed.

(** ** The buffers of the mesh the build adds *)

(** The shared triangle positions of a variant. *)
Definition shared_positions_of (P : Platform) (v : Variant) : list float :=
  match v with
  | ReferenceModel => flat_map (face_positions (sphere P)) (faces (sphere P))
  | Triangle => triangle_positions
  end.

Definition transparent_of (v : Variant) : bool :=
  match v with ReferenceModel => false | Triangle => true end.

(** A build that is ready completes, and the mesh it appends to the
    scene holds the arrays of the instance loop. *)
Lemma build_mesh (P : Platform) (v : Variant) (n : nat) (s : App) :
  build_ready P v n s ->
  exists vs fs,
    outcome (objectInit_with P v n s) = Ok tt
    /\ scene (state (objectInit_with P v n s))
       = scene s
           ++ [mesh_of n (shared_positions_of P v)
                 (loop_attrs P v (pool_of s) (randoms s) n) vs fs (transparent_of v)]
    /\ (v = ReferenceModel -> n <= length (pool_of s)).
Proof.
  unfold build_ready, pool_of. intros [Hs Hv]. destruct v.
  - destruct Hv as (Hf & object & Ht & Hn).
    rewrite objectInit_reference_run.
    destruct (List.Forall_dec _ _ _) as [_|Hf']; [|contradiction].
    rewrite Ht. cbv beta iota zeta.
    destruct (le_lt_dec _ _) as [_|Hn']; [|lia].
    destruct (shaders P) as [[vs fs]|]; [|congruence].
    exists vs, fs. repeat split. intros _. exact Hn.
  - rewrite objectInit_triangle_run. cbv beta iota zeta.
    destruct (shaders P) as [[vs fs]|]; [|congruence].
    exists vs, fs. repeat split. discriminate.
Qed.

(** C1, amended.  When the build is ready (both shader elements exist
    and, in the reference-model variant, the sphere's faces are valid, the
    model is set and its pool has at least n points), [objectInit]
    completes and appends to the scene one mesh whose attribute buffers
    are the [Float32Array]s of the arrays the loop pushed.  For instance
    i, the four colour channels pushed are the results of four consecutive
    calls of [Math.random], each in [0, 1).  In the reference-model
    variant they are calls 4i to 4i + 3 of the build and the offset pushed
    is the i-th sample point of the pool times 0.01, componentwise; in the
    triangle variant the offset components are the results of calls 15i to
    15i + 2 minus 0.5 and the colours are calls 15i + 3 to 15i + 6. *)
Theorem C1_instance_colors_and_offsets
        (P : Platform) (v : Variant) (n : nat) (s : App) :
  (forall k, JS.in_unit (Math_random_stream P k) = true) ->
  build_ready P v n s ->
  exists g vs fs,
    outcome (objectInit_with P v n s) = Ok tt
    /\ scene (state (objectInit_with P v n s))
       = scene s
           ++ [mkObject (ParticleMesh g) 0
                 (Some (RawShaderMaterial (mkUniforms 1 1) vs fs
                          match v with ReferenceModel => false | Triangle => true end))]
    /\ maxInstancedCount g = n
    /\ forall i, i < n ->
         let random k := Math_random_stream P (randoms s + k) in
         match v with
         | ReferenceModel =>
             (exists p,
                 pool_of s !! i = Some p
                 /\ slice 3 i (attr_offset g)
                    = map JS.fround
                        [JS.mul (sx p) 0.01; JS.mul (sy p) 0.01; JS.mul (sz p) 0.01])
             /\ slice 4 i (attr_color g)
                = map JS.fround
                    [random (4 * i); random (4 * i + 1);
                     random (4 * i + 2); random (4 * i + 3)]
             /\ Forall (fun c => JS.in_unit c = true)
                  [random (4 * i); random (4 * i + 1);
                   random (4 * i + 2); random (4 * i + 3)]
         | Triangle =>
             slice 3 i (attr_offset g)
             = map JS.fround
                 [(random (15 * i)%nat - 0.5)%float;
                  (random (15 * i + 1)%nat - 0.5)%float;
                  (random (15 * i + 2)%nat - 0.5)%float]
             /\ slice 4 i (attr_color g)
                = map JS.fround
                    [random (15 * i + 3); random (15 * i + 4);
                     random (15 * i + 5); random (15 * i + 6)]
             /\ Forall (fun c => JS.in_unit c = true)
                  [random (15 * i); random (15 * i + 1); random (15 * i + 2);
                   random (15 * i + 3); random (15 * i + 4);
                   random (15 * i + 5); random (15 * i + 6)]
         end.
Proof.
  intros Hrnd Hready.
  destruct (build_mesh P v n s Hready) as (vs & fs & Ho & Hs & Hn).
  eexists _, vs, fs. split; [exact Ho|]. split; [exact Hs|].
  split; [reflexivity|].
  intros i Hi. cbn zeta.
  cbn [attr_offset attr_color make_geometry]. rewrite !slice_Float32Array.
  destruct v; cbn [loop_attrs offsets colors].
  - specialize (Hn eq_refl).
    rewrite (slice_flat_map_seq (reference_colors P (randoms s)) 4 n i),
      (slice_flat_map_seq (reference_offsets (pool_of s)) 3 n i); try assumption.
    + destruct (lookup_lt_is_Some_2 (pool_of s) i ltac:(lia)) as [p Hp].
      unfold reference_offsets, reference_colors, scaled. rewrite Hp.
      replace (4 * i + randoms s) with (randoms s + 4 * i) by lia.
      rewrite <- !Nat.add_assoc.
      split; [exists p; split; reflexivity|]. split; [reflexivity|].
      repeat constructor; apply Hrnd.
    + intros j Hj. unfold reference_offsets.
      destruct (lookup_lt_is_Some_2 (pool_of s) j ltac:(lia)) as [p ->].
      reflexivity.
    + reflexivity.
  - rewrite (slice_flat_map_seq (triangle_colors P (randoms s)) 4 n i),
      (slice_flat_map_seq (triangle_offsets P (randoms s)) 3 n i);
      try assumption; try reflexivity.
    unfold triangle_offsets, triangle_colors.
    replace (15 * i + randoms s) with (randoms s + 15 * i) by lia.
    rewrite <- !Nat.add_assoc.
    split; [reflexivity|]. split; [reflexivity|].
    repeat constructor; apply Hrnd.
Qed.

Lemma sample_build_ready : build_ready sample_platform ReferenceModel 2 loaded_state.
Proof.
  split; [discriminate|]. split; [repeat constructor; cbn; lia|].
  exists sample_model. split; [reflexivity | vm_compute; lia].
Defined.

Lemma C1_instance_colors_and_offsets_witness :
  (forall k, JS.in_unit (Math_random_stream sample_platform k) = true)
  /\ build_ready sample_platform ReferenceModel 2 loaded_state
  /\ exists g vs fs,
       scene (state (objectInit_with sample_platform ReferenceModel 2 loaded_state))
       = scene loaded_state
           ++ [mkObject (ParticleMesh g) 0
                 (Some (RawShaderMaterial (mkUniforms 1 1) vs fs false))]
       /\ slice 3 1 (attr_offset g)
          = map JS.fround [4 * 0.01; 5 * 0.01; 6 * 0.01]%float
       /\ slice 4 1 (attr_color g) = [0.25; 0.25; 0.25; 0.25]%float.
Proof.
  assert (forall k, JS.in_unit (Math_random_stream sample_platform k) = true) as Hrnd
    by (intros k; reflexivity).
  split; [exact Hrnd|]. split; [exact sample_build_ready|].
  destruct (C1_instance_colors_and_offsets sample_platform ReferenceModel 2
              loaded_state Hrnd sample_build_ready)
    as (g & vs & fs & _ & Hs & _ & Hi).
  exists g, vs, fs. split; [exact Hs|].
  destruct (Hi 1 ltac:(lia)) as ((p & Hp & Ho) & Hc & _).
  vm_compute in Hp. injection Hp as <-.
  split; [exact Ho | exact Hc].
Defined.

(** C8, amended.  The normalisation of (0.5, 0.5, 0.5, 0.5) is that vector
    itself, of length 1.  When the build is ready, [objectInit] completes
    and appends to the scene one mesh with these orientation buffers: in
    the reference-model variant both orientations of every instance are
    that constant; in the triangle variant the start orientation of
    instance i is the normalisation of the four values
    [Math.random() * 2 - 1] of calls 15i + 7 to 15i + 10 of the build, the
    end orientation that of calls 15i + 11 to 15i + 14, stored as
    [Float32Array]s.  In both variants no later event changes them: the
    mesh stays at its index with its geometry through every sequence of
    events. *)
Theorem C8_orientations_constant_in_reference_variant
        (P : Platform) (v : Variant) (n : nat) (s : App) :
  build_ready P v n s ->
  Vec4.normalize (mkVector4 0.5 0.5 0.5 0.5) = mkVector4 0.5 0.5 0.5 0.5
  /\ Vec4.length (mkVector4 0.5 0.5 0.5 0.5) = 1%float
  /\ exists g vs fs,
       outcome (objectInit_with P v n s) = Ok tt
       /\ scene (state (objectInit_with P v n s))
          = scene s
              ++ [mkObject (ParticleMesh g) 0
                    (Some (RawShaderMaterial (mkUniforms 1 1) vs fs
                             match v with ReferenceModel => false | Triangle => true end))]
       /\ (forall i, i < n ->
             let signed k := (Math_random_stream P (randoms s + k) * 2 - 1)%float in
             match v with
             | ReferenceModel =>
                 slice 4 i (attr_orientationStart g) = [0.5; 0.5; 0.5; 0.5]%float
                 /\ slice 4 i (attr_orientationEnd g) = [0.5; 0.5; 0.5; 0.5]%float
             | Triangle =>
                 slice 4 i (attr_orientationStart g)
                 = map JS.fround
                     (components
                        (Vec4.normalize
                           (mkVector4 (signed (15 * i + 7)) (signed (15 * i + 8))
                                      (signed (15 * i + 9)) (signed (15 * i + 10)))))
                 /\ slice 4 i (attr_orientationEnd g)
                    = map JS.fround
                        (components
                           (Vec4.normalize
                              (mkVector4 (signed (15 * i + 11)) (signed (15 * i + 12))
                                         (signed (15 * i + 13)) (signed (15 * i + 14)))))
             end)
       /\ (forall evs : list Event,
              exists o,
                scene (fst (play P v evs (state (objectInit_with P v n s))))
                  !! length (scene s)
                = Some o
                /\ kind o = ParticleMesh g).
Proof.
  intros Hready. split; [reflexivity|]. split; [reflexivity|].
  destruct (build_mesh P v n s Hready) as (vs & fs & Ho & Hs & Hn).
  eexists _, vs, fs. split; [exact Ho|]. split; [exact Hs|]. split.
  - intros i Hi. cbn zeta.
    cbn [attr_orientationStart attr_orientationEnd make_geometry].
    rewrite !slice_Float32Array.
    destruct v; cbn [loop_attrs orientationsStart orientationsEnd].
    + rewrite (slice_flat_map_seq (fun _ => components half) 4 n i) by auto.
      split; reflexivity.
    + rewrite (slice_flat_map_seq
                 (fun j => components (triangle_start P (randoms s) j)) 4 n i),
        (slice_flat_map_seq
           (fun j => components (triangle_end P (randoms s) j)) 4 n i) by auto.
      unfold triangle_start, triangle_end, signed.
      replace (15 * i + randoms s) with (randoms s + 15 * i) by lia.
      rewrite <- !Nat.add_assoc. split; reflexivity.
  - intros evs.
    apply (play_keeps_kind P v evs (state (objectInit_with P v n s))
             (length (scene s))
             (mesh_of n (shared_positions_of P v)
                (loop_attrs P v (pool_of s) (randoms s) n) vs fs (transparent_of v))).
    rewrite Hs. apply list_lookup_middle. reflexivity.
Qed.

Lemma C8_orientations_constant_in_reference_variant_witness :
  build_ready sample_platform ReferenceModel 2 loaded_state
  /\ exists g vs fs,
       scene (state (objectInit_with sample_platform ReferenceModel 2 loaded_state))
       = scene loaded_state
           ++ [mkObject (ParticleMesh g) 0
                 (Some (RawShaderMaterial (mkUniforms 1 1) vs fs false))]
       /\ slice 4 1 (attr_orientationStart g) = [0.5; 0.5; 0.5; 0.5]%float
       /\ slice 4 1 (attr_orientationEnd g) = [0.5; 0.5; 0.5; 0.5]%float.
Proof.
  split; [exact sample_build_ready|].
  destruct (C8_orientations_constant_in_reference_variant sample_platform
              ReferenceModel 2 loaded_state sample_build_ready)
    as (_ & _ & g & vs & fs & _ & Hs & Hi & _).
  exists g, vs, fs. split; [exact Hs|]. exact (Hi 1 ltac:(lia)).
Defined.

Lemma length_Float32Array (a : list float) : length (JS.Float32Array a) = length a.
Proof. apply length_map. Qed.

Lemma loop_attrs_lengths (P : Platform) (v : Variant) (pool : list SamplePoint)
      (r n : nat) :
  (v = ReferenceModel -> n <= length pool) ->
  let a := loop_attrs P v pool r n in
  length (offsets a) = 3 * n /\ length (colors a) = 4 * n
  /\ length (orientationsStart a) = 4 * n /\ length (orientationsEnd a) = 4 * n.
Proof.
  intros Hn. cbn zeta. destruct v; cbn [loop_attrs offsets colors orientationsStart
                                         orientationsEnd].
  - specialize (Hn eq_refl).
    rewrite (length_flat_map_fixed (reference_offsets pool) 3),
      (length_flat_map_fixed (reference_colors P r) 4),
      !(length_flat_map_fixed (fun _ => components half) 4), length_seq;
      try (intros; reflexivity); [repeat split; reflexivity|].
    intros j Hj. apply in_seq in Hj. unfold reference_offsets.
    destruct (lookup_lt_is_Some_2 pool j ltac:(lia)) as [p ->]. reflexivity.
  - rewrite (length_flat_map_fixed (triangle_offsets P r) 3),
      (length_flat_map_fixed (triangle_colors P r) 4),
      (length_flat_map_fixed (fun j => components (triangle_start P r j)) 4),
      (length_flat_map_fixed (fun j => components (triangle_end P r j)) 4),
      length_seq;
      try (intros; reflexivity). repeat split; reflexivity.
Qed.

Lemma build_scene
        (P : Platform) (v : Variant) (n : nat) (s : App) :
  let r := objectInit_with P v n s in
  if completes r then
    exists g vs fs,
      scene (state r)
      = scene s
          ++ [mkObject (ParticleMesh g) 0
                (Some (RawShaderMaterial (mkUniforms 1 1) vs fs
                         match v with ReferenceModel => false | Triangle => true end))]
      /\ maxInstancedCount g = n
      /\ length (attr_offset g) = 3 * n
      /\ length (attr_color g) = 4 * n
      /\ length (attr_orientationStart g) = 4 * n
      /\ length (attr_orientationEnd g) = 4 * n
      /\ attr_position g
         = JS.Float32Array
             match v with
             | ReferenceModel => flat_map (face_positions (sphere P)) (faces (sphere P))
             | Triangle => triangle_positions
             end
  else scene (state r) = scene s.
Proof.
  cbn zeta. unfold completes. destruct v.
  - rewrite objectInit_reference_run.
    destruct (List.Forall_dec _ _ _) as [Hv|Hv]; [|reflexivity].
    destruct (targetObject s) as [object|]; [|reflexivity].
    cbn zeta. destruct (le_lt_dec n _) as [Hn|Hn]; [|reflexivity].
    destruct (shaders P) as [[vs fs]|]; cbn [outcome state]; [|reflexivity].
    destruct (loop_attrs_lengths P ReferenceModel
                (flatten_children (children object)) (randoms s) n (fun _ => Hn))
      as (L1 & L2 & L3 & L4).
    eexists _, vs, fs. split; [reflexivity|].
    cbn [make_geometry maxInstancedCount attr_offset attr_color
           attr_orientationStart attr_orientationEnd].
    rewrite !length_Float32Array.
    repeat split; assumption.
  - rewrite objectInit_triangle_run. cbn zeta.
    destruct (shaders P) as [[vs fs]|]; cbn [outcome state]; [|reflexivity].
    destruct (loop_attrs_lengths P Triangle [] (randoms s) n ltac:(discriminate))
      as (L1 & L2 & L3 & L4).
    eexists _, vs, fs. split; [reflexivity|].
    cbn [make_geometry maxInstancedCount attr_offset attr_color
           attr_orientationStart attr_orientationEnd attr_position].
    rewrite !length_Float32Array.
    repeat split; assumption.
Qed.

(** The build adds at most one child to [scene.children] and removes or
    reorders none.  When it completes it has appended exactly one child,
    the mesh: unrotated, both uniforms 1, [n] instances, attribute buffers
    of 3n, 4n, 4n and 4n numbers and the shared positions of the variant;
    when it throws, [scene.children] is the list of objects it was.  The
    objects are not all as they were: in the reference-model variant, once
    the faces of the sphere have been read, every mesh of the model, which
    is a child of the scene, has [wireframe] set, whether the build then
    completes or throws.  Nothing else of the scene graph changes. *)
Theorem build_appends_one_mesh_or_nothing
        (P : Platform) (v : Variant) (n : nat) (s : App) :
  let r := objectInit_with P v n s in
  (if completes r then
     exists g vs fs,
       scene (state r)
       = scene s
           ++ [mkObject (ParticleMesh g) 0
                 (Some (RawShaderMaterial (mkUniforms 1 1) vs fs
                          match v with ReferenceModel => false | Triangle => true end))]
       /\ maxInstancedCount g = n
       /\ length (attr_offset g) = 3 * n
       /\ length (attr_color g) = 4 * n
       /\ length (attr_orientationStart g) = 4 * n
       /\ length (attr_orientationEnd g) = 4 * n
       /\ attr_position g
          = JS.Float32Array
              match v with
              | ReferenceModel => flat_map (face_positions (sphere P)) (faces (sphere P))
              | Triangle => triangle_positions
              end
   else scene (state r) = scene s)
  /\ targetObject (state r)
     = (if wires P v then option_map wired (targetObject s) else targetObject s)
  /\ take (length (scene s)) (scene_graph (state r))
     = map (fun child =>
              (fst child,
               if wires P v then option_map wired (snd child) else snd child))
           (scene_graph s)
  /\ (wires P v = true
      <-> v = ReferenceModel
          /\ Forall (face_valid (sphere P)) (faces (sphere P))).
Proof.
  cbn zeta. pose proof (build_scene P v n s) as Hscene. cbn zeta in Hscene.
  pose proof (build_model P v n s) as Hmodel.
  split; [exact Hscene|]. split; [exact Hmodel|]. split.
  - assert (exists more, scene (state (objectInit_with P v n s)) = scene s ++ more)
      as [more Hmore].
    { destruct (completes (objectInit_with P v n s)).
      - destruct Hscene as (g & vs & fs & -> & _). eauto.
      - exists []. now rewrite app_nil_r. }
    unfold scene_graph. rewrite Hmore, map_app, Hmodel.
    rewrite <- (length_map
                  (fun o => (o, match kind o with
                                | TargetObject =>
                                    if wires P v
                                    then option_map wired (targetObject s)
                                    else targetObject s
                                | _ => None
                                end)) (scene s)) at 1.
    rewrite take_app_length, map_map. apply map_ext. intros o. cbn [fst snd].
    destruct (kind o), (wires P v); reflexivity.
  - unfold wires. destruct v; [rewrite sphere_ok_iff|]; intuition congruence.
Qed.

(** ** The loaders, case by case *)

Section LoaderCases.

Variable P : Platform.

Lemma handle_get {A} (k : App -> M A) (s : App) : bind get k s = k s s.
Proof.
  rewrite (bind_run _ _ _ _ _ _ (eq_refl : get s = mkRun (Ok s) s [])).
  apply prepend_nil.
Qed.

Lemma handle_modify {A} (f : App -> App) (k : unit -> M A) (s : App) :
  bind (modify f) k s = k tt (f s).
Proof.
  rewrite (bind_run _ _ _ _ _ _ (eq_refl : modify f s = mkRun (Ok tt) (f s) [])).
  apply prepend_nil.
Qed.

Lemma handle_emit {A} (e : Effect) (k : unit -> M A) (s : App) :
  bind (emit e) k s = prepend [e] (k tt s).
Proof.
  exact (bind_run _ _ _ _ _ _ (eq_refl : emit e s = mkRun (Ok tt) s [e])).
Qed.

(** The manifest resolves, triangle variant: the build runs inside the
    promise chain, whose [catch] turns an exception of the build into a
    warning. *)
Lemma assets_loaded_triangle_run (s : App) :
  manifest s = Some Pending ->
  handle P Triangle AssetsLoaded s
  = let s2 := with_randoms (with_manifest s (Some Settled))
                           (15 * instances Triangle + randoms s) in
    match shaders P with
    | Some (vs, fs) =>
        mkRun (Ok tt)
          (with_scene s2
             (scene s
                ++ [mesh_of (instances Triangle) triangle_positions
                      (loop_attrs P Triangle [] (randoms s) (instances Triangle))
                      vs fs true]))
          [ConsoleLog "assets loaded"; ConsoleLog "scene"]
    | None =>
        mkRun (Ok tt) s2 [ConsoleLog "assets loaded"; ConsoleWarn null_textContent]
    end.
Proof.
  intros Hm. unfold handle. rewrite handle_get, Hm, handle_modify.
  unfold catch, onAssetsLoaded. rewrite handle_emit.
  unfold objectInit. rewrite objectInit_triangle_run. cbn zeta.
  destruct (shaders P) as [[vs fs]|]; reflexivity.
Qed.

(** The manifest resolves, reference-model variant: the OBJ load is
    requested and nothing else happens. *)
Lemma assets_loaded_reference_run (s : App) :
  manifest s = Some Pending ->
  handle P ReferenceModel AssetsLoaded s
  = mkRun (Ok tt)
          (with_objPending
             (with_objRequested (with_manifest s (Some Settled)) true) true)
          [ConsoleLog "assets loaded"; ObjLoad obj_url].
Proof.
  intros Hm. unfold handle. rewrite handle_get, Hm, handle_modify. reflexivity.
Qed.

(** The state in which the build runs once the model has arrived. *)
Definition model_set (object : Group) (s : App) : App :=
  with_scene
    (with_targetObject (with_objPending s false)
       (Some (mkGroup (children object) (mkVector3 0.02 0.02 0.02))))
    (scene s ++ [new_object TargetObject None]).

Lemma obj_loaded_run (v : Variant) (object : Group) (s : App) :
  objPending s = true ->
  handle P v (ObjLoaded object) s
  = objectInit_with P ReferenceModel (instances ReferenceModel) (model_set object s).
Proof.
  intros Hp. unfold handle. rewrite handle_get, Hp, handle_modify.
  unfold onObjLoaded. cbn zeta. rewrite handle_modify.
  unfold scene_add. rewrite handle_modify. reflexivity.
Qed.

End LoaderCases.

(** A platform whose page lacks the vertex shader element. *)
Definition bare_platform : Platform :=
  mkPlatform true false ["ambient"%string]
    (fun _ => 0.25%float)
    (fun x => x)
    (fun _ _ _ =>
       mkSphere [mkVector3 0 0.01 0; mkVector3 0.01 0 0; mkVector3 0 0 0.01]
                [mkFace 0 1 2])
    (fun p => p)
    None (Some "fragment shader"%string).

Lemma shaders_missing (P : Platform) :
  vertexShader_text P = None \/ fragmentShader_text P = None -> shaders P = None.
Proof.
  unfold shaders. intros [-> | ->]; [reflexivity|].
  destruct (vertexShader_text P); reflexivity.
Qed.

(** In the triangle variant a page without one of the two shader
    elements makes the build throw inside the promise chain, after all
    the random draws of the instance loop; the chain's [catch] reports
    it through [onAssetsError] as a warning, the handler itself
    completes, and the scene is left as it was. *)
Theorem triangle_missing_shader_is_only_warned
        (P : Platform) (s : App) :
  vertexShader_text P = None \/ fragmentShader_text P = None ->
  manifest s = Some Pending ->
  let r := handle P Triangle AssetsLoaded s in
  outcome r = Ok tt
  /\ effects r = [ConsoleLog "assets loaded"; ConsoleWarn null_textContent]
  /\ scene (state r) = scene s
  /\ randoms (state r) = 15 * instances Triangle + randoms s
  /\ manifest (state r) = Some Settled.
Proof.
  intros Hs Hm. cbn zeta. rewrite (assets_loaded_triangle_run P s Hm). cbn zeta.
  rewrite (shaders_missing P Hs). repeat split.
Qed.

Lemma triangle_missing_shader_is_only_warned_witness :
  (vertexShader_text bare_platform = None \/ fragmentShader_text bare_platform = None)
  /\ manifest (with_manifest (boot 800 600 false) (Some Pending)) = Some Pending
  /\ outcome (handle bare_platform Triangle AssetsLoaded
                (with_manifest (boot 800 600 false) (Some Pending)))
     = Ok tt.
Proof.
  split; [left; reflexivity|]. split; [reflexivity|].
  exact (proj1 (triangle_missing_shader_is_only_warned bare_platform
                  (with_manifest (boot 800 600 false) (Some Pending))
                  (or_introl eq_refl) eq_refl)).
Defined.

Lemma flatten_children_wired (cs : list ChildMesh) :
  flatten_children (map set_wireframe cs) = flatten_children cs.
Proof.
  unfold flatten_children. generalize (@nil SamplePoint).
  induction cs as [|c cs IH]; intros acc; [reflexivity|].
  cbn [map fold_left]. apply IH.
Qed.

(** When every face of the sphere names existing vertices, as the faces
    of a real [SphereGeometry] do, the reference-model build sets
    [wireframe] on the material of every child of the model before it
    reads the pool, and it does so whether or not the build then
    completes: the model keeps its vertex arrays, its scale and hence its
    pool, and the loop has drawn four random numbers for each instance it
    reached.  With a face that names a missing vertex the build throws
    while reading the faces, before it touches the model: the state is
    exactly as before, the model unwired and no random number drawn. *)
Theorem build_wires_the_model_first
        (P : Platform) (n : nat) (s : App) (object : Group) :
  targetObject s = Some object ->
  let r := objectInit_with P ReferenceModel n s in
  (sphere_ok P = true <-> Forall (face_valid (sphere P)) (faces (sphere P)))
  /\ targetObject (state r) = Some (if sphere_ok P then wired object else object)
  /\ Forall (fun c => wireframe c = true) (children (wired object))
  /\ map position_array (children (wired object)) = map position_array (children object)
  /\ scale (wired object) = scale object
  /\ pool_of (state r) = pool_of s
  /\ randoms (state r)
     = (if sphere_ok P then 4 * Nat.min n (length (pool_of s)) else 0) + randoms s
  /\ (sphere_ok P = false ->
      r = mkRun (Throw (JS.TypeError "Cannot read property 'x' of undefined")) s []).
Proof.
  intros Ht. cbn zeta. split; [apply sphere_ok_iff|].
  assert (Forall (fun c => wireframe c = true) (children (wired object))) as Hw.
  { unfold wired. cbn [children]. apply List.Forall_forall. intros c Hc.
    apply in_map_iff in Hc. destruct Hc as (c0 & <- & _). reflexivity. }
  assert (map position_array (children (wired object))
          = map position_array (children object)) as Hp.
  { unfold wired. cbn [children]. rewrite map_map. reflexivity. }
  assert (pool_of s = flatten_children (children object)) as Hpool
    by (unfold pool_of; rewrite Ht; reflexivity).
  assert (forall s', targetObject s' = Some (wired object) -> pool_of s' = pool_of s)
    as Hpool'.
  { intros s' E. unfold pool_of at 1. rewrite E, Hpool. unfold wired. cbn [children].
    apply flatten_children_wired. }
  rewrite objectInit_reference_run. unfold sphere_ok.
  destruct (List.Forall_dec _ _ _) as [_|Hn].
  - rewrite Ht. cbn zeta. rewrite Hpool.
    destruct (le_lt_dec n _) as [Hn|Hn].
    + rewrite (Nat.min_l _ _ Hn).
      destruct (shaders P) as [[vs fs]|]; cbn [state];
        (split; [reflexivity|]); (split; [exact Hw|]); (split; [exact Hp|]);
        (split; [reflexivity|]); (split; [|split; [reflexivity | discriminate]]);
        rewrite <- Hpool; apply Hpool'; reflexivity.
    + rewrite (Nat.min_r _ _ (Nat.lt_le_incl _ _ Hn)). cbn [state].
      split; [reflexivity|]. split; [exact Hw|]. split; [exact Hp|].
      split; [reflexivity|]. split; [|split; [reflexivity | discriminate]].
      rewrite <- Hpool. apply Hpool'. reflexivity.
  - cbn [state]. split; [exact Ht|]. split; [exact Hw|]. split; [exact Hp|].
    split; [reflexivity|]. repeat split.
Qed.

Lemma build_wires_the_model_first_witness :
  targetObject loaded_state = Some sample_model
  /\ sphere_ok sample_platform = true
  /\ targetObject (state (objectInit_with sample_platform ReferenceModel 2 loaded_state))
     = Some (wired sample_model)
  /\ wireframe <$> children sample_model = [false]
  /\ wireframe <$> children (wired sample_model) = [true].
Proof.
  split; [reflexivity|]. split; [reflexivity|].
  split; [|split; reflexivity].
  exact (proj1 (proj2 (build_wires_the_model_first sample_platform 2 loaded_state
                         sample_model eq_refl))).
Defined.

(** ** The life cycle of the scene *)

(** What the scene may hold after the startup children: nothing, or in
    the reference-model variant the model, alone or followed by the
    particle mesh, and in the triangle variant the particle mesh. *)
Definition tail_ok (v : Variant) (s : App) (tail : list Kind) : Prop :=
  match v with
  | Triangle =>
      objPending s = false /\ targetObject s = None
      /\ (tail = []
          \/ (manifest s = Some Settled
              /\ exists g, tail = [ParticleMesh g]
                           /\ maxInstancedCount g = instances Triangle))
  | ReferenceModel =>
      (tail = [] /\ targetObject s = None
       /\ (objPending s = true -> manifest s = Some Settled))
      \/ (manifest s = Some Settled /\ objPending s = false
          /\ exists object,
               targetObject s = Some object
               /\ scale object = mkVector3 0.02 0.02 0.02
               /\ (tail = [TargetObject]
                   \/ exists g, tail = [TargetObject; ParticleMesh g]
                                /\ maxInstancedCount g = instances ReferenceModel))
  end.

Definition lifecycle (P : Platform) (v : Variant) (s : App) : Prop :=
  (manifest s = Some Pending \/ manifest s = Some Settled)
  /\ exists tail,
       map kind (scene s) = map kind (startup_children P) ++ tail
       /\ tail_ok v s tail.

Section Lifecycle.

Variable P : Platform.
Variable v : Variant.

Lemma lifecycle_ext (s s' : App) :
  objPending s' = objPending s ->
  targetObject s' = targetObject s ->
  manifest s' = manifest s ->
  map kind (scene s') = map kind (scene s) ->
  lifecycle P v s -> lifecycle P v s'.
Proof.
  unfold lifecycle, tail_ok. intros -> -> -> ->. exact (fun H => H).
Qed.

Lemma lifecycle_pending (s : App) :
  lifecycle P v s -> manifest s = Some Pending ->
  map kind (scene s) = map kind (startup_children P)
  /\ objPending s = false /\ targetObject s = None.
Proof.
  intros (_ & tail & Hk & Ht) Hm. unfold tail_ok in Ht. destruct v.
  - destruct Ht as [(-> & Hto & Hp) | (Hs & _)]; [|congruence].
    rewrite app_nil_r in Hk. repeat split; [exact Hk| |exact Hto].
    destruct (objPending s); [|reflexivity]. specialize (Hp eq_refl). congruence.
  - destruct Ht as (Hp & Hto & [-> | (Hs & _)]); [|congruence].
    rewrite app_nil_r in Hk. repeat split; assumption.
Qed.

Lemma lifecycle_fetching (s : App) :
  lifecycle P v s -> objPending s = true ->
  v = ReferenceModel /\ manifest s = Some Settled
  /\ map kind (scene s) = map kind (startup_children P) /\ targetObject s = None.
Proof.
  intros (_ & tail & Hk & Ht) Hp. unfold tail_ok in Ht. destruct v.
  - destruct Ht as [(-> & Hto & Hs) | (_ & Hf & _)]; [|congruence].
    rewrite app_nil_r in Hk. repeat split; auto.
  - destruct Ht as (Hf & _). congruence.
Qed.

Lemma started_lifecycle (w h now : float) (debug : bool) :
  lifecycle P v (state (started P v w h debug now)).
Proof.
  destruct (started_unloaded P v w h now debug) as ((Hp & Ht & Hm & Hk & _) & _).
  split; [exact Hm|]. exists []. rewrite app_nil_r. split; [exact Hk|].
  unfold tail_ok. destruct v.
  - left. repeat split; [exact Ht|]. congruence.
  - repeat split; [exact Hp | exact Ht | left; reflexivity].
Qed.

Lemma model_only_lifecycle (object : Group) (s' : App) :
  v = ReferenceModel ->
  manifest s' = Some Settled -> objPending s' = false ->
  targetObject s' = Some object -> scale object = mkVector3 0.02 0.02 0.02 ->
  map kind (scene s') = map kind (startup_children P) ++ [TargetObject] ->
  lifecycle P v s'.
Proof.
  intros -> Hm Hp Ht Hs Hk. split; [right; exact Hm|].
  exists [TargetObject]. split; [exact Hk|]. right.
  repeat split; [exact Hm | exact Hp|]. exists object. auto.
Qed.

(** The build on the state in which the model has just been added. *)
Lemma obj_loaded_lifecycle (object : Group) (s : App) :
  lifecycle P v s -> objPending s = true ->
  lifecycle P v (state (handle P v (ObjLoaded object) s)).
Proof.
  intros L Hp. destruct (lifecycle_fetching s L Hp) as (Hv & Hm & Hk & Ht).
  rewrite (obj_loaded_run P v object s Hp), objectInit_reference_run.
  assert (map kind (scene (model_set object s))
          = map kind (startup_children P) ++ [TargetObject]) as Hk'.
  { unfold model_set. cbn [scene with_scene]. rewrite map_app, Hk. reflexivity. }
  destruct (List.Forall_dec _ _ _) as [_|_].
  - change (targetObject (model_set object s))
      with (Some (mkGroup (children object) (mkVector3 0.02 0.02 0.02))).
    cbv beta iota zeta. destruct (le_lt_dec _ _) as [_|_].
    + destruct (shaders P) as [[vs fs]|]; cbn [state].
      * split; [right; exact Hm|].
        eexists [TargetObject; ParticleMesh _]. split.
        -- cbn [scene with_scene]. rewrite map_app, Hk', <- app_assoc. reflexivity.
        -- subst v. right. repeat split; [exact Hm|].
           eexists. split; [reflexivity|]. split; [reflexivity|].
           right. eexists. split; reflexivity.
      * eapply model_only_lifecycle;
        [exact Hv | exact Hm | reflexivity | reflexivity | reflexivity | exact Hk'].
    + cbn [state].
      eapply model_only_lifecycle;
        [exact Hv | exact Hm | reflexivity | reflexivity | reflexivity | exact Hk'].
  - cbn [state].
    eapply model_only_lifecycle;
        [exact Hv | exact Hm | reflexivity | reflexivity | reflexivity | exact Hk'].
Qed.

Lemma handle_lifecycle (ev : Event) (s : App) :
  lifecycle P v s -> lifecycle P v (state (handle P v ev s)).
Proof.
  intros L. destruct ev as [now|w h| |why|object| |val|item l t|lc l t|w' h'].
  10: { rewrite window_resized_run. cbn [state].
        exact (lifecycle_ext s _ eq_refl eq_refl eq_refl eq_refl L). }
  8: { rewrite manager_progress_run. exact L. }
  8: { rewrite xhr_progress_run. exact L. }
  - destruct (update_frame P v now s) as (H1 & H2 & H3 & H4 & _).
    exact (lifecycle_ext s _ H1 H2 H3 H4 L).
  - rewrite resize_run. cbn [state].
    exact (lifecycle_ext s _ eq_refl eq_refl eq_refl eq_refl L).
  - destruct (manifest s) as [[|]|] eqn:Hm.
    + destruct (lifecycle_pending s L Hm) as (Hk & Hp & Ht). destruct v.
      * rewrite (assets_loaded_reference_run P s Hm). cbn [state].
        split; [right; reflexivity|]. exists []. rewrite app_nil_r.
        split; [exact Hk|]. left. repeat split. exact Ht.
      * rewrite (assets_loaded_triangle_run P s Hm). cbn zeta.
        destruct (shaders P) as [[vs fs]|]; cbn [state].
        -- split; [right; reflexivity|]. eexists [ParticleMesh _]. split.
           ++ cbn [scene with_scene]. rewrite map_app, Hk. reflexivity.
           ++ repeat split; [exact Hp | exact Ht|]. right.
              split; [reflexivity|]. eexists. split; reflexivity.
        -- split; [right; reflexivity|]. exists []. rewrite app_nil_r.
           split; [exact Hk|]. repeat split; [exact Hp | exact Ht | left; reflexivity].
    + rewrite (settle_skipped P v AssetsLoaded s Hm (or_introl eq_refl)). exact L.
    + destruct L as ([H|H] & _); congruence.
  - destruct (manifest s) as [[|]|] eqn:Hm.
    + destruct (lifecycle_pending s L Hm) as (Hk & Hp & Ht).
      rewrite (rejection_run P v why s Hm). cbn [state].
      split; [right; reflexivity|]. exists []. rewrite app_nil_r.
      split; [exact Hk|]. unfold tail_ok. destruct v.
      * left. repeat split. exact Ht.
      * repeat split; [exact Hp | exact Ht | left; reflexivity].
    + rewrite (settle_skipped P v (AssetsRejected why) s Hm
                 (or_intror (ex_intro _ why eq_refl))). exact L.
    + destruct L as ([H|H] & _); congruence.
  - destruct (objPending s) eqn:Hp.
    + apply obj_loaded_lifecycle; assumption.
    + rewrite (loader_skipped P v (ObjLoaded object) s Hp
                 (or_introl (ex_intro _ object eq_refl))). exact L.
  - destruct (objPending s) eqn:Hp.
    + destruct (lifecycle_fetching s L Hp) as (Hv & Hm & Hk & Ht).
      unfold handle. rewrite handle_get, Hp, handle_modify. cbn [state emit].
      split; [right; exact Hm|]. exists []. rewrite app_nil_r.
      split; [exact Hk|]. subst v. left. repeat split; [exact Ht|]. discriminate.
    + rewrite (loader_skipped P v ObjFailed s Hp (or_intror eq_refl)). exact L.
  - rewrite handle_toggle_run. cbn [state].
    exact (lifecycle_ext s _ eq_refl eq_refl eq_refl eq_refl L).
Qed.

Lemma play_lifecycle (evs : list Event) : forall s,
  lifecycle P v s -> lifecycle P v (fst (play P v evs s)).
Proof.
  induction evs as [|ev evs IH]; intros s L; [exact L|].
  cbn [play]. specialize (IH _ (handle_lifecycle ev s L)).
  destruct (play P v evs (state (handle P v ev s))). exact IH.
Qed.

End Lifecycle.

Definition is_particle_mesh (k : Kind) : bool :=
  match k with ParticleMesh _ => true | _ => false end.

(** The particle meshes among the children of the scene. *)
Definition meshes (s : App) : list Kind :=
  filter (fun k => is_particle_mesh k = true) (map kind (scene s)).

Lemma startup_has_no_mesh (P : Platform) :
  filter (fun k => is_particle_mesh k = true) (map kind (startup_children P)) = [].
Proof.
  unfold startup_children. rewrite map_app, filter_app.
  assert (forall ls : list string,
             filter (fun k => is_particle_mesh k = true)
                    (map kind (map (fun light => new_object (Light light) None) ls))
             = []) as Hl
    by (induction ls as [|l ls IH]; [reflexivity | exact IH]).
  rewrite Hl. destruct (DEV_HELPERS P); reflexivity.
Qed.

(** Whatever events follow the constructor, the scene holds the startup
    children, then in the reference-model variant possibly the model and
    after it possibly the particle mesh, in the triangle variant possibly
    the particle mesh, in this order; a mesh in the scene has the
    variant's number of instances, the model has scale 0.02, and while a
    load is pending nothing has been added.  Nothing is ever removed,
    replaced or reordered: through any further events every child stays
    at its index with its kind, which for the mesh includes its geometry.
    And the scene never holds more than one particle mesh: the build's
    mesh is added at most once. *)
Theorem scene_is_startup_then_model_then_mesh
        (P : Platform) (v : Variant) (w h now : float) (debug : bool)
        (evs : list Event) :
  let s := fst (play P v evs (state (started P v w h debug now))) in
  (exists tail,
      map kind (scene s) = map kind (startup_children P) ++ tail
      /\ tail_ok v s tail)
  /\ length (startup_children P) <= length (scene s)
     <= length (startup_children P)
        + match v with ReferenceModel => 2 | Triangle => 1 end
  /\ (forall more_events : list Event,
         exists more,
           map kind (scene (fst (play P v more_events s)))
           = map kind (scene s) ++ more)
  /\ length (meshes s) <= 1
  /\ (forall (more_events : list Event) (g : InstancedBufferGeometry),
         In (ParticleMesh g) (meshes s) ->
         meshes (fst (play P v more_events s)) = [ParticleMesh g]).
Proof.
  cbn zeta.
  set (s := fst (play P v evs (state (started P v w h debug now)))).
  assert (forall evs', lifecycle P v (fst (play P v evs' s))) as Hlife.
  { intros evs'. apply play_lifecycle. subst s.
    apply play_lifecycle, started_lifecycle. }
  assert (forall s', lifecycle P v s' ->
            length (startup_children P) <= length (scene s')
            <= length (startup_children P)
               + match v with ReferenceModel => 2 | Triangle => 1 end
            /\ (meshes s' = []
                \/ exists g, meshes s' = [ParticleMesh g]
                             /\ last (map kind (scene s')) = Some (ParticleMesh g)))
    as Hshape.
  { intros s' (_ & tail & Hk & Ht). unfold meshes. rewrite Hk, filter_app.
    rewrite startup_has_no_mesh. apply (f_equal (@length Kind)) in Hk.
    rewrite length_app, !length_map in Hk. rewrite Hk.
    unfold tail_ok in Ht. destruct v.
    - destruct Ht as [(-> & _) | (_ & _ & o & _ & _ & [-> | (g & -> & _)])];
        cbn [length]; (split; [lia|]);
        [left; reflexivity | left; reflexivity | right; exists g].
      split; [reflexivity|]. rewrite last_app. reflexivity.
    - destruct Ht as (_ & _ & [-> | (_ & g & -> & _)]);
        cbn [length]; (split; [lia|]); [left; reflexivity | right; exists g].
      split; [reflexivity|]. rewrite last_app. reflexivity. }
  pose proof (Hlife []) as L. cbn [play fst] in L.
  destruct L as (Hm & tail & Hk & Ht).
  split; [exists tail; split; assumption|].
  destruct (Hshape s (conj Hm (ex_intro _ tail (conj Hk Ht)))) as [Hlen Hmesh].
  split; [exact Hlen|]. split; [|split].
  - intros evs'. exact (play_keeps P v evs' s).
  - destruct Hmesh as [-> | (g & -> & _)]; cbn [length]; lia.
  - intros evs' g Hin.
    destruct (play_keeps P v evs' s) as [more Hmore].
    destruct (Hshape _ (Hlife evs')) as [_ Hmesh'].
    assert (In (ParticleMesh g) (meshes (fst (play P v evs' s)))) as Hin'.
    { unfold meshes in Hin |- *. rewrite Hmore, filter_app.
      apply in_or_app. left. exact Hin. }
    destruct Hmesh' as [E | (g' & E & _)]; rewrite E in Hin' |- *.
    + inversion Hin'.
    + destruct Hin' as [<- | []]. reflexivity.
Qed.

(** ** Load requests *)

(** How the manifest promise settles in a sequence of events: by its
    first fulfilment or rejection, if there is one. *)
Fixpoint manifest_outcome (evs : list Event) : option bool :=
  match evs with
  | [] => None
  | AssetsLoaded :: _ => Some true
  | AssetsRejected _ :: _ => Some false
  | _ :: evs => manifest_outcome evs
  end.

Section Loads.

Variable P : Platform.
Variable v : Variant.

Lemma objectInit_reference_quiet (n : nat) (s : App) :
  effects (objectInit_with P ReferenceModel n s) = []
  /\ manifest (state (objectInit_with P ReferenceModel n s)) = manifest s
  /\ objPending (state (objectInit_with P ReferenceModel n s)) = objPending s.
Proof.
  rewrite objectInit_reference_run.
  destruct (List.Forall_dec _ _ _) as [_|_]; [|repeat split].
  destruct (targetObject s) as [object|]; [|repeat split].
  cbv beta iota zeta. destruct (le_lt_dec _ _) as [_|_]; [|repeat split].
  destruct (shaders P) as [[vs fs]|]; repeat split.
Qed.

(** The loads an event requests and what it does to the manifest
    promise, from any state. *)
Lemma handle_loads (ev : Event) (s : App) :
  load_requests (effects (handle P v ev s))
  = match v, ev, manifest s with
    | ReferenceModel, AssetsLoaded, Some Pending => [ObjLoad obj_url]
    | _, _, _ => []
    end
  /\ manifest (state (handle P v ev s))
     = match ev, manifest s with
       | AssetsLoaded, Some Pending | AssetsRejected _, Some Pending => Some Settled
       | _, m => m
       end.
Proof.
  destruct ev as [now|w h| |why|object| |val|item l t|lc l t|w' h'].
  10: { rewrite window_resized_run. cbn [state effects manifest with_window].
        destruct v, (manifest s) as [[|]|]; split; reflexivity. }
  8: { rewrite manager_progress_run. cbn [state effects].
       destruct v, (manifest s) as [[|]|], (objRequested s); split; reflexivity. }
  8: { rewrite xhr_progress_run. cbn [state effects].
       destruct v, (manifest s) as [[|]|], (objPending s && lc)%bool;
         split; reflexivity. }
  - destruct (update_frame P v now s) as (_ & _ & H3 & _ & _ & H6).
    change (handle P v (Frame now) s) with (update P v now s).
    rewrite H3, H6. destruct v, (manifest s) as [[|]|]; split; reflexivity.
  - rewrite resize_run. cbn [state effects manifest with_cameras with_window].
    destruct v, (manifest s) as [[|]|]; split; reflexivity.
  - destruct (manifest s) as [[|]|] eqn:Hm.
    + destruct v.
      * rewrite (assets_loaded_reference_run P s Hm). split; reflexivity.
      * rewrite (assets_loaded_triangle_run P s Hm). cbn zeta.
        destruct (shaders P) as [[vs fs]|]; split; reflexivity.
    + rewrite (settle_skipped P v AssetsLoaded s Hm (or_introl eq_refl)).
      cbn [state effects]. rewrite Hm. destruct v; split; reflexivity.
    + unfold handle. rewrite handle_get, Hm. cbn [ret state effects].
      rewrite Hm. destruct v; split; reflexivity.
  - destruct (manifest s) as [[|]|] eqn:Hm.
    + rewrite (rejection_run P v why s Hm). destruct v; split; reflexivity.
    + rewrite (settle_skipped P v (AssetsRejected why) s Hm
                 (or_intror (ex_intro _ why eq_refl))).
      cbn [state effects]. rewrite Hm. destruct v; split; reflexivity.
    + unfold handle. rewrite handle_get, Hm. cbn [ret state effects].
      rewrite Hm. destruct v; split; reflexivity.
  - destruct (objPending s) eqn:Hp.
    + rewrite (obj_loaded_run P v object s Hp).
      destruct (objectInit_reference_quiet (instances ReferenceModel)
                  (model_set object s)) as (E & M & _).
      rewrite E, M. change (manifest (model_set object s)) with (manifest s).
      destruct v, (manifest s) as [[|]|]; split; reflexivity.
    + rewrite (loader_skipped P v (ObjLoaded object) s Hp
                 (or_introl (ex_intro _ object eq_refl))).
      cbn [state effects]. destruct v, (manifest s) as [[|]|]; split; reflexivity.
  - destruct (objPending s) eqn:Hp.
    + unfold handle. rewrite handle_get, Hp, handle_modify. cbn [emit state effects].
      change (manifest (with_objPending s false)) with (manifest s).
      destruct v, (manifest s) as [[|]|]; split; reflexivity.
    + rewrite (loader_skipped P v ObjFailed s Hp (or_intror eq_refl)).
      cbn [state effects]. destruct v, (manifest s) as [[|]|]; split; reflexivity.
  - rewrite handle_toggle_run. cbn [state effects manifest with_debugCamera].
    destruct v, (manifest s) as [[|]|]; split; reflexivity.
Qed.

Lemma play_loads_settled (evs : list Event) : forall s,
  manifest s <> Some Pending ->
  load_requests (snd (play P v evs s)) = [].
Proof.
  induction evs as [|ev evs IH]; intros s Hm; [reflexivity|].
  cbn [play]. destruct (handle_loads ev s) as [L M].
  assert (manifest (state (handle P v ev s)) <> Some Pending) as Hm'.
  { rewrite M. destruct ev, (manifest s) as [[|]|]; congruence. }
  specialize (IH _ Hm').
  destruct (play P v evs (state (handle P v ev s))) as [s' tr]. cbn [snd] in *.
  rewrite load_requests_app, IH, L.
  destruct v, ev, (manifest s) as [[|]|]; try reflexivity; congruence.
Qed.

Lemma play_loads_pending (evs : list Event) : forall s,
  manifest s = Some Pending ->
  load_requests (snd (play P v evs s))
  = match v, manifest_outcome evs with
    | ReferenceModel, Some true => [ObjLoad obj_url]
    | _, _ => []
    end.
Proof.
  induction evs as [|ev evs IH]; intros s Hm;
    [cbn; destruct v; reflexivity|].
  cbn [play]. destruct (handle_loads ev s) as [L M]. rewrite Hm in L, M.
  pose proof (play_loads_settled evs (state (handle P v ev s))) as S.
  specialize (IH (state (handle P v ev s))).
  destruct (play P v evs (state (handle P v ev s))) as [s' tr]. cbn [snd] in *.
  rewrite load_requests_app, L.
  destruct ev; cbn [manifest_outcome];
    try (rewrite (IH M); destruct v; reflexivity);
    (rewrite S by (rewrite M; discriminate)); destruct v; reflexivity.
Qed.

End Loads.

(** Over the constructor and any events after it the program requests
    the manifest exactly once, in the constructor, and the OBJ file at
    most once: exactly when the variant is the reference-model one and
    the manifest promise settles by fulfilment.  No other event requests
    a load, and a second fulfilment requests nothing. *)
Theorem loads_are_requested_once
        (P : Platform) (v : Variant) (w h now : float) (debug : bool)
        (evs : list Event) :
  let r := started P v w h debug now in
  load_requests (effects r ++ snd (play P v evs (state r)))
  = AssetLoad
      :: match v, manifest_outcome evs with
         | ReferenceModel, Some true => [ObjLoad obj_url]
         | _, _ => []
         end.
Proof.
  cbn zeta. destruct (started_unloaded P v w h now debug) as (_ & E).
  rewrite load_requests_app, E.
  rewrite play_loads_pending; [reflexivity|].
  unfold started. rewrite constructor_run, state_prepend.
  destruct (update_frame P v now (set_up P (boot w h debug))) as (_ & _ & -> & _).
  reflexivity.
Qed.

(** ** When the triangle variant draws *)

(** The animation block needs shader uniforms on the object it is given. *)
Definition animatable (o : Object3D) : bool :=
  match material o with
  | Some (RawShaderMaterial _ _ _ _) => true
  | _ => false
  end.

(** The mesh exists after the events: the manifest was fulfilled and
    both shader elements are there. *)
Definition built (P : Platform) (evs : list Event) : bool :=
  match manifest_outcome evs, shaders P with
  | Some true, Some _ => true
  | _, _ => false
  end.

Section TriangleLife.

Variable P : Platform.

Lemma animated_animatable (time : float) (o : Object3D) :
  match animated P time o with
  | Ok o' => animatable o = true /\ animatable o' = true
  | Throw _ => animatable o = false
  end.
Proof.
  unfold animated, animatable. destruct (material o) as [[|u vs fs t]|]; auto.
Qed.

Lemma insert_keeps_animatable (l : list Object3D) (i : nat) (o o' : Object3D) :
  l !! i = Some o -> animatable o' = animatable o ->
  map animatable (<[i := o']> l) = map animatable l.
Proof.
  intros Hi Hk. change (map animatable ?l) with (animatable <$> l).
  rewrite list_fmap_insert, Hk. apply list_insert_id.
  now rewrite list_lookup_fmap, Hi.
Qed.

(** A frame of the triangle variant completes exactly when the fourth
    child has shader uniforms; either way no child gains or loses them. *)
Lemma triangle_frame_animatable (now : float) (s : App) :
  completes (update P Triangle now s)
  = match scene s !! 3 with Some o => animatable o | None => false end
  /\ map animatable (scene (state (update P Triangle now s)))
     = map animatable (scene s).
Proof.
  rewrite update_triangle_run, animate_run. cbn zeta.
  change (scene (orbited P s)) with (scene s).
  destruct (scene s !! 3) as [o|] eqn:E; [|split; reflexivity].
  pose proof (animated_animatable now o) as A.
  destruct (animated P now o) as [o'|e]; cbn [outcome state scene with_scene].
  - destruct A as [A A']. split; [now rewrite A|].
    apply (insert_keeps_animatable _ _ o); [exact E | congruence].
  - split; [now rewrite A|].
    apply (insert_keeps_animatable _ _ o); [exact E | reflexivity].
Qed.

Lemma handle_animatable (ev : Event) (s : App) :
  objPending s = false ->
  objPending (state (handle P Triangle ev s)) = false
  /\ map animatable (scene (state (handle P Triangle ev s)))
     = map animatable (scene s)
         ++ match ev, manifest s, shaders P with
            | AssetsLoaded, Some Pending, Some _ => [true]
            | _, _, _ => []
            end.
Proof.
  intros Hp. destruct ev as [now|w h| |why|object| |val|item l t|lc l t|w' h'].
  10: { rewrite window_resized_run. cbn [state]. rewrite app_nil_r.
        split; [exact Hp | reflexivity]. }
  8: { rewrite manager_progress_run. cbn [state]. rewrite app_nil_r.
       split; [exact Hp | reflexivity]. }
  8: { rewrite xhr_progress_run. cbn [state]. rewrite app_nil_r.
       split; [exact Hp | reflexivity]. }
  - destruct (update_frame P Triangle now s) as (H1 & _).
    destruct (triangle_frame_animatable now s) as (_ & H2).
    change (handle P Triangle (Frame now) s) with (update P Triangle now s).
    rewrite H1, H2, app_nil_r. split; [exact Hp | reflexivity].
  - rewrite resize_run. cbn [state]. rewrite app_nil_r. split; [exact Hp | reflexivity].
  - destruct (manifest s) as [[|]|] eqn:Hm.
    + rewrite (assets_loaded_triangle_run P s Hm). cbn zeta.
      destruct (shaders P) as [[vs fs]|]; cbn [state].
      * split; [exact Hp|]. cbn [scene with_scene]. rewrite map_app. reflexivity.
      * rewrite app_nil_r. split; [exact Hp | reflexivity].
    + rewrite (settle_skipped P Triangle AssetsLoaded s Hm (or_introl eq_refl)).
      cbn [state]. rewrite app_nil_r. split; [exact Hp | reflexivity].
    + unfold handle. rewrite handle_get, Hm. cbn [ret state].
      rewrite app_nil_r. split; [exact Hp | reflexivity].
  - destruct (manifest s) as [[|]|] eqn:Hm.
    + rewrite (rejection_run P Triangle why s Hm). cbn [state].
      rewrite app_nil_r. split; [exact Hp | reflexivity].
    + rewrite (settle_skipped P Triangle (AssetsRejected why) s Hm
                 (or_intror (ex_intro _ why eq_refl))).
      cbn [state]. rewrite app_nil_r. split; [exact Hp | reflexivity].
    + unfold handle. rewrite handle_get, Hm. cbn [ret state].
      rewrite app_nil_r. split; [exact Hp | reflexivity].
  - rewrite (loader_skipped P Triangle (ObjLoaded object) s Hp
               (or_introl (ex_intro _ object eq_refl))).
    cbn [state]. rewrite app_nil_r. split; [exact Hp | reflexivity].
  - rewrite (loader_skipped P Triangle ObjFailed s Hp (or_intror eq_refl)).
    cbn [state]. rewrite app_nil_r. split; [exact Hp | reflexivity].
  - rewrite handle_toggle_run. cbn [state]. rewrite app_nil_r.
    split; [exact Hp | reflexivity].
Qed.

Lemma play_animatable (evs : list Event) : forall s,
  objPending s = false ->
  map animatable (scene (fst (play P Triangle evs s)))
  = map animatable (scene s)
      ++ match manifest s with
         | Some Pending => if built P evs then [true] else []
         | _ => []
         end.
Proof.
  induction evs as [|ev evs IH]; intros s Hp.
  - cbn [play fst]. unfold built. cbn [manifest_outcome].
    destruct (manifest s) as [[|]|]; now rewrite app_nil_r.
  - cbn [play]. destruct (handle_animatable ev s Hp) as [Hp' Hk].
    destruct (handle_loads P Triangle ev s) as [_ M].
    specialize (IH _ Hp'). rewrite Hk, M in IH.
    destruct (play P Triangle evs (state (handle P Triangle ev s))) as [s' tr].
    cbn [fst] in *. rewrite IH, <- app_assoc. f_equal.
    unfold built. destruct ev; cbn [manifest_outcome];
      destruct (manifest s) as [[|]|]; try reflexivity;
      destruct (shaders P) as [[vs fs]|]; reflexivity.
Qed.

Lemma startup_not_animatable :
  map animatable (startup_children P) = replicate (length (startup_children P)) false.
Proof.
  unfold startup_children. rewrite map_app, length_app, replicate_add, length_map.
  f_equal; [destruct (DEV_HELPERS P); reflexivity|].
  induction (lights P) as [|l ls IH]; [reflexivity|].
  cbn [map length replicate]. now rewrite IH.
Qed.

Lemma fourth_is_mesh (k : nat) (b : bool) :
  (replicate k false ++ (if b then [true] else [])) !! 3 = Some true
  <-> k = 3 /\ b = true.
Proof.
  split.
  - intros H. apply lookup_app_Some in H as [H | [Hk H]].
    + apply lookup_replicate in H as [[=] _].
    + rewrite length_replicate in Hk, H. destruct b.
      * apply list_lookup_singleton_Some in H as [H _]. split; [lia | reflexivity].
      * inversion H.
  - intros [-> ->]. reflexivity.
Qed.

End TriangleLife.


(** ** The fourth child before the mesh exists *)

(** Helpers and two lights: the constructor puts four children in the
    scene. *)
Definition two_lights_platform : Platform :=
  mkPlatform true false ["ambient"%string; "directional"%string]
    (fun _ => 0.25%float)
    (fun x => x)
    (fun _ _ _ =>
       mkSphere [mkVector3 0 0.01 0; mkVector3 0.01 0 0; mkVector3 0 0 0.01]
                [mkFace 0 1 2])
    (fun p => p)
    (Some "vertex shader"%string) (Some "fragment shader"%string).

(** The statement under examination: in every frame before the asset
    load resolves the read of [scene.children[3]] is out of range, and the
    frame fails. *)
Definition fourth_child_out_of_range_before_load (P : Platform) : Prop :=
  forall (w h now : float) (debug : bool) (nows : list float) (now' : float),
    let s := fst (play P Triangle (frames nows)
                       (state (started P Triangle w h debug now))) in
    scene s !! 3 = None
    /\ exists e, outcome (update P Triangle now' s) = Throw e.

(** C9, as stated, fails when the constructor adds four children:
    with the two helpers and two lights the fourth child exists before any
    load, the read is in range, the write of its rotation succeeds, and
    the frame fails later, on the uniforms a light does not have. *)
Lemma C9_counterexample_four_startup_children :
  ~ fourth_child_out_of_range_before_load two_lights_platform
  /\ length (startup_children two_lights_platform) = 4
  /\ scene (state (started two_lights_platform Triangle 800 600 false 1000)) !! 3
     = Some (mkObject (Light "directional") (1000 * 0.0005)%float None)
  /\ outcome (started two_lights_platform Triangle 800 600 false 1000)
     = Throw (JS.TypeError "Cannot read property 'uniforms' of undefined").
Proof.
  split; [|repeat split; reflexivity].
  intros H. destruct (H 800 600 1000 false [] 1016)%float as [H0 _].
  discriminate H0.
Qed.

(** C9, amended.  The frame of the triangle variant reads
    [scene.children[3]] whatever the scene holds.  On a scene with fewer
    than four children the read yields [undefined], the access to its
    rotation throws and the frame issues no render pass and leaves the
    scene as it is; when the constructor adds fewer than four children
    this is so for the frame the constructor runs and for every later
    frame while only those children are there.  When the constructor adds
    four children or more, the fourth is a helper or a light: the read is
    in range, its rotation is written, and the frame throws on its
    uniforms.  Whatever the number of startup children, no frame completes
    or issues a render pass before the manifest has been fulfilled.  On a
    fourth child with shader uniforms the frame sets the rotation to
    time * 0.0005, the uniform [time] to time * 0.005 and [sineTime] to
    the sine of that value times 0.05. *)
Theorem C9_triangle_frame_dereferences_fourth_child
        (P : Platform) (now : float) (s : App) :
  length (scene s) < 4 ->
  scene s !! 3 = None
  /\ outcome (update P Triangle now s)
     = Throw (JS.TypeError "Cannot read property 'rotation' of undefined")
  /\ render_passes (effects (update P Triangle now s)) = 0
  /\ scene (state (update P Triangle now s)) = scene s
  /\ (forall (w h : float) (debug : bool) (nows : list float),
         length (startup_children P) < 4 ->
         outcome (started P Triangle w h debug now)
         = Throw (JS.TypeError "Cannot read property 'rotation' of undefined")
         /\ scene (state (started P Triangle w h debug now)) = startup_children P
         /\ scene (fst (play P Triangle (frames nows)
                             (state (started P Triangle w h debug now))))
            = startup_children P
         /\ render_passes (snd (play P Triangle (frames nows)
                                     (state (started P Triangle w h debug now))))
            = 0)
  /\ (forall (w h : float) (debug : bool),
         4 <= length (startup_children P) ->
         exists o,
           startup_children P !! 3 = Some o
           /\ scene (state (started P Triangle w h debug now)) !! 3
              = Some (mkObject (kind o) (now * 0.0005)%float (material o))
           /\ outcome (started P Triangle w h debug now)
              = Throw (JS.TypeError
                         match material o with
                         | None => "Cannot read property 'uniforms' of undefined"
                         | Some _ => "Cannot read property 'time' of undefined"
                         end))
  /\ (forall (w h : float) (debug : bool) (evs : list Event) (now' : float),
         manifest_outcome evs <> Some true ->
         let s1 := fst (play P Triangle evs
                             (state (started P Triangle w h debug now))) in
         completes (started P Triangle w h debug now) = false
         /\ completes (update P Triangle now' s1) = false
         /\ render_passes (effects (update P Triangle now' s1)) = 0)
  /\ (forall (s1 : App) (o : Object3D) u vs fs t,
         scene s1 !! 3 = Some o ->
         material o = Some (RawShaderMaterial u vs fs t) ->
         outcome (update P Triangle now s1) = Ok tt
         /\ scene (state (update P Triangle now s1)) !! 3
            = Some (mkObject (kind o) (now * 0.0005)%float
                      (Some (RawShaderMaterial
                               (mkUniforms (now * 0.005)
                                           (Math_sin P (now * 0.005 * 0.05)))%float
                               vs fs t)))).
Proof.
  intros Hlen. split; [apply lookup_ge_None_2; lia|].
  rewrite (triangle_frame_short_scene P now s Hlen). cbn [outcome state effects].
  split; [reflexivity|]. split; [apply no_pass_before_render|].
  split; [reflexivity|]. split; [|split; [|split]].
  - intros w h debug nows Hstart. unfold started.
    rewrite constructor_run, outcome_prepend, state_prepend.
    assert (length (scene (set_up P (boot w h debug))) < 4) as Hlen0
        by (cbn; exact Hstart).
    rewrite (triangle_frame_short_scene P now _ Hlen0). cbn [outcome state effects].
    split; [reflexivity|]. split; [reflexivity|].
    apply (triangle_frames_short_scene P nows (orbited P (set_up P (boot w h debug)))).
    exact Hlen0.
  - intros w h debug Hstart.
    destruct (lookup_lt_is_Some_2 (startup_children P) 3 ltac:(lia)) as [o Ho].
    exists o. split; [exact Ho|]. unfold started.
    rewrite constructor_run, outcome_prepend, state_prepend.
    rewrite update_triangle_run, animate_run. cbn zeta.
    change (scene (orbited P (set_up P (boot w h debug)))) with (startup_children P).
    rewrite Ho.
    destruct (startup_children_not_animated P now 3 o Ho) as [e He].
    unfold animated in He |- *.
    destruct (material o) as [[|u vs fs t]|]; try discriminate He;
      cbn [outcome state scene with_scene];
      (split; [apply list_lookup_insert_eq; apply lookup_lt_Some in Ho; exact Ho
              | reflexivity]).
  - intros w h debug evs now' Hevs. cbn zeta.
    set (s0 := state (started P Triangle w h debug now)).
    assert (objPending s0 = false /\ manifest s0 = Some Pending
            /\ map animatable (scene s0) = map animatable (startup_children P))
      as (Hp & Hm & Hk).
    { subst s0. unfold started. rewrite constructor_run, state_prepend.
      destruct (update_frame P Triangle now (set_up P (boot w h debug)))
        as (H1 & _ & H3 & _).
      destruct (triangle_frame_animatable P now (set_up P (boot w h debug)))
        as (_ & H4).
      rewrite H1, H3, H4. repeat split. }
    assert (built P evs = false) as Hb.
    { unfold built. destruct (manifest_outcome evs) as [[|]|]; try reflexivity.
      congruence. }
    pose proof (play_animatable P evs s0 Hp) as K.
    rewrite Hm, Hb, Hk, startup_not_animatable, app_nil_r in K.
    assert (completes (update P Triangle now' (fst (play P Triangle evs s0))) = false)
      as Hc.
    { destruct (triangle_frame_animatable P now' (fst (play P Triangle evs s0)))
        as (-> & _).
      destruct (scene (fst (play P Triangle evs s0)) !! 3) as [o|] eqn:E;
        [|reflexivity].
      assert (map animatable (scene (fst (play P Triangle evs s0))) !! 3
              = Some (animatable o)) as E'.
      { change (map animatable ?l) with (animatable <$> l).
        now rewrite list_lookup_fmap, E. }
      rewrite K in E'. apply lookup_replicate in E' as [E' _]. now symmetry. }
    split; [|split; [exact Hc|]].
    + unfold completes.
      destruct (triangle_first_frame_throws P w h now debug) as [[e ->] _].
      reflexivity.
    + rewrite update_trace, Hc, app_nil_r. apply no_pass_before_render.
  - intros s1 o u vs fs t Ho Hm.
    rewrite update_triangle_run, animate_run. cbn zeta.
    change (scene (orbited P s1)) with (scene s1). rewrite Ho.
    unfold animated. rewrite Hm. cbn [outcome state effects scene with_scene].
    split; [reflexivity|]. apply list_lookup_insert_eq.
    apply lookup_lt_Some in Ho. exact Ho.
Qed.

Lemma C9_triangle_frame_dereferences_fourth_child_witness :
  length (scene (state (started sample_platform Triangle 800 600 false 0))) < 4
  /\ scene (state (started sample_platform Triangle 800 600 false 0)) !! 3 = None
  /\ outcome (update sample_platform Triangle 16
                     (state (started sample_platform Triangle 800 600 false 0)))
     = Throw (JS.TypeError "Cannot read property 'rotation' of undefined").
Proof.
  assert (length (scene (state (started sample_platform Triangle 800 600 false 0))) < 4)
    as H by (vm_compute; lia).
  split; [exact H|].
  pose proof (C9_triangle_frame_dereferences_fourth_child
                sample_platform 16
                (state (started sample_platform Triangle 800 600 false 0)) H) as T.
  split; [exact (proj1 T) | exact (proj1 (proj2 T))].
Defined.

(** In the triangle variant a frame after the constructor and any events
    completes, and then issues its one or two render passes, exactly when
    the constructor put three children in the scene, the manifest promise
    was fulfilled and both shader elements exist: only then is
    [scene.children[3]] the particle mesh.  In every other case the frame
    throws before the render stage and issues no pass: with fewer startup
    children the mesh is not the fourth child, with more the fourth child
    is a helper or a light. *)
Theorem triangle_frame_completes_iff_mesh_is_fourth_child
        (P : Platform) (w h now : float) (debug : bool) (evs : list Event)
        (now' : float) :
  let s := fst (play P Triangle evs (state (started P Triangle w h debug now))) in
  let r := handle P Triangle (Frame now') s in
  (completes r = true
   <-> length (startup_children P) = 3
       /\ manifest_outcome evs = Some true
       /\ vertexShader_text P <> None /\ fragmentShader_text P <> None)
  /\ render_passes (effects r)
     = if completes r then (if debugCamera s then 2 else 1) else 0.
Proof.
  cbn zeta.
  set (s0 := state (started P Triangle w h debug now)).
  set (s := fst (play P Triangle evs s0)).
  change (handle P Triangle (Frame now') s) with (update P Triangle now' s).
  assert (objPending s0 = false /\ manifest s0 = Some Pending
          /\ map animatable (scene s0) = map animatable (startup_children P))
    as (Hp & Hm & Hk).
  { subst s0. unfold started. rewrite constructor_run, state_prepend.
    destruct (update_frame P Triangle now (set_up P (boot w h debug)))
      as (H1 & _ & H3 & _).
    destruct (triangle_frame_animatable P now (set_up P (boot w h debug))) as (_ & H4).
    rewrite H1, H3, H4. repeat split. }
  pose proof (play_animatable P evs s0 Hp) as K. fold s in K.
  rewrite Hm, Hk, startup_not_animatable in K.
  destruct (triangle_frame_animatable P now' s) as (C & _).
  assert (completes (update P Triangle now' s) = true
          <-> length (startup_children P) = 3 /\ built P evs = true) as Hiff.
  { rewrite C, <- fourth_is_mesh, <- K.
    change (map animatable ?l) with (animatable <$> l).
    rewrite list_lookup_fmap. destruct (scene s !! 3) as [o|]; cbn.
    - split; [intros ->; reflexivity | intros [= ->]; reflexivity].
    - split; discriminate. }
  split.
  - rewrite Hiff. unfold built, shaders.
    destruct (manifest_outcome evs) as [[|]|], (vertexShader_text P),
      (fragmentShader_text P); intuition congruence.
  - rewrite update_trace. destruct (completes (update P Triangle now' s)).
    + rewrite !render_passes_app, render_passes_frame.
      destruct (render_passes_stats P) as [-> ->].
      change (render_passes [RequestAnimationFrame]) with 0.
      destruct (debugCamera s); reflexivity.
    + rewrite app_nil_r. apply no_pass_before_render.
Qed.

(** ** What each event leaves alone *)

(** The part of the state a frame cannot change: everything but the
    scene and where the cameras stand. *)
Definition beside_frame (s : App) :=
  (innerWidth s, innerHeight s, debugCamera s, targetObject s, randoms s,
   manifest s, objPending s, objRequested s,
   intrinsics (cam_dev s), intrinsics (cam_main s)).

(** The part the loaders and the build cannot change: the window, the
    cameras and the flag. *)
Definition beside_load (s : App) :=
  (innerWidth s, innerHeight s, cam_dev s, cam_main s, debugCamera s).

(** The part a resize or a toggle cannot change: the scene, the model,
    the random stream, the loads and where the cameras stand. *)
Definition beside_window (s : App) :=
  (scene s, targetObject s, randoms s, manifest s, objPending s, objRequested s,
   position (cam_dev s), orientation (cam_dev s),
   position (cam_main s), orientation (cam_main s)).

(** A frame, whether it completes or throws, changes only the scene and
    the placement of the cameras: it draws no random number, settles no
    load and leaves the window, the flag and the cameras' parameters as
    they are.  The callbacks of the manifest promise and the load and
    error callbacks of the OBJ loader, with the build they run and
    whatever their outcome, leave the window, both cameras and the flag as
    they are.  The two progress callbacks of the OBJ loader change nothing
    at all.  A resize or a toggle changes nothing of the scene, the model,
    the loads or the placement of the cameras, and a change of the window
    changes its size and nothing else. *)
Theorem events_leave_the_rest_alone
        (P : Platform) (v : Variant) (ev : Event) (s : App) :
  let s' := state (handle P v ev s) in
  match ev with
  | Frame _ => beside_frame s' = beside_frame s
  | Resize _ _ | DebugCamera _ => beside_window s' = beside_window s
  | AssetsLoaded | AssetsRejected _ | ObjLoaded _ | ObjFailed =>
      beside_load s' = beside_load s
  | ManagerProgress _ _ _ | XhrProgress _ _ _ => s' = s
  | WindowResized w h => s' = with_window s w h
  end.
Proof.
  cbn zeta. destruct ev as [now|w h| |why|object| |val|item l t|lc l t|w' h'].
  10: { reflexivity. }
  - apply (update_unchanged P beside_frame); reflexivity.
  - rewrite resize_run. reflexivity.
  - apply (callback_unchanged P beside_load); [reflexivity .. | | | |];
      intros; discriminate.
  - apply (callback_unchanged P beside_load); [reflexivity .. | | | |];
      intros; discriminate.
  - apply (callback_unchanged P beside_load); [reflexivity .. | | | |];
      intros; discriminate.
  - apply (callback_unchanged P beside_load); [reflexivity .. | | | |];
      intros; discriminate.
  - rewrite handle_toggle_run. reflexivity.
  - rewrite manager_progress_run. reflexivity.
  - rewrite xhr_progress_run. reflexivity.
Qed.
